(** * gold-silver-tracker: the price extractor of [server.js]

    A shallow embedding of the request handler of [GET /api/rates]
    (server.js, lines 83-329): the numeric parser [parseNumber], the
    flattener [flatten], the chain of extraction heuristics, the unit
    conversion and the response that is sent; and of the route around it
    (lines 35-85): the API key, the request to the provider and the
    reading of its answer.

    JavaScript values are modelled as follows.
    - A Number is an IEEE 754 binary64 value: [spec_float] of the
      standard library with [prec = 53] and [emax = 1024]; the arithmetic
      of the handler ([*], [/], [-]) is [SFmul], [SFdiv], [SFsub].  A
      numeric literal is converted with correct rounding.
    - A String is a [string] of bytes.  Only ASCII characters are
      interpreted (white space, letter case, digits); other bytes are
      carried around unchanged, and a [\uXXXX] escape of JSON text is
      decoded to the UTF-8 bytes of its code unit.
    - A JSON value is the inductive type [json]; an object is the list of
      its own properties in the order [Object.keys] enumerates them.
    - [null] and [undefined] results are [None].

    Outside the model: the limit of the call stack, the prototype setter
    that [Object.assign] reaches through a property named [__proto__],
    and a [currency] query parameter that is not a string.  The client
    (App.js) formats the prices with [toLocaleString], whose result
    depends on the locale of the browser; it is not embedded. *)

From Stdlib Require Import ZArith NArith List String Ascii Bool Lia.
From Stdlib Require Import Floats.SpecFloat.
From Stdlib Require Import Sorting.Permutation Sorting.Sorted.
Import ListNotations.

Local Open Scope string_scope.
Local Open Scope list_scope.
Local Open Scope nat_scope.

(* ================================================================== *)
(** ** Numbers *)

Module Num.

Definition number := spec_float.

Definition prec : Z := 53%Z.
Definition emax : Z := 1024%Z.

Definition mul : number -> number -> number := SFmul prec emax.
Definition div : number -> number -> number := SFdiv prec emax.
Definition sub : number -> number -> number := SFsub prec emax.
Definition valid (x : number) : bool := valid_binary prec emax x.

Definition NaN : number := S754_nan.
Definition pos_zero : number := S754_zero false.
Definition infinity : number := S754_infinity false.

(** [Number.isNaN] *)
Definition isNaN (x : number) : bool :=
  match x with S754_nan => true | _ => false end.

Definition isFinite (x : number) : bool :=
  match x with S754_nan | S754_infinity _ => false | _ => true end.

(** ToBoolean on a Number: [+0], [-0] and [NaN] are falsy. *)
Definition truthy (x : number) : bool :=
  match x with S754_nan | S754_zero _ => false | _ => true end.

(** [x > 0] and [x < 0]. *)
Definition gt0 (x : number) : bool := SFltb pos_zero x.
Definition lt0 (x : number) : bool := SFltb x pos_zero.

(** The Number nearest to [(-1)^s * m * 10^e] (round to nearest, ties to
    even), for a mantissa and a decimal exponent read from a literal. *)
Definition of_decimal (s : bool) (m : N) (e : Z) : number :=
  match m with
  | N0 => S754_zero s
  | Npos p =>
      match e with
      | Zneg k => div (S754_finite s p 0%Z) (S754_finite false (10 ^ k)%positive 0%Z)
      | Z0 => binary_round prec emax s p 0%Z
      | Zpos k => binary_round prec emax s (p * 10 ^ k)%positive 0%Z
      end
  end.

(** The Number of a non-negative integer (array lengths, radix literals). *)
Definition of_N (n : N) : number := of_decimal false n 0%Z.

(** 0.0321507, the default gram-to-ounce factor, and 1000. *)
Definition default_factor : number := Eval vm_compute in of_decimal false 321507%N (-7)%Z.
Definition thousand : number := Eval vm_compute in of_N 1000%N.

End Num.

Abbreviation number := Num.number.

(* ================================================================== *)
(** ** Strings *)

Module Str.

Definition dquote : ascii := "034"%char.
Definition backslash : ascii := "092"%char.

Definition str1 (c : ascii) : string := String c EmptyString.

(** White space removed by [String.prototype.trim] (ASCII part):
    TAB, LF, VT, FF, CR and SPACE. *)
Definition is_space (c : ascii) : bool :=
  let n := nat_of_ascii c in
  ((9 <=? n) && (n <=? 13)) || (n =? 32).

Fixpoint trimStart (s : string) : string :=
  match s with
  | String c r => if is_space c then trimStart r else s
  | EmptyString => EmptyString
  end.

(** [trimEnd]: a character is kept when something that is not white
    space follows it or it is not white space itself. *)
Fixpoint trimEnd (s : string) : string :=
  match s with
  | String c r =>
      match trimEnd r with
      | EmptyString => if is_space c then EmptyString else str1 c
      | r' => String c r'
      end
  | EmptyString => EmptyString
  end.

Definition trim (s : string) : string := trimEnd (trimStart s).

(** Letter case.  On a string of ASCII characters [toLowerCase] and
    [toUpperCase] below are the methods of [String.prototype]; other
    bytes are left as they are, which is not what the methods do with a
    cased letter outside ASCII. *)
Definition is_ascii (c : ascii) : bool := nat_of_ascii c <? 128.

Definition lower (c : ascii) : ascii :=
  let n := nat_of_ascii c in
  if (65 <=? n) && (n <=? 90) then ascii_of_nat (n + 32) else c.

Definition upper (c : ascii) : ascii :=
  let n := nat_of_ascii c in
  if (97 <=? n) && (n <=? 122) then ascii_of_nat (n - 32) else c.

Fixpoint map (f : ascii -> ascii) (s : string) : string :=
  match s with
  | String c r => String (f c) (map f r)
  | EmptyString => EmptyString
  end.

Definition toLowerCase : string -> string := map lower.
Definition toUpperCase : string -> string := map upper.

(** [s.startsWith(p)] *)
Fixpoint startsWith (s p : string) : bool :=
  match p, s with
  | EmptyString, _ => true
  | String a p', String b s' => Ascii.eqb a b && startsWith s' p'
  | String _ _, EmptyString => false
  end.

(** [s.includes(sub)] *)
Fixpoint includes (s sub : string) : bool :=
  if startsWith s sub then true
  else match s with
       | String _ r => includes r sub
       | EmptyString => false
       end.

(** [s.endsWith(suf)] *)
Fixpoint endsWith (s suf : string) : bool :=
  if String.eqb s suf then true
  else match s with
       | String _ r => endsWith r suf
       | EmptyString => false
       end.

(** [s.split('.').pop()]: what follows the last dot of [s] ([s] itself
    when it has none); [seg] is the segment read so far. *)
Fixpoint last_segment (seg s : string) : string :=
  match s with
  | String c r =>
      if Ascii.eqb c "." then last_segment EmptyString r
      else last_segment (seg ++ str1 c)%string r
  | EmptyString => seg
  end.

Definition split_dot_pop (s : string) : string := last_segment EmptyString s.

Definition digit_char (d : nat) : ascii := ascii_of_nat (48 + d).

(** Decimal numeral of a natural number, as in a template literal. *)
Fixpoint of_nat_aux (fuel n : nat) (acc : string) : string :=
  match fuel with
  | O => acc
  | S f =>
      let acc' := String (digit_char (n mod 10)) acc in
      if n <? 10 then acc' else of_nat_aux f (n / 10) acc'
  end.

Definition of_nat (n : nat) : string := of_nat_aux (S n) n EmptyString.

Definition is_digit (c : ascii) : bool :=
  let n := nat_of_ascii c in (48 <=? n) && (n <=? 57).

Definition digit_val (c : ascii) : N := N.of_nat (nat_of_ascii c - 48).

(** The longest prefix of decimal digits, and the rest. *)
Fixpoint span_digits (s : string) : string * string :=
  match s with
  | String c r =>
      if is_digit c then let (d, r') := span_digits r in (String c d, r')
      else (EmptyString, s)
  | EmptyString => (EmptyString, EmptyString)
  end.

(** Value of a string of digits in the given radix. *)
Fixpoint digits_value (radix acc : N) (val : ascii -> N) (s : string) : N :=
  match s with
  | String c r => digits_value radix (acc * radix + val c)%N val r
  | EmptyString => acc
  end.

Definition decimal_value (s : string) : N := digits_value 10%N 0%N digit_val s.

Fixpoint forallb (p : ascii -> bool) (s : string) : bool :=
  match s with
  | String c r => p c && forallb p r
  | EmptyString => true
  end.

End Str.

(* ================================================================== *)
(** ** StringToNumber: what [Number(s)] computes on a string *)

Module ToNum.
Import Str.

Definition is_exp_char (c : ascii) : bool := Ascii.eqb c "e" || Ascii.eqb c "E".

(** An optional sign followed by the decimal digits that remain. *)
Definition signed_digits (s : string) : bool * string :=
  match s with
  | String c r =>
      if Ascii.eqb c "-" then (true, r)
      else if Ascii.eqb c "+" then (false, r)
      else (false, s)
  | EmptyString => (false, s)
  end.

Definition signed_value (neg : bool) (d : string) : Z :=
  let v := Z.of_N (decimal_value d) in if neg then Z.opp v else v.

(** ExponentPart, optional, up to the end of the string. *)
Definition exponent_to_end (s : string) : option Z :=
  match s with
  | EmptyString => Some 0%Z
  | String c r =>
      if is_exp_char c then
        let (neg, r1) := signed_digits r in
        let (d, r2) := span_digits r1 in
        match d, r2 with
        | String _ _, EmptyString => Some (signed_value neg d)
        | _, _ => None
        end
      else None
  end.

(** StrUnsignedDecimalLiteral *)
Definition unsigned_decimal (sign : bool) (s : string) : number :=
  if String.eqb s "Infinity" then S754_infinity sign
  else
    let (ip, r1) := span_digits s in
    let (fp, r2) :=
      match r1 with
      | String c r => if Ascii.eqb c "." then span_digits r else (EmptyString, r1)
      | EmptyString => (EmptyString, r1)
      end in
    match (ip ++ fp)%string with
    | EmptyString => Num.NaN
    | ds =>
        match exponent_to_end r2 with
        | Some ex =>
            Num.of_decimal sign (decimal_value ds) (ex - Z.of_nat (String.length fp))
        | None => Num.NaN
        end
    end.

Definition hex_val (c : ascii) : N :=
  let n := nat_of_ascii c in
  if is_digit c then N.of_nat (n - 48)
  else if (97 <=? n) && (n <=? 102) then N.of_nat (n - 87)
  else N.of_nat (n - 55).

Definition is_hex (c : ascii) : bool :=
  let n := nat_of_ascii c in
  is_digit c || ((97 <=? n) && (n <=? 102)) || ((65 <=? n) && (n <=? 70)).

Definition is_octal (c : ascii) : bool :=
  let n := nat_of_ascii c in (48 <=? n) && (n <=? 55).

Definition is_binary (c : ascii) : bool :=
  Ascii.eqb c "0" || Ascii.eqb c "1".

(** NonDecimalIntegerLiteral: [0x..], [0o..], [0b..] with at least one
    digit; [None] when [s] is not of that form. *)
Definition non_decimal (s : string) : option number :=
  match s with
  | String z (String c (String d ds)) =>
      let body := String d ds in
      let lit (radix : N) (ok : ascii -> bool) :=
        if Str.forallb ok body
        then Some (Num.of_N (digits_value radix 0%N hex_val body))
        else None in
      if negb (Ascii.eqb z "0") then None
      else if Ascii.eqb c "x" || Ascii.eqb c "X" then lit 16%N is_hex
      else if Ascii.eqb c "o" || Ascii.eqb c "O" then lit 8%N is_octal
      else if Ascii.eqb c "b" || Ascii.eqb c "B" then lit 2%N is_binary
      else None
  | _ => None
  end.

(** [Number(s)]: white space is stripped, the empty string is [+0], a
    string that is not a numeric literal is [NaN]. *)
Definition StringToNumber (s : string) : number :=
  match trim s with
  | EmptyString => Num.pos_zero
  | String c r as t =>
      match non_decimal t with
      | Some n => n
      | None =>
          if Ascii.eqb c "-" then unsigned_decimal true r
          else if Ascii.eqb c "+" then unsigned_decimal false r
          else unsigned_decimal false t
      end
  end.

End ToNum.

(* ================================================================== *)
(** ** JSON values *)

#[local] Unset Elimination Schemes.
Inductive json : Type :=
| JNull
| JBool (b : bool)
| JNumber (n : number)
| JString (s : string)
| JArray (items : list json)
| JObject (props : list (string * json)).
#[local] Set Elimination Schemes.

(** Objects: own properties in enumeration order.  Array indices come
    first, in ascending order; the other keys follow in the order they
    were created. *)
Module Obj.
Import Str.

Definition t := list (string * json).

(** A canonical numeric string below 2^32 - 1. *)
Definition array_index (k : string) : option N :=
  match k with
  | EmptyString => None
  | String c r =>
      if Str.forallb is_digit k
         && (negb (Ascii.eqb c "0") || String.eqb r EmptyString)
         && (decimal_value k <=? 4294967294)%N
      then Some (decimal_value k) else None
  end.

(** [o[k]]; [None] is [undefined]. *)
Fixpoint get (k : string) (o : t) : option json :=
  match o with
  | (k', v) :: r => if String.eqb k' k then Some v else get k r
  | [] => None
  end.

Definition has (k : string) (o : t) : bool :=
  match get k o with Some _ => true | None => false end.

Fixpoint replace (k : string) (v : json) (o : t) : t :=
  match o with
  | (k', v') :: r =>
      if String.eqb k' k then (k, v) :: r else (k', v') :: replace k v r
  | [] => []
  end.

(** A new array index [i] goes before the first key that is not an
    array index or is a larger one. *)
Fixpoint insert_index (i : N) (k : string) (v : json) (o : t) : t :=
  match o with
  | (k', v') :: r =>
      match array_index k' with
      | Some j => if (j <? i)%N then (k', v') :: insert_index i k v r
                  else (k, v) :: o
      | None => (k, v) :: o
      end
  | [] => [(k, v)]
  end.

(** [o[k] = v] *)
Definition set (k : string) (v : json) (o : t) : t :=
  if has k o then replace k v o
  else match array_index k with
       | Some i => insert_index i k v o
       | None => o ++ [(k, v)]
       end.

(** [Object.keys(o)] *)
Definition keys (o : t) : list string := List.map fst o.

(** The object built by creating the given properties one after the
    other, as [JSON.parse] and [Object.assign] do. *)
Definition assign (target : t) (source : list (string * json)) : t :=
  fold_left (fun acc kv => set (fst kv) (snd kv) acc) source target.

End Obj.

(* ================================================================== *)
(** ** [JSON.parse] *)

Module Json.
Import Str.

(** JSON white space: SPACE, TAB, LF, CR. *)
Definition is_ws (c : ascii) : bool :=
  let n := nat_of_ascii c in
  (n =? 32) || (n =? 9) || (n =? 10) || (n =? 13).

Fixpoint skip_ws (s : string) : string :=
  match s with
  | String c r => if is_ws c then skip_ws r else s
  | EmptyString => EmptyString
  end.

(** The bytes (UTF-8) of the code unit written [\uXXXX]. *)
Definition utf8 (u : N) : string :=
  let byte (n : N) := str1 (ascii_of_N n) in
  if (u <? 128)%N then byte u
  else if (u <? 2048)%N
       then (byte (192 + u / 64) ++ byte (128 + u mod 64))%N%string
       else (byte (224 + u / 4096)%N ++ byte (128 + (u / 64) mod 64)%N
             ++ byte (128 + u mod 64)%N)%string.

Definition simple_escape (c : ascii) : option ascii :=
  if Ascii.eqb c dquote then Some dquote
  else if Ascii.eqb c backslash then Some backslash
  else if Ascii.eqb c "/" then Some "/"%char
  else if Ascii.eqb c "b" then Some "008"%char
  else if Ascii.eqb c "f" then Some "012"%char
  else if Ascii.eqb c "n" then Some "010"%char
  else if Ascii.eqb c "r" then Some "013"%char
  else if Ascii.eqb c "t" then Some "009"%char
  else None.

(** The characters of a string literal after its opening quote, up to
    the closing quote; the decoded string and what follows. *)
Fixpoint string_body (s : string) : option (string * string) :=
  match s with
  | EmptyString => None
  | String c r =>
      if Ascii.eqb c dquote then Some (EmptyString, r)
      else if Ascii.eqb c backslash then
        match r with
        | String e r1 =>
            if Ascii.eqb e "u" then
              match r1 with
              | String h1 (String h2 (String h3 (String h4 r2))) =>
                  let hs := String h1 (String h2 (String h3 (str1 h4))) in
                  if Str.forallb ToNum.is_hex hs then
                    match string_body r2 with
                    | Some (str, rest) =>
                        Some ((utf8 (digits_value 16%N 0%N ToNum.hex_val hs) ++ str)%string, rest)
                    | None => None
                    end
                  else None
              | _ => None
              end
            else
              match simple_escape e with
              | Some ch =>
                  match string_body r1 with
                  | Some (str, rest) => Some (String ch str, rest)
                  | None => None
                  end
              | None => None
              end
        | EmptyString => None
        end
      else if nat_of_ascii c <? 32 then None
      else
        match string_body r with
        | Some (str, rest) => Some (String c str, rest)
        | None => None
        end
  end.

(** A JSON number: [-? int frac? exp?]; the value and what follows. *)
Definition number_literal (s : string) : option (number * string) :=
  let (neg, s1) :=
    match s with
    | String c r => if Ascii.eqb c "-" then (true, r) else (false, s)
    | EmptyString => (false, s)
    end in
  let (ip, r1) := span_digits s1 in
  match ip with
  | EmptyString => None
  | String d ds =>
      if Ascii.eqb d "0" && negb (String.eqb ds EmptyString) then None
      else
        let frac :=
          match r1 with
          | String c r =>
              if Ascii.eqb c "." then
                match span_digits r with
                | (EmptyString, _) => None
                | (fp, r2) => Some (fp, r2)
                end
              else Some (EmptyString, r1)
          | EmptyString => Some (EmptyString, r1)
          end in
        match frac with
        | None => None
        | Some (fp, r2) =>
            let expo :=
              match r2 with
              | String c r =>
                  if ToNum.is_exp_char c then
                    let (eneg, r3) := ToNum.signed_digits r in
                    match span_digits r3 with
                    | (EmptyString, _) => None
                    | (ed, r4) => Some (ToNum.signed_value eneg ed, r4)
                    end
                  else Some (0%Z, r2)
              | EmptyString => Some (0%Z, r2)
              end in
            match expo with
            | None => None
            | Some (ex, rest) =>
                Some (Num.of_decimal neg (decimal_value (ip ++ fp)%string)
                        (ex - Z.of_nat (String.length fp)), rest)
            end
        end
  end.

(** [s] without the prefix [p], when it starts with it. *)
Fixpoint strip_prefix (p s : string) : option string :=
  match p, s with
  | EmptyString, _ => Some s
  | String a p', String b s' => if Ascii.eqb a b then strip_prefix p' s' else None
  | String _ _, EmptyString => None
  end.

Definition literal (s : string) : option (json * string) :=
  match strip_prefix "true" s with
  | Some r => Some (JBool true, r)
  | None =>
      match strip_prefix "false" s with
      | Some r => Some (JBool false, r)
      | None =>
          match strip_prefix "null" s with
          | Some r => Some (JNull, r)
          | None => None
          end
      end
  end.

(** Recursive descent.  [value] reads one value at the head of [s];
    [elements] reads [v , v , ... ]] and [members] reads
    ["k" : v , ... }], both after the opening bracket and white space.
    The fuel bounds the number of nested calls. *)
Fixpoint value (fuel : nat) (s : string) : option (json * string) :=
  match fuel with
  | O => None
  | S f =>
      match s with
      | EmptyString => None
      | String c r =>
          if Ascii.eqb c "[" then
            match skip_ws r with
            | EmptyString => None
            | String c' r' as body =>
                if Ascii.eqb c' "]" then Some (JArray [], r')
                else match elements f body with
                     | Some (l, rest) => Some (JArray l, rest)
                     | None => None
                     end
            end
          else if Ascii.eqb c "{" then
            match skip_ws r with
            | EmptyString => None
            | String c' r' as body =>
                if Ascii.eqb c' "}" then Some (JObject [], r')
                else match members f body with
                     | Some (ms, rest) => Some (JObject (Obj.assign [] ms), rest)
                     | None => None
                     end
            end
          else if Ascii.eqb c dquote then
            match string_body r with
            | Some (str, rest) => Some (JString str, rest)
            | None => None
            end
          else if Ascii.eqb c "-" || is_digit c then
            match number_literal s with
            | Some (n, rest) => Some (JNumber n, rest)
            | None => None
            end
          else literal s
      end
  end
with elements (fuel : nat) (s : string) : option (list json * string) :=
  match fuel with
  | O => None
  | S f =>
      match value f s with
      | Some (v, r) =>
          match skip_ws r with
          | String c r' =>
              if Ascii.eqb c "," then
                match elements f (skip_ws r') with
                | Some (l, rest) => Some (v :: l, rest)
                | None => None
                end
              else if Ascii.eqb c "]" then Some ([v], r')
              else None
          | EmptyString => None
          end
      | None => None
      end
  end
with members (fuel : nat) (s : string) : option (list (string * json) * string) :=
  match fuel with
  | O => None
  | S f =>
      match s with
      | String q r =>
          if Ascii.eqb q dquote then
            match string_body r with
            | Some (k, r1) =>
                match skip_ws r1 with
                | String c r2 =>
                    if Ascii.eqb c ":" then
                      match value f (skip_ws r2) with
                      | Some (v, r3) =>
                          match skip_ws r3 with
                          | String c' r4 =>
                              if Ascii.eqb c' "," then
                                match members f (skip_ws r4) with
                                | Some (ms, rest) => Some ((k, v) :: ms, rest)
                                | None => None
                                end
                              else if Ascii.eqb c' "}" then Some ([(k, v)], r4)
                              else None
                          | EmptyString => None
                          end
                      | None => None
                      end
                    else None
                | EmptyString => None
                end
            | None => None
            end
          else None
      | EmptyString => None
      end
  end.

(** [JSON.parse(s)]; [None] when it throws a SyntaxError. *)
Definition parse (s : string) : option json :=
  match value (2 * String.length s + 2) (skip_ws s) with
  | Some (v, rest) =>
      match skip_ws rest with
      | EmptyString => Some v
      | String _ _ => None
      end
  | None => None
  end.

End Json.

(* ================================================================== *)
(** ** Values at run time: truthiness, property access, ToNumber *)

Module Js.

(** ToBoolean *)
Definition truthy (v : json) : bool :=
  match v with
  | JNull => false
  | JBool b => b
  | JNumber n => Num.truthy n
  | JString s => negb (String.eqb s EmptyString)
  | JArray _ | JObject _ => true
  end.

(** [typeof v === 'object'] for a value that is not [null]. *)
Definition is_object (v : json) : bool :=
  match v with JArray _ | JObject _ => true | _ => false end.

Fixpoint indexed {A : Type} (i : nat) (l : list A) : list (string * A) :=
  match l with
  | x :: r => (Str.of_nat i, x) :: indexed (S i) r
  | [] => []
  end.

Fixpoint chars (s : string) : list json :=
  match s with
  | String c r => JString (Str.str1 c) :: chars r
  | EmptyString => []
  end.

(** The own enumerable properties of a value, in enumeration order. *)
Definition own_props (v : json) : list (string * json) :=
  match v with
  | JObject o => o
  | JArray l => indexed 0 l
  | JString s => indexed 0 (chars s)
  | _ => []
  end.

(** [Object.keys(v)] *)
Definition Object_keys (v : json) : list string := List.map fst (own_props v).

(** The own property [k] of an object; [None] is [undefined].  This is
    [v[k]] for a key that is neither an index nor [length] nor a name
    that [Object.prototype] defines, on a value whose prototype is the
    one it was created with: the handler reads [data],
    [gram_to_ounce_formula], [gram_to_ounce] and the two [gmt_..._updated]
    keys. *)
Definition prop (k : string) (v : json) : option json :=
  match v with
  | JObject o => Obj.get k o
  | _ => None
  end.

(** [a ?? b], where [b] is never nullish. *)
Definition nullish_or (a : option json) (b : json) : json :=
  match a with
  | None | Some JNull => b
  | Some v => v
  end.

(** [a || null] *)
Definition or_null (a : option json) : json :=
  match a with
  | Some v => if truthy v then v else JNull
  | None => JNull
  end.

(** ToNumber.  An array is first turned into the string of its
    elements joined by commas: no element gives the empty string, one
    element gives the string of that element ([null] gives the empty
    one), and a string with a comma is not a numeric literal.  The
    string of a Number reads back as that Number, [-0] as [+0].  This is
    the result for a value whose conversion to a primitive returns, see
    [to_primitive_throws] below: the handler divides by the factor (line
    303) only after line 290 has converted the same value. *)
Fixpoint ToNumber (v : json) : number :=
  match v with
  | JNull => Num.pos_zero
  | JBool b => if b then Num.of_N 1 else Num.pos_zero
  | JNumber n => n
  | JString s => ToNum.StringToNumber s
  | JObject _ => Num.NaN
  | JArray [] => Num.pos_zero
  | JArray [x] =>
      match x with
      | JNull => Num.pos_zero
      | JNumber (S754_zero _) => Num.pos_zero
      | JNumber n => n
      | JString s => ToNum.StringToNumber s
      | JArray _ => ToNumber x
      | JBool _ | JObject _ => Num.NaN
      end
  | JArray (_ :: _ :: _) => Num.NaN
  end.

(** ToPrimitive, which ToString (a template literal) and ToNumber (a
    division) apply to an object, throws a TypeError when neither
    [toString] nor [valueOf] gives a primitive.  A property of a parsed
    object is never callable, so an own property named [toString] hides
    the method of [Object.prototype], and [valueOf], own or inherited,
    gives no primitive: the conversion throws.  Without that property the
    method returns a string.  The method of an array joins the strings of
    its elements, converting each one that is not [null]. *)
Fixpoint to_primitive_throws (v : json) : bool :=
  match v with
  | JObject o => Obj.has "toString" o
  | JArray l =>
      (fix any (l : list json) : bool :=
         match l with x :: r => to_primitive_throws x || any r | [] => false end) l
  | _ => false
  end.

End Js.

(* ================================================================== *)
(** ** The handler of [GET /api/rates] *)

(** A flattened leaf: [{ path, key, value }]. *)
Record entry := { path : string; key : string; value : json }.

(** server.js, lines 113-122. *)
Definition parseNumber (v : json) : option number :=
  match v with
  | JNumber n => if negb (Num.isNaN n) then Some n else None
  | JString v =>
      let s := Str.trim v in
      if String.eqb s EmptyString then None
      else
        let n := ToNum.StringToNumber s in
        if negb (Num.isNaN n) then Some n else None
  | _ => None
  end.

(** Size of a value: a bound on the nested calls of [helper]. *)
Fixpoint jsize (v : json) : nat :=
  match v with
  | JString s => S (String.length s)
  | JArray l =>
      S ((fix sum (l : list json) : nat :=
            match l with x :: r => jsize x + sum r | [] => 0 end) l)
  | JObject o =>
      S ((fix sum (o : list (string * json)) : nat :=
            match o with kv :: r => jsize (snd kv) + sum r | [] => 0 end) o)
  | _ => 1
  end.

Module Flatten.

(** Lines 128-139: the value encoded by a string that looks like JSON
    text and parses; [None] when [val] is handled as it is. *)
Definition decode (val : json) : option json :=
  match val with
  | JString v =>
      let s := Str.trim v in
      if Str.startsWith s "{" || Str.startsWith s "[" then Json.parse s else None
  | _ => None
  end.

(** [l.forEach((x, i) => f(x, i))] for an [f] that updates [out]. *)
Fixpoint forEach {A : Type} (f : A -> nat -> list entry -> option (list entry))
    (i : nat) (l : list A) (out : list entry) : option (list entry) :=
  match l with
  | [] => Some out
  | x :: r =>
      match f x i out with
      | Some out' => forEach f (S i) r out'
      | None => None
      end
  end.

Definition leaf (val : json) (path : string) : entry :=
  {| path := path;
     key := match path with
            | EmptyString => EmptyString
            | _ => Str.split_dot_pop path
            end;
     value := val |}.

Definition index_path (path : string) (i : nat) : string :=
  (path ++ "[" ++ Str.of_nat i ++ "]")%string.

Definition child_path (path k : string) : string :=
  match path with
  | EmptyString => k
  | _ => (path ++ "." ++ k)%string
  end.

(** Lines 126-150.  [out] is the array the leaves are pushed to; the
    result is [None] only when the fuel runs out. *)
Fixpoint helper (fuel : nat) (val : json) (path : string) (out : list entry)
  : option (list entry) :=
  match fuel with
  | O => None
  | S f =>
      match decode val with
      | Some parsed => helper f parsed path out
      | None =>
          match val with
          | JArray items =>
              forEach (fun item i => helper f item (index_path path i)) 0 items out
          | JObject props =>
              forEach (fun k _ out =>
                         match Obj.get k props with
                         | Some v => helper f v (child_path path k) out
                         | None => Some out
                         end) 0 (Obj.keys props) out
          | _ => Some (out ++ [leaf val path])
          end
      end
  end.

(** Lines 124-153, with the default [prefix = '']. *)
Definition flatten (obj : json) : list entry :=
  match helper (jsize obj) obj EmptyString [] with
  | Some out => out
  | None => []
  end.

End Flatten.

Abbreviation flatten := Flatten.flatten.

(** The per-gram prices found so far; [None] is [null]. *)
Record prices := { goldPerGram : option number; silverPerGram : option number }.

(** An entry with its parsed value: [{...e, num: parseNumber(e.value)}]. *)
Record candidate := { source : entry; num : number }.

(** [Array.prototype.sort(comparefn)]: the sort is stable; [x] goes after
    [y] when [comparefn(x, y) > 0] and stays before it otherwise (a [NaN]
    result counts as [0]). *)
Module ArraySort.
Section Sort.
Context {A : Type} (comparefn : A -> A -> number).

Fixpoint insert (x : A) (l : list A) : list A :=
  match l with
  | [] => [x]
  | y :: r => if Num.gt0 (comparefn x y) then y :: insert x r else x :: l
  end.

Definition sort (l : list A) : list A := fold_right insert [] l.
End Sort.
End ArraySort.

Section Extractor.

Variable entries : list entry.
Variable currency : string.

(** Line 159 *)
Definition lc (s : string) : string := Str.toLowerCase s.

(** Lines 161-166 *)
Definition pickByKeyIncludes (substrings : list string) : option entry :=
  find (fun e =>
          let key := lc (key e) in
          forallb (fun sub => Str.includes key sub) substrings) entries.

(** [if (found) { const n = parseNumber(found.value);
                  if (n != null) field = n; }] *)
Definition assign_found (found : option entry) (field : option number)
  : option number :=
  match found with
  | Some e =>
      match parseNumber (value e) with
      | Some n => Some n
      | None => field
      end
  | None => field
  end.

(** [if (field == null) { ...find...; assign }] *)
Definition when_null (field : option number) (found : option entry)
  : option number :=
  match field with
  | None => assign_found found None
  | Some _ => field
  end.

(** Lines 173-183 *)
Definition step1 : prices :=
  let g1 := pickByKeyIncludes ["gold"; "gram"] in
  let s1 := pickByKeyIncludes ["silver"; "gram"] in
  {| goldPerGram := assign_found g1 None;
     silverPerGram := assign_found s1 None |}.

(** [e => lc(e.key) === key || lc(e.path).endsWith(`.${key}`)] *)
Definition key_or_path_end (k : string) (e : entry) : bool :=
  String.eqb (lc (key e)) k || Str.endsWith (lc (path e)) ("." ++ k)%string.

(** Lines 185-201 *)
Definition step2 (p : prices) : prices :=
  {| goldPerGram :=
       when_null (goldPerGram p)
         (find (key_or_path_end ("gram_in_" ++ currency)%string) entries);
     silverPerGram :=
       when_null (silverPerGram p)
         (find (key_or_path_end ("silver_gram_in_" ++ currency)%string) entries) |}.

Definition gold_step3_key (e : entry) : bool :=
  String.eqb (lc (key e)) "gram" || Str.includes (lc (key e)) "gram_in".

Definition silver_step3_key (e : entry) : bool :=
  String.eqb (lc (key e)) "silver" || Str.includes (lc (key e)) "silver_gram".

(** Lines 203-217 *)
Definition step3 (p : prices) : prices :=
  {| goldPerGram := when_null (goldPerGram p) (find gold_step3_key entries);
     silverPerGram := when_null (silverPerGram p) (find silver_step3_key entries) |}.

Definition mentions (ticker : string) (e : entry) : bool :=
  Str.includes (lc (key e)) ticker || Str.includes (lc (path e)) ticker.

(** Lines 219-233 *)
Definition step4 (p : prices) : prices :=
  {| goldPerGram := when_null (goldPerGram p) (find (mentions "xau") entries);
     silverPerGram := when_null (silverPerGram p) (find (mentions "xag") entries) |}.

Definition is_null (field : option number) : bool :=
  match field with None => true | Some _ => false end.

Definition parses (e : entry) : bool := negb (is_null (parseNumber (value e))).

(** [currency === 'usd' || !lc(e.key).includes('usd')] *)
Definition currency_allows (e : entry) : bool :=
  String.eqb currency "usd" || negb (Str.includes (lc (key e)) "usd").

(** [.map(e => ({...e, num: parseNumber(e.value)}))] *)
Definition with_num (e : entry) : candidate :=
  {| source := e;
     num := match parseNumber (value e) with Some n => n | None => Num.NaN end |}.

(** [(a, b) => b.num - a.num] *)
Definition by_num_desc (a b : candidate) : number := Num.sub (num b) (num a).

Definition ranked (keep : entry -> bool) : list candidate :=
  ArraySort.sort by_num_desc (List.map with_num (filter keep entries)).

(** [if (l.length >= 1 && gold == null) gold = l[0].num;
     if (l.length >= 2 && silver == null) silver = l[1].num;] *)
Definition take_top_two (l : list candidate) (p : prices) : prices :=
  {| goldPerGram :=
       match goldPerGram p, l with
       | None, c0 :: _ => Some (num c0)
       | g, _ => g
       end;
     silverPerGram :=
       match silverPerGram p, l with
       | None, _ :: c1 :: _ => Some (num c1)
       | s, _ => s
       end |}.

Definition gram_key (e : entry) : bool :=
  Str.includes (lc (key e)) "gram" && parses e && currency_allows e.

Definition gramCandidates : list candidate := ranked gram_key.

(** Lines 235-243 *)
Definition step5 (p : prices) : prices :=
  if is_null (goldPerGram p) || is_null (silverPerGram p)
  then take_top_two gramCandidates p
  else p.

Definition numeric_key (e : entry) : bool :=
  parses e
  && negb (Str.includes (lc (key e)) "gmt")
  && negb (Str.includes (lc (key e)) "updated")
  && negb (Str.includes (lc (key e)) "time")
  && currency_allows e.

Definition numericEntries : list candidate := ranked numeric_key.

(** Lines 245-253 *)
Definition step6 (p : prices) : prices :=
  if is_null (goldPerGram p) || is_null (silverPerGram p)
  then take_top_two numericEntries p
  else p.

(** The prices after the six heuristics, before the per-ounce rule. *)
Definition heuristics : prices := step6 (step5 (step4 (step3 (step2 step1)))).

(** Lines 255-260: [gramToOunce] as found among the entries. *)
Definition gto : option entry :=
  find (fun e => Str.includes (lc (key e)) "gram_to_ounce"
                 || Str.includes (lc (key e)) "gram_to_ounce_formula") entries.

Definition gramToOunce : option number := assign_found gto None.

(** Line 263 *)
Definition findKey (k : string) : option entry := find (key_or_path_end k) entries.

(** [a || b] on the results of [find]. *)
Definition or_else (a b : option entry) : option entry :=
  match a with Some _ => a | None => b end.

Definition ounce_key (metal : string) (e : entry) : bool :=
  Str.includes (lc (key e)) metal && Str.includes (lc (key e)) currency.

(** Lines 267-268 *)
Definition sOunce : option entry :=
  or_else (findKey ("silver_ounce_in_" ++ currency)%string)
          (find (ounce_key "silver_ounce") entries).

(** Lines 271-272 *)
Definition gOunce : option entry :=
  or_else (findKey ("ounce_in_" ++ currency)%string)
          (find (ounce_key "ounce") entries).

(** [(o && parseNumber(o.value) != null && gramToOunce)
      ? parseNumber(o.value) * gramToOunce : null] *)
Definition from_ounce (o : option entry) : option number :=
  match o with
  | Some e =>
      match parseNumber (value e), gramToOunce with
      | Some n, Some f => if Num.truthy f then Some (Num.mul n f) else None
      | _, _ => None
      end
  | None => None
  end.

Definition silverFromOunce : option number := from_ounce sOunce.
Definition goldFromOunce : option number := from_ounce gOunce.

(** Lines 275-283 *)
Definition prefer_ounce (p : prices) : prices :=
  if negb (String.eqb currency "usd") then
    {| goldPerGram :=
         match goldFromOunce with Some n => Some n | None => goldPerGram p end;
       silverPerGram :=
         match silverFromOunce with Some n => Some n | None => silverPerGram p end |}
  else
    {| goldPerGram :=
         match goldPerGram p with None => goldFromOunce | g => g end;
       silverPerGram :=
         match silverPerGram p with None => silverFromOunce | s => s end |}.

(** The prices that reach the test of line 292. *)
Definition extracted : prices := prefer_ounce heuristics.

End Extractor.

(** [{ perGram, perOunce, perKg }] *)
Record rates := { perGram : number; perOunce : number; perKg : number }.

(** The body of a 200 response. *)
Record canonical := {
  currency_code : string;
  gold : rates;
  silver : rates;
  meta_source : string;
  meta_updated : json
}.

Inductive response : Type :=
| InvalidJson                         (* 502, line 84 *)
| ExtractionError (keys : list string) (* 502, lines 294-297 *)
| InternalError                       (* 500, line 332 *)
| Success (body : canonical).         (* 200, lines 313-329 *)

Definition status (r : response) : nat :=
  match r with
  | InvalidJson | ExtractionError _ => 502
  | InternalError => 500
  | Success _ => 200
  end.

Module Handler.

(** Lines 87-91 *)
Definition unwrap (data : json) : json :=
  match Js.prop "data" data with
  | Some d => if Js.truthy d && Js.is_object d then d else data
  | None => data
  end.

(** The reducer of lines 96-103, for an element that has no property
    named [__proto__] (see [keeps_prototype] below). *)
Definition merge_item (acc : Obj.t) (item : json) (idx : nat) : Obj.t :=
  if Js.truthy item && Js.is_object item
  then Obj.assign acc (Js.own_props item)
  else Obj.set (Str.of_nat idx) item acc.

Fixpoint reduce (acc : Obj.t) (idx : nat) (items : list json) : Obj.t :=
  match items with
  | item :: r => reduce (merge_item acc item idx) (S idx) r
  | [] => acc
  end.

(** Lines 93-107.  [None]: line 105 throws, as [JSON.stringify(data[0])]
    is [undefined] for an empty array. *)
Definition merge (data : json) : option json :=
  match data with
  | JArray [] => None
  | JArray items => Some (JObject (reduce [] 0 items))
  | _ => Some data
  end.

(** No element of an array body is an object with a property named
    [__proto__].  Line 98 would assign such a property to [acc] through
    the setter of [Object.prototype]: it changes the prototype of [acc]
    and creates no property, and the later reads of [data] would see the
    properties of the new prototype.  The model of the merge is the code
    for the bodies that pass this test. *)
Definition keeps_prototype (data : json) : bool :=
  match data with
  | JArray items =>
      forallb (fun item =>
                 match item with
                 | JObject o => negb (Obj.has "__proto__" o)
                 | _ => true
                 end) items
  | _ => true
  end.

(** Line 288: the factor that divides, a value of the payload when the
    entries gave none. *)
Definition final_factor (data : json) (found : option number) : json :=
  match found with
  | Some f => JNumber f
  | None =>
      Js.nullish_or (Js.prop "gram_to_ounce_formula" data)
        (Js.nullish_or (Js.prop "gram_to_ounce" data)
           (JNumber Num.default_factor))
  end.

(** Lines 303-307 *)
Definition convert (perGram : number) (factor : json) : rates :=
  {| perGram := perGram;
     perOunce := Num.div perGram (Js.ToNumber factor);
     perKg := Num.mul perGram Num.thousand |}.

(** Lines 310-311 and 327 *)
Definition updated (currency : string) (data : json) : json :=
  let updatedUsd := Js.or_null (Js.prop "gmt_ounce_price_usd_updated" data) in
  let updatedFx := Js.or_null (Js.prop ("gmt_" ++ currency ++ "_updated")%string data) in
  if Js.truthy updatedFx then updatedFx else updatedUsd.

(** Lines 155-329, for the payload [data] that reaches line 109.  The
    template literal of line 290 converts the factor of line 288 to a
    string before the test of line 292: when that throws, the [catch] of
    line 330 answers 500. *)
Definition respond (currency : string) (data : json) : response :=
  let entries := flatten data in
  let p := extracted entries currency in
  let factor := final_factor data (gramToOunce entries) in
  if Js.to_primitive_throws factor then InternalError
  else
    match goldPerGram p, silverPerGram p with
    | Some g, Some s =>
        Success {| currency_code := Str.toUpperCase currency;
                   gold := convert g factor;
                   silver := convert s factor;
                   meta_source := "GoldPriceZ.com";
                   meta_updated := updated currency data |}
    | _, _ => ExtractionError (firstn 50 (Js.Object_keys data))
    end.

(** Lines 83-334, for the body [data] the provider answered. *)
Definition rates_handler (currency : string) (data : json) : response :=
  if negb (Js.truthy data) then InvalidJson
  else match merge (unwrap data) with
       | Some payload => respond currency payload
       | None => InternalError
       end.

(** Line 36 *)
Definition requested_currency (query : option string) : string :=
  Str.toLowerCase
    (match query with
     | Some (String _ _ as c) => c
     | _ => "usd"
     end).

End Handler.

(* ================================================================== *)
(** ** The route, from the request to the answer *)




Module Route.


(** [response.ok] *)
Definition ok (code : nat) : bool := (200 <=? code) && (code <=? 299).




End Route.

(* ================================================================== *)
(** ** Definitions used to state the properties *)

(** Numbers written in decimal, for the examples: [dec m e] is the
    Number nearest to [m * 10^e]. *)
Definition dec (m : N) (e : Z) : number := Num.of_decimal false m e.

(** A JSON number that is a non-negative integer. *)
Definition int (m : N) : json := JNumber (Num.of_N m).

(** The flat entry of a top-level property [k]. *)
Definition entry_of (k : string) (v : json) : entry := {| path := k; key := k; value := v |}.

(** [e] is the first of [entries] that satisfies [f]: what
    [entries.find(f)] returns. *)
Definition first_such (f : entry -> bool) (entries : list entry) (e : entry) : Prop :=
  exists l1 l2,
    entries = l1 ++ e :: l2 /\ (forall x, In x l1 -> f x = false) /\ f e = true.

(** The key test of [pickByKeyIncludes]. *)
Definition key_includes (substrings : list string) (e : entry) : bool :=
  forallb (fun sub => Str.includes (lc (key e)) sub) substrings.

(** Scenario A of the specification. *)
Definition scenarioA : json :=
  JObject [("gold_gram_in_usd", int 100); ("silver_gram_in_usd", JNumber (dec 12 (-1)))].

(** Scenario B of the specification: an array of fragments. *)
Definition scenarioB : json :=
  JArray [JObject [("gold_gram", int 90)]; JObject [("silver_gram", JNumber (dec 11 (-1)))]].

(** Scenario C of the specification. *)
Definition scenarioC : json :=
  JObject [("price_gram", JNumber (dec 105 (-2))); ("rate_gram", int 85)].

(** A payload with two gram candidates, a per-ounce gold price in INR and
    a factor. *)
Definition overridden_gram : json :=
  JObject [("x_gram", int 85); ("gram_to_ounce", JNumber (dec 105 (-2)));
           ("ounce_in_inr", int 100)].


(** A payload that resolves no price and whose top-level factor is an
    object with a property named [toString]. *)
Definition unprintable_factor : json :=
  JObject [("status", JString "ok");
           ("gram_to_ounce_formula", JObject [("toString", JString "x")])].

(** Scenario E of the specification: the factor is in the payload. *)
Definition scenarioE : list entry :=
  [entry_of "gram_to_ounce_formula" (JNumber Num.default_factor);
   entry_of "ounce_in_inr" (int 9000000);
   entry_of "silver_ounce_in_inr" (int 93000);
   entry_of "silver_gram_in_usd" (int 1)].

(** A payload whose first gold-gram key holds no number. *)
Definition shadowed_gold : json :=
  JObject [("gold_gram_unit", JString "n/a"); ("gold_gram", int 90);
           ("silver_gram", int 100)].

(** A payload with a single key, which contains [gram_in]. *)
Definition only_gram_in_inr : json := JObject [("gram_in_inr", int 7000)].

(** A payload with a per-ounce silver price and no conversion factor. *)
Definition ounce_without_factor : json :=
  JObject [("silver_ounce_in_inr", int 93000); ("gold_gram", int 7000);
           ("silver_gram", int 90)].

(** A payload in which another ounce key comes before the silver one. *)
Definition other_ounce_first : json :=
  JObject [("gram_to_ounce_formula", JNumber Num.default_factor);
           ("gold_ounce_inr", int 9000000);
           ("silver_ounce_in_inr", int 93000)].

(** Total size of the elements of an array and of the values of an
    object. *)
Definition items_size (l : list json) : nat := list_sum (List.map jsize l).

Definition props_size (o : list (string * json)) : nat :=
  list_sum (List.map (fun kv => jsize (snd kv)) o).

(** JSON text with single quotes standing for the double ones. *)
Definition json_text (s : string) : string :=
  Str.map (fun c => if Ascii.eqb c "'" then Str.dquote else c) s.

(** A payload that is a string encoding an object, a field of which is
    again a string encoding an array. *)
Definition twice_encoded : json :=
  JString (json_text " {'rates':'[{\'gold_gram\':90},{\'silver_gram\':\'1.1\'}]','n':[]}").

(** The flat entries as a payload: one object with one property for each
    entry. *)
Definition reconstruct (entries : list entry) : json :=
  JArray (List.map (fun e => JObject [(key e, value e)]) entries).

(** What [helper] pushes: a value that is neither an array nor an object
    nor a string that decodes. *)
Definition is_leaf (v : json) : bool :=
  match Flatten.decode v with
  | Some _ => false
  | None => negb (Js.is_object v)
  end.

Definition leaf_entries (l : list entry) : Prop :=
  Forall (fun e => is_leaf (value e) = true) l.

(** Numbers in their order: the sign class, then the exponent, then the
    mantissa. *)
Definition rank (x : number) : Z * Z * Z :=
  match x with
  | S754_zero _ | S754_nan => (0, 0, 0)%Z
  | S754_infinity s => ((if s then -2 else 2), 0, 0)%Z
  | S754_finite s m e => if s then (-1, - e, Zneg m)%Z else (1, e, Zpos m)%Z
  end.

(** Lexicographic comparison of ranks. *)
Definition lex (a b : Z * Z * Z) : comparison :=
  let '(a1, a2, a3) := a in
  let '(b1, b2, b3) := b in
  match (a1 ?= b1)%Z with
  | Eq => match (a2 ?= b2)%Z with Eq => (a3 ?= b3)%Z | c => c end
  | c => c
  end.

(** Every value that parses is a binary64 Number. *)
Definition valid_values (entries : list entry) : Prop :=
  forall e n, In e entries -> parseNumber (value e) = Some n -> Num.valid n = true.

(** [a] is numerically at least [b]. *)
Definition num_ge (a b : candidate) : Prop := SFleb (num b) (num a) = true.

(** A candidate the comparator of the sort orders consistently. *)
Definition ordered (c : candidate) : Prop :=
  Num.valid (num c) = true /\ Num.isNaN (num c) = false.

(** Every Number inside a value is a binary64 Number. *)
Fixpoint wf_numbers (v : json) : Prop :=
  match v with
  | JNumber n => Num.valid n = true
  | JArray l =>
      (fix all (l : list json) : Prop :=
         match l with x :: r => wf_numbers x /\ all r | [] => True end) l
  | JObject o =>
      (fix all (o : list (string * json)) : Prop :=
         match o with kv :: r => wf_numbers (snd kv) /\ all r | [] => True end) o
  | _ => True
  end.

(** The values of the properties of an object, and of flat entries. *)
Definition wf_props (o : list (string * json)) : Prop :=
  Forall (fun kv => wf_numbers (snd kv)) o.

Definition wf_entries (l : list entry) : Prop := Forall (fun e => wf_numbers (value e)) l.

(** The prices as step 5 finds them. *)
Definition after_step4 (entries : list entry) (currency : string) : prices :=
  step4 entries (step3 entries (step2 entries currency (step1 entries))).

(** The keys of every object inside a value are pairwise distinct, as
    they are in every value [JSON.parse] returns. *)
Fixpoint distinct_keys (v : json) : Prop :=
  match v with
  | JArray l =>
      (fix all (l : list json) : Prop :=
         match l with x :: r => distinct_keys x /\ all r | [] => True end) l
  | JObject o =>
      NoDup (Obj.keys o)
      /\ (fix all (o : list (string * json)) : Prop :=
            match o with kv :: r => distinct_keys (snd kv) /\ all r | [] => True end) o
  | _ => True
  end.

(** The own property [k] of the last of [items] that is an object with
    such a property. *)
Definition last_prop (k : string) (items : list json) : option json :=
  fold_left (fun found item =>
               match Js.prop k item with Some v => Some v | None => found end)
            items None.

(** Two entries that differ by the letter case of key and path only. *)
Definition same_modulo_case (e e' : entry) : Prop :=
  lc (key e) = lc (key e') /\ lc (path e) = lc (path e') /\ value e = value e'.

(** A payload whose conversion factor is infinite and whose per-ounce
    prices are zero. *)
Definition infinite_factor : json :=
  JObject [("gram_to_ounce", JNumber Num.infinity);
           ("ounce_in_inr", JNumber Num.pos_zero);
           ("silver_ounce_in_inr", JNumber Num.pos_zero)].

(** Neither price is [NaN]. *)
Definition no_NaN (p : prices) : Prop :=
  (forall n, goldPerGram p = Some n -> Num.isNaN n = false)
  /\ (forall n, silverPerGram p = Some n -> Num.isNaN n = false).

(** Two numeric values and nothing else. *)
Definition two_numbers : json := JObject [("low", int 3); ("high", int 7)].

(** A payload that only step 6 resolves: no key names a metal or a gram. *)
Definition plain_numbers : json :=
  JObject [("status", JString "ok"); ("low", int 3); ("high", int 7);
           ("updated_at", int 1700000000)].

(** The values of the properties of an object have distinct keys. *)
Definition distinct_props (o : list (string * json)) : Prop :=
  Forall (fun kv => distinct_keys (snd kv)) o.

(** The number of entries a value with the given property contributes. *)
Definition prop_size (o : Obj.t) (k : string) : nat :=
  match Obj.get k o with Some v => jsize v | None => 0 end.

(** A test on entries that does not see the letter case of key and path. *)
Definition case_blind (f : entry -> bool) : Prop :=
  forall e e', same_modulo_case e e' -> f e = f e'.

(** The entries of scenario A with other letter case. *)
Definition scenarioA_upper : list entry :=
  [ {| path := "Gold_Gram_In_USD"; key := "GOLD_GRAM_IN_USD"; value := int 100 |};
    {| path := "Silver_Gram_In_USD"; key := "SILVER_GRAM_IN_USD";
       value := JNumber (dec 12 (-1)) |} ].

(** An entry whose key is computed from its path, as line 148 does. *)
Definition keyed_by_path (e : entry) : Prop := e = Flatten.leaf (value e) (path e).

(* ================================================================== *)
(** * Properties *)

(* ------------------------------------------------------------------ *)
(** ** Checks of the library models *)

Example trim_example : Str.trim "  12 3 " = "12 3".
Proof. reflexivity. Qed.

Example split_pop_example : Str.split_dot_pop "a[0].b.gold_gram" = "gold_gram".
Proof. reflexivity. Qed.

Example of_nat_example : Str.of_nat 120 = "120".
Proof. reflexivity. Qed.

Example number_of_decimal_string :
  ToNum.StringToNumber "123.45" = S754_finite false 8687021468732621 (-46).
Proof. vm_compute. reflexivity. Qed.

Example number_of_hex_string : ToNum.StringToNumber " 0x1F " = Num.of_N 31.
Proof. vm_compute. reflexivity. Qed.

Example number_of_word : ToNum.StringToNumber "12px" = Num.NaN.
Proof. vm_compute. reflexivity. Qed.

Example number_of_huge : ToNum.StringToNumber "-1e999" = S754_infinity true.
Proof. vm_compute. reflexivity. Qed.

Example keys_order_example :
  Obj.keys (Obj.assign [] [("b", JNull); ("10", JNull); ("a", JNull);
                            ("2", JNull); ("b", JBool true); ("01", JNull)])
  = ["2"; "10"; "b"; "a"; "01"].
Proof. reflexivity. Qed.

(* ------------------------------------------------------------------ *)
(** ** The numeric parser *)

Lemma parseNumber_not_NaN (v : json) :
  match parseNumber v with
  | Some n => Num.isNaN n = false
  | None => True
  end.
Proof.
  destruct v as [ | b | n | s | l | o ]; simpl; trivial.
  - destruct (Num.isNaN n) eqn:E; simpl; trivial.
  - destruct (String.eqb (Str.trim s) EmptyString); trivial.
    destruct (Num.isNaN (ToNum.StringToNumber (Str.trim s))) eqn:E; simpl; trivial.
Qed.

Lemma parseNumber_Some_not_NaN (v : json) (n : number) :
  parseNumber v = Some n -> Num.isNaN n = false.
Proof.
  intros H. pose proof (parseNumber_not_NaN v) as P. now rewrite H in P.
Qed.

(** C6, as stated, fails: the guard of [parseNumber] is [!Number.isNaN],
    so an infinite Number passes, whether it comes as a native number
    (the JSON text [1e999] parses to [Infinity]) or as a string. *)
Lemma parseNumber_returns_Infinity :
  Json.parse "[1e999]" = Some (JArray [JNumber Num.infinity])
  /\ parseNumber (JNumber Num.infinity) = Some Num.infinity
  /\ parseNumber (JString "Infinity") = Some Num.infinity
  /\ parseNumber (JString " -1e999 ") = Some (S754_infinity true)
  /\ Num.isFinite Num.infinity = false.
Proof. vm_compute. repeat split. Qed.

(** C6 (amended): [parseNumber] is a total function that returns a Number
    that is not [NaN], possibly infinite, or nothing.  A native number
    that is not [NaN] is returned unchanged; a string is trimmed and gives
    nothing when empty, and otherwise the Number it converts to unless
    that is [NaN]; booleans, [null], arrays, objects and [NaN] give nothing.
    ["123.45"] gives 123.45, [""] nothing, [true] nothing and 42 gives 42. *)
Theorem parseNumber_total_spec :
  (forall v, match parseNumber v with
             | Some n => Num.isNaN n = false
             | None => True
             end)
  /\ (forall n, parseNumber (JNumber n) = if Num.isNaN n then None else Some n)
  /\ (forall s, parseNumber (JString s) =
                match Str.trim s with
                | EmptyString => None
                | t => let n := ToNum.StringToNumber t in
                       if Num.isNaN n then None else Some n
                end)
  /\ (forall b, parseNumber (JBool b) = None)
  /\ parseNumber JNull = None
  /\ (forall l, parseNumber (JArray l) = None)
  /\ (forall o, parseNumber (JObject o) = None)
  /\ parseNumber (JString "123.45") = Some (dec 12345 (-2))
  /\ parseNumber (JString "") = None
  /\ parseNumber (JBool true) = None
  /\ parseNumber (int 42) = Some (Num.of_N 42).
Proof.
  split; [exact parseNumber_not_NaN|].
  split; [intros n; simpl; now destruct (Num.isNaN n)|].
  split.
  { intros s. simpl. destruct (Str.trim s) as [|c t] eqn:E; [reflexivity|].
    simpl. now destruct (Num.isNaN (ToNum.StringToNumber (String c t))). }
  repeat split.
Qed.

(* ------------------------------------------------------------------ *)
(** ** The response: failure and unit conversion *)

(** When line 290 throws, the answer is 500. *)
Lemma respond_throws (currency : string) (payload : json) :
  Js.to_primitive_throws
    (Handler.final_factor payload (gramToOunce (flatten payload))) = true ->
  Handler.respond currency payload = InternalError.
Proof. unfold Handler.respond. cbv zeta. now intros ->. Qed.

(** What [respond] answers past line 290, by the prices that reach line
    292. *)
Lemma respond_cases (currency : string) (payload : json) :
  Js.to_primitive_throws
    (Handler.final_factor payload (gramToOunce (flatten payload))) = false ->
  let p := extracted (flatten payload) currency in
  match goldPerGram p, silverPerGram p with
  | Some g, Some s =>
      exists body, Handler.respond currency payload = Success body
                   /\ perGram (gold body) = g /\ perGram (silver body) = s
  | _, _ =>
      Handler.respond currency payload
      = ExtractionError (firstn 50 (Js.Object_keys payload))
  end.
Proof.
  intros T. unfold Handler.respond. cbv zeta. rewrite T.
  destruct (goldPerGram _) as [g|]; [|reflexivity].
  destruct (silverPerGram _) as [s|]; [|reflexivity].
  eexists. split; [reflexivity|]. split; reflexivity.
Qed.

(** An answer other than 500 means that line 290 did not throw. *)
Lemma respond_not_thrown (currency : string) (payload : json) :
  Handler.respond currency payload <> InternalError ->
  Js.to_primitive_throws
    (Handler.final_factor payload (gramToOunce (flatten payload))) = false.
Proof.
  intros H. destruct (Js.to_primitive_throws _) eqn:T; [|reflexivity].
  exfalso. apply H. now apply respond_throws.
Qed.

(** A 200 response carries the two prices that were resolved, never an
    unresolved one. *)
Lemma success_carries_extracted (currency : string) (payload : json) (body : canonical) :
  Handler.respond currency payload = Success body ->
  let p := extracted (flatten payload) currency in
  goldPerGram p = Some (perGram (gold body))
  /\ silverPerGram p = Some (perGram (silver body)).
Proof.
  intros H p.
  assert (T : Handler.respond currency payload <> InternalError) by (rewrite H; discriminate).
  pose proof (respond_cases currency payload (respond_not_thrown _ _ T)) as C.
  cbv zeta in C. fold p in C.
  destruct (goldPerGram p) as [g|]; [|rewrite H in C; discriminate].
  destruct (silverPerGram p) as [s|]; [|rewrite H in C; discriminate].
  destruct C as (b & E & Eg & Es). rewrite H in E. injection E as ->.
  now rewrite Eg, Es.
Qed.

Lemma rates_handler_payload (currency : string) (data : json) (r : response) :
  Handler.rates_handler currency data = r ->
  status r = 200 \/ (exists keys, r = ExtractionError keys) ->
  exists payload, Js.truthy data = true
                  /\ Handler.merge (Handler.unwrap data) = Some payload
                  /\ Handler.respond currency payload = r.
Proof.
  unfold Handler.rates_handler. intros H Hr.
  destruct (Js.truthy data); simpl in H.
  - destruct (Handler.merge (Handler.unwrap data)) as [payload|].
    + now exists payload.
    + subst r. destruct Hr as [Hr|[k Hr]]; discriminate.
  - subst r. destruct Hr as [Hr|[k Hr]]; discriminate.
Qed.






Example scenarioA_response :
  exists body,
    Handler.rates_handler "usd" scenarioA = Success body
    /\ perGram (gold body) = Num.of_N 100
    /\ perGram (silver body) = dec 12 (-1)
    /\ perKg (gold body) = Num.of_N 100000
    /\ currency_code body = "USD".
Proof. eexists. vm_compute. repeat split. Qed.

(* ------------------------------------------------------------------ *)
(** ** The heuristics *)

Lemma find_first_such (f : entry -> bool) (entries : list entry) (e : entry) :
  find f entries = Some e <-> first_such f entries e.
Proof.
  split.
  - induction entries as [|x r IH]; simpl; [discriminate|].
    destruct (f x) eqn:Fx.
    + intros [= ->]. exists [], r. repeat split; [intros y []|exact Fx].
    + intros H. destruct (IH H) as (l1 & l2 & -> & Hl & He).
      exists (x :: l1), l2. repeat split; [|exact He].
      intros y [<-|Hy]; [exact Fx|now apply Hl].
  - intros (l1 & l2 & -> & Hl & He).
    induction l1 as [|x l1 IH]; simpl.
    + now rewrite He.
    + rewrite (Hl x (or_introl eq_refl)). apply IH.
      intros y Hy. apply Hl. now right.
Qed.

Lemma find_none_iff (f : entry -> bool) (entries : list entry) :
  find f entries = None <-> (forall x, In x entries -> f x = false).
Proof.
  split; [apply find_none|].
  induction entries as [|x r IH]; simpl; [reflexivity|].
  intros H. rewrite (H x (or_introl eq_refl)). apply IH. intros y Hy. apply H. now right.
Qed.

(** A field that is resolved is left alone by every later heuristic. *)
Lemma when_null_keeps (n : number) (found : option entry) :
  when_null (Some n) found = Some n.
Proof. reflexivity. Qed.

Lemma take_top_two_keeps_gold (l : list candidate) (p : prices) (n : number) :
  goldPerGram p = Some n -> goldPerGram (take_top_two l p) = Some n.
Proof. intros H. simpl. now rewrite H. Qed.

Lemma take_top_two_keeps_silver (l : list candidate) (p : prices) (n : number) :
  silverPerGram p = Some n -> silverPerGram (take_top_two l p) = Some n.
Proof. intros H. simpl. now rewrite H. Qed.

Ltac keep_field H :=
  intros H; cbn [goldPerGram silverPerGram step2 step3 step4]; rewrite H; reflexivity.

Lemma step2_keeps_gold (entries : list entry) (currency : string) (p : prices) (n : number) :
  goldPerGram p = Some n -> goldPerGram (step2 entries currency p) = Some n.
Proof. keep_field H. Qed.

Lemma step3_keeps_gold (entries : list entry) (p : prices) (n : number) :
  goldPerGram p = Some n -> goldPerGram (step3 entries p) = Some n.
Proof. keep_field H. Qed.

Lemma step4_keeps_gold (entries : list entry) (p : prices) (n : number) :
  goldPerGram p = Some n -> goldPerGram (step4 entries p) = Some n.
Proof. keep_field H. Qed.

Lemma step5_keeps_gold (entries : list entry) (currency : string) (p : prices) (n : number) :
  goldPerGram p = Some n -> goldPerGram (step5 entries currency p) = Some n.
Proof.
  intros H. unfold step5. destruct (_ || _); [now apply take_top_two_keeps_gold|exact H].
Qed.

Lemma step6_keeps_gold (entries : list entry) (currency : string) (p : prices) (n : number) :
  goldPerGram p = Some n -> goldPerGram (step6 entries currency p) = Some n.
Proof.
  intros H. unfold step6. destruct (_ || _); [now apply take_top_two_keeps_gold|exact H].
Qed.

Lemma step2_keeps_silver (entries : list entry) (currency : string) (p : prices) (n : number) :
  silverPerGram p = Some n -> silverPerGram (step2 entries currency p) = Some n.
Proof. keep_field H. Qed.

Lemma step3_keeps_silver (entries : list entry) (p : prices) (n : number) :
  silverPerGram p = Some n -> silverPerGram (step3 entries p) = Some n.
Proof. keep_field H. Qed.

Lemma step4_keeps_silver (entries : list entry) (p : prices) (n : number) :
  silverPerGram p = Some n -> silverPerGram (step4 entries p) = Some n.
Proof. keep_field H. Qed.

Lemma step5_keeps_silver (entries : list entry) (currency : string) (p : prices) (n : number) :
  silverPerGram p = Some n -> silverPerGram (step5 entries currency p) = Some n.
Proof.
  intros H. unfold step5. destruct (_ || _); [now apply take_top_two_keeps_silver|exact H].
Qed.

Lemma step6_keeps_silver (entries : list entry) (currency : string) (p : prices) (n : number) :
  silverPerGram p = Some n -> silverPerGram (step6 entries currency p) = Some n.
Proof.
  intros H. unfold step6. destruct (_ || _); [now apply take_top_two_keeps_silver|exact H].
Qed.

Lemma heuristics_keep_gold (entries : list entry) (currency : string) (n : number) :
  goldPerGram (step1 entries) = Some n ->
  goldPerGram (heuristics entries currency) = Some n.
Proof.
  intros H. unfold heuristics.
  now apply step6_keeps_gold, step5_keeps_gold, step4_keeps_gold,
    step3_keeps_gold, step2_keeps_gold.
Qed.

Lemma heuristics_keep_silver (entries : list entry) (currency : string) (n : number) :
  silverPerGram (step1 entries) = Some n ->
  silverPerGram (heuristics entries currency) = Some n.
Proof.
  intros H. unfold heuristics.
  now apply step6_keeps_silver, step5_keeps_silver, step4_keeps_silver,
    step3_keeps_silver, step2_keeps_silver.
Qed.

Lemma pickByKeyIncludes_find (entries : list entry) (substrings : list string) :
  pickByKeyIncludes entries substrings = find (key_includes substrings) entries.
Proof. reflexivity. Qed.

(** C3, as stated, fails: [find] returns the first entry whose key has
    both words, whether its value parses or not.  Here the entry
    [gold_gram] holds 90, but the first match does not parse, step 1
    resolves nothing for gold, and step 5 gives gold the largest gram
    value, 100. *)
Lemma shadowed_gold_gram_entry :
  In {| path := "gold_gram"; key := "gold_gram"; value := int 90 |}
     (flatten shadowed_gold)
  /\ key_includes ["gold"; "gram"]
       {| path := "gold_gram"; key := "gold_gram"; value := int 90 |} = true
  /\ parseNumber (int 90) = Some (Num.of_N 90)
  /\ goldPerGram (step1 (flatten shadowed_gold)) = None
  /\ goldPerGram (extracted (flatten shadowed_gold) "usd") = Some (Num.of_N 100)
  /\ exists body,
       Handler.rates_handler "usd" shadowed_gold = Success body
       /\ perGram (gold body) = Num.of_N 100.
Proof.
  split; [vm_compute; tauto|].
  split; [reflexivity|]. split; [reflexivity|].
  split; [vm_compute; reflexivity|]. split; [vm_compute; reflexivity|].
  eexists. vm_compute. split; reflexivity.
Qed.

(** C3 (amended): when the first flattened entry whose key contains both
    "gold" and "gram" (case-insensitively) has a value that parses, step 1
    resolves [goldPerGram] to that value and steps 2-6 keep it; the final
    value is that one, unless the currency is not "usd" and a gold
    per-ounce value was derived, which then replaces it.  The same holds
    for "silver" and "gram". *)
Theorem first_metal_gram_entry_wins (entries : list entry) (currency : string) :
  (forall e n,
      first_such (key_includes ["gold"; "gram"]) entries e ->
      parseNumber (value e) = Some n ->
      goldPerGram (step1 entries) = Some n
      /\ goldPerGram (heuristics entries currency) = Some n
      /\ goldPerGram (extracted entries currency)
         = if String.eqb currency "usd" then Some n
           else match goldFromOunce entries currency with
                | Some m => Some m
                | None => Some n
                end)
  /\ (forall e n,
      first_such (key_includes ["silver"; "gram"]) entries e ->
      parseNumber (value e) = Some n ->
      silverPerGram (step1 entries) = Some n
      /\ silverPerGram (heuristics entries currency) = Some n
      /\ silverPerGram (extracted entries currency)
         = if String.eqb currency "usd" then Some n
           else match silverFromOunce entries currency with
                | Some m => Some m
                | None => Some n
                end).
Proof.
  split; intros e n Hf Hn; apply find_first_such in Hf.
  - assert (H1 : goldPerGram (step1 entries) = Some n).
    { unfold step1. simpl. rewrite pickByKeyIncludes_find, Hf. simpl. now rewrite Hn. }
    split; [exact H1|].
    pose proof (heuristics_keep_gold entries currency n H1) as H6.
    split; [exact H6|].
    unfold extracted, prefer_ounce.
    destruct (String.eqb currency "usd"); simpl; now rewrite H6.
  - assert (H1 : silverPerGram (step1 entries) = Some n).
    { unfold step1. simpl. rewrite pickByKeyIncludes_find, Hf. simpl. now rewrite Hn. }
    split; [exact H1|].
    pose proof (heuristics_keep_silver entries currency n H1) as H6.
    split; [exact H6|].
    unfold extracted, prefer_ounce.
    destruct (String.eqb currency "usd"); simpl; now rewrite H6.
Qed.

Lemma first_metal_gram_entry_wins_witness :
  let entries := [entry_of "gold_gram" (int 90); entry_of "silver_gram" (JNumber (dec 11 (-1)))] in
  (goldPerGram (step1 entries) = Some (Num.of_N 90)
   /\ goldPerGram (heuristics entries "usd") = Some (Num.of_N 90)
   /\ goldPerGram (extracted entries "usd") = Some (Num.of_N 90))
  /\ (silverPerGram (step1 entries) = Some (dec 11 (-1))
      /\ silverPerGram (heuristics entries "usd") = Some (dec 11 (-1))
      /\ silverPerGram (extracted entries "usd") = Some (dec 11 (-1))).
Proof.
  intros entries.
  destruct (first_metal_gram_entry_wins entries "usd") as [G S].
  split.
  - apply (G (entry_of "gold_gram" (int 90)) (Num.of_N 90)).
    + exists [], [entry_of "silver_gram" (JNumber (dec 11 (-1)))].
      split; [reflexivity|]. split; [intros x []|reflexivity].
    + reflexivity.
  - apply (S (entry_of "silver_gram" (JNumber (dec 11 (-1)))) (dec 11 (-1))).
    + exists [entry_of "gold_gram" (int 90)], [].
      split; [reflexivity|]. split; [|reflexivity].
      intros x [<-|[]]. reflexivity.
    + reflexivity.
Defined.

Example scenarioB_response :
  Handler.merge scenarioB
  = Some (JObject [("gold_gram", int 90); ("silver_gram", JNumber (dec 11 (-1)))])
  /\ exists body,
       Handler.rates_handler "usd" scenarioB = Success body
       /\ perGram (gold body) = Num.of_N 90
       /\ perGram (silver body) = dec 11 (-1).
Proof. split; [reflexivity|]. eexists. vm_compute. repeat split. Qed.

(** C5, as stated, fails: the gold test of step 3 has a second
    disjunct, [lc(e.key).includes('gram_in')].  With the currency "usd"
    and the single key [gram_in_inr], no key equals "gram", steps 1 and 2
    resolve nothing, and step 3 resolves gold. *)
Lemma step3_fires_on_gram_in :
  let entries := flatten only_gram_in_inr in
  existsb (fun e => String.eqb (lc (key e)) "gram") entries = false
  /\ goldPerGram (step2 entries "usd" (step1 entries)) = None
  /\ goldPerGram (step3 entries (step2 entries "usd" (step1 entries)))
     = Some (Num.of_N 7000).
Proof. vm_compute. repeat split. Qed.

(** C5 (amended): in step 3 the gold fallback fires only on an entry
    whose key is equal to "gram" or contains "gram_in"
    (case-insensitively): when no entry has such a key, step 3 leaves
    [goldPerGram] unresolved.  The silver fallback fires only on a key
    equal to "silver" or containing "silver_gram".  A field that is
    already resolved is not changed. *)
Theorem step3_fires_only_on_its_keys (entries : list entry) (p : prices) :
  (forall n,
      goldPerGram p = None -> goldPerGram (step3 entries p) = Some n ->
      exists e, In e entries
                /\ (lc (key e) = "gram" \/ Str.includes (lc (key e)) "gram_in" = true)
                /\ parseNumber (value e) = Some n)
  /\ (goldPerGram p = None ->
      (forall e, In e entries ->
                 lc (key e) <> "gram" /\ Str.includes (lc (key e)) "gram_in" = false) ->
      goldPerGram (step3 entries p) = None)
  /\ (forall n,
      silverPerGram p = None -> silverPerGram (step3 entries p) = Some n ->
      exists e, In e entries
                /\ (lc (key e) = "silver" \/ Str.includes (lc (key e)) "silver_gram" = true)
                /\ parseNumber (value e) = Some n)
  /\ (silverPerGram p = None ->
      (forall e, In e entries ->
                 lc (key e) <> "silver" /\ Str.includes (lc (key e)) "silver_gram" = false) ->
      silverPerGram (step3 entries p) = None)
  /\ (forall n, goldPerGram p = Some n -> goldPerGram (step3 entries p) = Some n)
  /\ (forall n, silverPerGram p = Some n -> silverPerGram (step3 entries p) = Some n).
Proof.
  assert (fires : forall f n,
             when_null None (find f entries) = Some n ->
             exists e, In e entries /\ f e = true /\ parseNumber (value e) = Some n).
  { intros f n. simpl. destruct (find f entries) as [e|] eqn:F; [|discriminate].
    simpl. destruct (parseNumber (value e)) eqn:P; [|discriminate].
    intros [= ->]. apply find_some in F. exists e. tauto. }
  assert (quiet : forall f,
             (forall e, In e entries -> f e = false) ->
             when_null None (find f entries) = None).
  { intros f H. apply find_none_iff in H. simpl. now rewrite H. }
  repeat split.
  - intros n Hp H. cbn [goldPerGram step3] in H. rewrite Hp in H.
    destruct (fires _ n H) as (e & Hin & Hk & Hn).
    exists e. split; [exact Hin|]. split; [|exact Hn].
    unfold gold_step3_key in Hk. apply orb_true_iff in Hk.
    destruct Hk as [Hk|Hk]; [left; now apply String.eqb_eq|now right].
  - intros Hp H. cbn [goldPerGram step3]. rewrite Hp. apply quiet.
    intros e Hin. destruct (H e Hin) as [H1 H2]. unfold gold_step3_key.
    rewrite H2. apply String.eqb_neq in H1. now rewrite H1.
  - intros n Hp H. cbn [silverPerGram step3] in H. rewrite Hp in H.
    destruct (fires _ n H) as (e & Hin & Hk & Hn).
    exists e. split; [exact Hin|]. split; [|exact Hn].
    unfold silver_step3_key in Hk. apply orb_true_iff in Hk.
    destruct Hk as [Hk|Hk]; [left; now apply String.eqb_eq|now right].
  - intros Hp H. cbn [silverPerGram step3]. rewrite Hp. apply quiet.
    intros e Hin. destruct (H e Hin) as [H1 H2]. unfold silver_step3_key.
    rewrite H2. apply String.eqb_neq in H1. now rewrite H1.
  - intros n. apply step3_keeps_gold.
  - intros n. apply step3_keeps_silver.
Qed.

Lemma step3_fires_only_on_its_keys_witness :
  let hit := [entry_of "Gram" (int 70); entry_of "silver" (int 2)] in
  let miss := [entry_of "grams" (int 70); entry_of "silvers" (int 2)] in
  let null := {| goldPerGram := None; silverPerGram := None |} in
  (exists e, In e hit
             /\ (lc (key e) = "gram" \/ Str.includes (lc (key e)) "gram_in" = true)
             /\ parseNumber (value e) = Some (Num.of_N 70))
  /\ goldPerGram (step3 miss null) = None
  /\ (exists e, In e hit
                /\ (lc (key e) = "silver" \/ Str.includes (lc (key e)) "silver_gram" = true)
                /\ parseNumber (value e) = Some (Num.of_N 2))
  /\ silverPerGram (step3 miss null) = None
  /\ goldPerGram (step3 hit {| goldPerGram := Some Num.thousand; silverPerGram := None |})
     = Some Num.thousand
  /\ silverPerGram (step3 hit {| goldPerGram := None; silverPerGram := Some Num.thousand |})
     = Some Num.thousand.
Proof.
  intros hit miss null.
  destruct (step3_fires_only_on_its_keys hit null) as (G1 & _ & S1 & _).
  destruct (step3_fires_only_on_its_keys miss null) as (_ & G2 & _ & S2 & _).
  destruct (step3_fires_only_on_its_keys hit
              {| goldPerGram := Some Num.thousand; silverPerGram := None |})
    as (_ & _ & _ & _ & G3 & _).
  destruct (step3_fires_only_on_its_keys hit
              {| goldPerGram := None; silverPerGram := Some Num.thousand |})
    as (_ & _ & _ & _ & _ & S3).
  split; [apply G1; reflexivity|].
  split.
  { apply G2; [reflexivity|].
    intros e [<-|[<-|[]]]; (split; [discriminate|reflexivity]). }
  split; [apply S1; reflexivity|].
  split.
  { apply S2; [reflexivity|].
    intros e [<-|[<-|[]]]; (split; [discriminate|reflexivity]). }
  split; [apply G3; reflexivity|apply S3; reflexivity].
Defined.

(* ------------------------------------------------------------------ *)
(** ** The per-ounce rule *)

Lemma from_ounce_value (entries : list entry) (e : entry) (n f : number) :
  parseNumber (value e) = Some n ->
  gramToOunce entries = Some f ->
  Num.truthy f = true ->
  from_ounce entries (Some e) = Some (Num.mul n f).
Proof. intros Hn Hf Ht. unfold from_ounce. now rewrite Hn, Hf, Ht. Qed.

Lemma from_ounce_without_factor (entries : list entry) (o : option entry) :
  gramToOunce entries = None
  \/ (exists f, gramToOunce entries = Some f /\ Num.truthy f = false) ->
  from_ounce entries o = None.
Proof.
  intros H. unfold from_ounce. destruct o as [e|]; [|reflexivity].
  destruct (parseNumber (value e)); [|reflexivity].
  destruct H as [->|(f & -> & ->)]; reflexivity.
Qed.

Lemma silver_from_located_ounce (entries : list entry) (currency : string)
    (e : entry) (n f : number) :
  sOunce entries currency = Some e ->
  parseNumber (value e) = Some n ->
  gramToOunce entries = Some f -> Num.truthy f = true ->
  silverPerGram (extracted entries currency)
  = if String.eqb currency "usd"
    then match silverPerGram (heuristics entries currency) with
         | Some h => Some h
         | None => Some (Num.mul n f)
         end
    else Some (Num.mul n f).
Proof.
  intros He Hn Hf Ht. unfold extracted, prefer_ounce, silverFromOunce.
  rewrite He, (from_ounce_value entries e n f Hn Hf Ht).
  destruct (String.eqb currency "usd"); simpl; [|reflexivity].
  now destruct (silverPerGram _).
Qed.

Lemma gold_from_located_ounce (entries : list entry) (currency : string)
    (e : entry) (n f : number) :
  gOunce entries currency = Some e ->
  parseNumber (value e) = Some n ->
  gramToOunce entries = Some f -> Num.truthy f = true ->
  goldPerGram (extracted entries currency)
  = if String.eqb currency "usd"
    then match goldPerGram (heuristics entries currency) with
         | Some h => Some h
         | None => Some (Num.mul n f)
         end
    else Some (Num.mul n f).
Proof.
  intros He Hn Hf Ht. unfold extracted, prefer_ounce, goldFromOunce.
  rewrite He, (from_ounce_value entries e n f Hn Hf Ht).
  destruct (String.eqb currency "usd"); simpl; [|reflexivity].
  now destruct (goldPerGram _).
Qed.

(** C1, as stated, fails: the default factor is assigned on line 288,
    after the per-ounce values were computed on lines 269 and 273 under
    the guard [&& gramToOunce].  With no factor among the entries nothing
    is derived: here [silver_ounce_in_inr] is located and parses, and the
    silver price stays the 90 of step 1. *)
Lemma per_ounce_needs_a_factor_entry :
  let entries := flatten ounce_without_factor in
  sOunce entries "inr" = Some (entry_of "silver_ounce_in_inr" (int 93000))
  /\ parseNumber (int 93000) = Some (Num.of_N 93000)
  /\ gto entries = None
  /\ silverPerGram (extracted entries "inr") = Some (Num.of_N 90)
  /\ silverPerGram (extracted entries "inr")
     <> Some (Num.mul (Num.of_N 93000) Num.default_factor)
  /\ exists body,
       Handler.rates_handler "inr" ounce_without_factor = Success body
       /\ perGram (silver body) = Num.of_N 90.
Proof.
  cbv zeta. split; [vm_compute; reflexivity|]. split; [reflexivity|].
  split; [vm_compute; reflexivity|]. split; [vm_compute; reflexivity|].
  split; [vm_compute; discriminate|]. eexists. vm_compute. split; reflexivity.
Qed.

(** C1 (amended): let the first entry whose key contains "gram_to_ounce"
    parse to a factor that is not zero.  For a currency other than "usd",
    when the per-ounce entry the extractor locates for a metal has a value
    that parses, the final per-gram price of that metal is that value
    times the factor, whatever steps 1-6 resolved; for "usd" it is used
    only for a price that steps 1-6 left unresolved.  When the entries
    give no factor, or the factor zero, nothing is derived and the prices
    of steps 1-6 stand. *)
Theorem per_ounce_rule (entries : list entry) (currency : string) :
  (forall e n f,
      sOunce entries currency = Some e ->
      parseNumber (value e) = Some n ->
      gramToOunce entries = Some f -> Num.truthy f = true ->
      silverPerGram (extracted entries currency)
      = if String.eqb currency "usd"
        then match silverPerGram (heuristics entries currency) with
             | Some h => Some h
             | None => Some (Num.mul n f)
             end
        else Some (Num.mul n f))
  /\ (forall e n f,
      gOunce entries currency = Some e ->
      parseNumber (value e) = Some n ->
      gramToOunce entries = Some f -> Num.truthy f = true ->
      goldPerGram (extracted entries currency)
      = if String.eqb currency "usd"
        then match goldPerGram (heuristics entries currency) with
             | Some h => Some h
             | None => Some (Num.mul n f)
             end
        else Some (Num.mul n f))
  /\ (gramToOunce entries = None
      \/ (exists f, gramToOunce entries = Some f /\ Num.truthy f = false) ->
      extracted entries currency = heuristics entries currency).
Proof.
  repeat split.
  - apply silver_from_located_ounce.
  - apply gold_from_located_ounce.
  - intros H. unfold extracted, prefer_ounce, silverFromOunce, goldFromOunce.
    rewrite !(from_ounce_without_factor entries _ H).
    destruct (heuristics entries currency) as [g s].
    destruct (String.eqb currency "usd"); simpl; [|reflexivity].
    now destruct g, s.
Qed.

Lemma per_ounce_rule_witness :
  silverPerGram (extracted scenarioE "inr")
  = Some (Num.mul (Num.of_N 93000) Num.default_factor)
  /\ goldPerGram (extracted scenarioE "inr")
     = Some (Num.mul (Num.of_N 9000000) Num.default_factor)
  /\ extracted [entry_of "silver_ounce_in_inr" (int 93000)] "inr"
     = heuristics [entry_of "silver_ounce_in_inr" (int 93000)] "inr".
Proof.
  destruct (per_ounce_rule scenarioE "inr") as (S & G & _).
  destruct (per_ounce_rule [entry_of "silver_ounce_in_inr" (int 93000)] "inr")
    as (_ & _ & N).
  split.
  { apply (S (entry_of "silver_ounce_in_inr" (int 93000)) (Num.of_N 93000)
             Num.default_factor); reflexivity. }
  split.
  { apply (G (entry_of "ounce_in_inr" (int 9000000)) (Num.of_N 9000000)
             Num.default_factor); reflexivity. }
  apply N. left. reflexivity.
Defined.

Example scenarioE_response :
  exists body,
    Handler.rates_handler "inr"
      (JObject [("silver_ounce_in_inr", int 93000);
                ("gram_to_ounce_formula", JNumber Num.default_factor)])
    = Success body
    /\ perGram (silver body) = Num.mul (Num.of_N 93000) Num.default_factor
    /\ perGram (silver body) = S754_finite false 6575112739351638 (-41)
    /\ perOunce (silver body) = Num.of_N 93000.
Proof. eexists. vm_compute. repeat split. Qed.

(** C10, as stated, fails: the fallback of line 272 returns the first
    entry whose key contains "ounce" and the currency, which need not be
    the silver one.  Here it is [gold_ounce_inr], and the two prices
    differ. *)
Lemma gold_fallback_may_find_another_entry :
  let entries := flatten other_ounce_first in
  negb (String.eqb "inr" "usd") = true
  /\ gramToOunce entries = Some Num.default_factor
  /\ findKey entries "silver_ounce_in_inr"
     = Some (entry_of "silver_ounce_in_inr" (int 93000))
  /\ parseNumber (int 93000) = Some (Num.of_N 93000)
  /\ find (key_or_path_end "ounce_in_inr") entries = None
  /\ gOunce entries "inr" = Some (entry_of "gold_ounce_inr" (int 9000000))
  /\ silverPerGram (extracted entries "inr")
     = Some (Num.mul (Num.of_N 93000) Num.default_factor)
  /\ goldPerGram (extracted entries "inr")
     = Some (Num.mul (Num.of_N 9000000) Num.default_factor)
  /\ goldPerGram (extracted entries "inr") <> silverPerGram (extracted entries "inr")
  /\ exists body,
       Handler.rates_handler "inr" other_ounce_first = Success body
       /\ perGram (gold body) <> perGram (silver body).
Proof.
  cbv zeta. repeat (split; [vm_compute; first [reflexivity|discriminate]|]).
  eexists. split; [vm_compute; reflexivity|]. vm_compute. discriminate.
Qed.

Lemma startsWith_refl (s : string) : Str.startsWith s s = true.
Proof. induction s as [|c s IH]; simpl; [reflexivity|]. now rewrite Ascii.eqb_refl. Qed.

Lemma includes_app_r (a c : string) : Str.includes (a ++ c)%string c = true.
Proof.
  induction a as [|x a IH].
  - simpl. destruct c; simpl; [reflexivity|]. now rewrite Ascii.eqb_refl, startsWith_refl.
  - change (String x a ++ c)%string with (String x (a ++ c)%string).
    cbn [Str.includes]. destruct (Str.startsWith _ c); [reflexivity|exact IH].
Qed.

(** The key [silver_ounce_in_<currency>] passes the test of the gold
    fallback: it contains "ounce" and the currency. *)
Lemma silver_ounce_key_is_an_ounce_key (currency : string) (e : entry) :
  lc (key e) = ("silver_ounce_in_" ++ currency)%string ->
  ounce_key currency "ounce" e = true /\ key_or_path_end ("silver_ounce_in_" ++ currency) e = true.
Proof.
  intros H. unfold ounce_key, key_or_path_end. rewrite H. split.
  - apply andb_true_iff. split; [|apply includes_app_r].
    destruct currency; reflexivity.
  - now rewrite String.eqb_refl.
Qed.

(** C10 (amended): for a currency other than "usd", let the first entry
    whose key contains "gram_to_ounce" parse to a factor that is not zero,
    let no entry have the key [ounce_in_<currency>] (nor a path ending in
    it), and let an entry with the key [silver_ounce_in_<currency>] and a
    value that parses come before every other entry whose key contains
    both "ounce" and the currency (or whose path ends in
    [.silver_ounce_in_<currency>]).  Then the gold fallback locates that
    silver entry, and the final gold and silver per-gram prices are both
    its value times the factor. *)
Theorem gold_takes_silver_ounce (entries l1 l2 : list entry) (currency : string)
    (e : entry) (n f : number) :
  String.eqb currency "usd" = false ->
  gramToOunce entries = Some f -> Num.truthy f = true ->
  (forall x, In x entries -> key_or_path_end ("ounce_in_" ++ currency) x = false) ->
  entries = l1 ++ e :: l2 ->
  lc (key e) = ("silver_ounce_in_" ++ currency)%string ->
  parseNumber (value e) = Some n ->
  (forall x, In x l1 ->
             ounce_key currency "ounce" x = false
             /\ key_or_path_end ("silver_ounce_in_" ++ currency) x = false) ->
  gOunce entries currency = Some e
  /\ sOunce entries currency = Some e
  /\ goldPerGram (extracted entries currency) = Some (Num.mul n f)
  /\ silverPerGram (extracted entries currency) = Some (Num.mul n f)
  /\ goldPerGram (extracted entries currency) = silverPerGram (extracted entries currency).
Proof.
  intros Hc Hf Ht Hno Hsplit Hk Hn Hbefore.
  destruct (silver_ounce_key_is_an_ounce_key currency e Hk) as [Ko Ks].
  assert (Hg : gOunce entries currency = Some e).
  { unfold gOunce, findKey. apply find_none_iff in Hno. rewrite Hno. simpl.
    apply find_first_such. exists l1, l2. repeat split; [exact Hsplit| |exact Ko].
    intros x Hx. now apply Hbefore. }
  assert (Hs : sOunce entries currency = Some e).
  { unfold sOunce, findKey.
    assert (F : find (key_or_path_end ("silver_ounce_in_" ++ currency)) entries = Some e).
    { apply find_first_such. exists l1, l2. repeat split; [exact Hsplit| |exact Ks].
      intros x Hx. now apply Hbefore. }
    now rewrite F. }
  pose proof (silver_from_located_ounce entries currency e n f Hs Hn Hf Ht) as S.
  pose proof (gold_from_located_ounce entries currency e n f Hg Hn Hf Ht) as G.
  rewrite Hc in S, G. rewrite S, G. repeat split; assumption.
Qed.

Lemma gold_takes_silver_ounce_witness :
  let entries := [entry_of "gram_to_ounce_formula" (JNumber Num.default_factor);
                  entry_of "silver_ounce_in_inr" (int 93000);
                  entry_of "gram_in_inr" (int 7000)] in
  gOunce entries "inr" = Some (entry_of "silver_ounce_in_inr" (int 93000))
  /\ sOunce entries "inr" = Some (entry_of "silver_ounce_in_inr" (int 93000))
  /\ goldPerGram (extracted entries "inr") = Some (Num.mul (Num.of_N 93000) Num.default_factor)
  /\ silverPerGram (extracted entries "inr") = Some (Num.mul (Num.of_N 93000) Num.default_factor)
  /\ goldPerGram (extracted entries "inr") = silverPerGram (extracted entries "inr").
Proof.
  intros entries.
  apply (gold_takes_silver_ounce entries
           [entry_of "gram_to_ounce_formula" (JNumber Num.default_factor)]
           [entry_of "gram_in_inr" (int 7000)] "inr"
           (entry_of "silver_ounce_in_inr" (int 93000)) (Num.of_N 93000) Num.default_factor).
  - reflexivity.
  - reflexivity.
  - reflexivity.
  - intros x [<-|[<-|[<-|[]]]]; reflexivity.
  - reflexivity.
  - reflexivity.
  - reflexivity.
  - intros x [<-|[]]. split; reflexivity.
Defined.

(* ------------------------------------------------------------------ *)
(** ** [JSON.parse] returns a value smaller than its text *)

Lemma jsize_array (l : list json) : jsize (JArray l) = S (items_size l).
Proof.
  unfold items_size. simpl. f_equal.
  induction l as [|x r IH]; simpl; [reflexivity|]. now rewrite IH.
Qed.

Lemma jsize_object (o : list (string * json)) : jsize (JObject o) = S (props_size o).
Proof.
  unfold props_size. simpl. f_equal.
  induction o as [|x r IH]; simpl; [reflexivity|]. now rewrite IH.
Qed.

Lemma items_size_cons (x : json) (l : list json) :
  items_size (x :: l) = jsize x + items_size l.
Proof. reflexivity. Qed.

Lemma props_size_cons (k : string) (v : json) (o : list (string * json)) :
  props_size ((k, v) :: o) = jsize v + props_size o.
Proof. reflexivity. Qed.

Lemma jsize_pos (v : json) : 1 <= jsize v.
Proof. destruct v; simpl; lia. Qed.

Lemma items_size_In (l : list json) (x : json) : In x l -> jsize x <= items_size l.
Proof.
  unfold items_size. induction l as [|y r IH]; simpl; [intros []|].
  intros [->|H]; [lia|]. specialize (IH H). lia.
Qed.

Lemma props_size_In (o : list (string * json)) (k : string) (v : json) :
  In (k, v) o -> jsize v <= props_size o.
Proof.
  unfold props_size. induction o as [|y r IH]; simpl; [intros []|].
  intros [->|H]; [simpl; lia|]. specialize (IH H). lia.
Qed.

Lemma props_size_app (a b : list (string * json)) :
  props_size (a ++ b) = props_size a + props_size b.
Proof. unfold props_size. now rewrite map_app, list_sum_app. Qed.

Lemma get_In (k : string) (o : Obj.t) (v : json) :
  Obj.get k o = Some v -> exists k', In (k', v) o.
Proof.
  induction o as [|[k' v'] r IH]; simpl; [discriminate|].
  destruct (String.eqb k' k).
  - intros [= ->]. exists k'. now left.
  - intros H. destruct (IH H) as [k'' Hk]. exists k''. now right.
Qed.

Lemma get_size (k : string) (o : Obj.t) (v : json) :
  Obj.get k o = Some v -> jsize v <= props_size o.
Proof. intros H. destruct (get_In k o v H) as [k' Hk]. eapply props_size_In, Hk. Qed.

Lemma replace_size (k : string) (v : json) (o : Obj.t) :
  props_size (Obj.replace k v o) <= props_size o + jsize v.
Proof.
  unfold props_size. induction o as [|[k' v'] r IH]; simpl; [lia|].
  destruct (String.eqb k' k); simpl; lia.
Qed.

Lemma insert_index_size (i : N) (k : string) (v : json) (o : Obj.t) :
  props_size (Obj.insert_index i k v o) = props_size o + jsize v.
Proof.
  unfold props_size. induction o as [|[k' v'] r IH]; simpl; [lia|].
  destruct (Obj.array_index k') as [j|]; [|simpl; lia].
  destruct (j <? i)%N; simpl; lia.
Qed.

Lemma set_size (k : string) (v : json) (o : Obj.t) :
  props_size (Obj.set k v o) <= props_size o + jsize v.
Proof.
  unfold Obj.set. destruct (Obj.has k o); [apply replace_size|].
  destruct (Obj.array_index k).
  - rewrite insert_index_size. lia.
  - rewrite props_size_app. unfold props_size. simpl. lia.
Qed.

Lemma assign_size (source : list (string * json)) (target : Obj.t) :
  props_size (Obj.assign target source) <= props_size target + props_size source.
Proof.
  unfold Obj.assign. revert target.
  induction source as [|[k v] r IH]; intros target; simpl.
  - unfold props_size at 3. simpl. lia.
  - specialize (IH (Obj.set k v target)). pose proof (set_size k v target).
    unfold props_size at 3. simpl. fold (props_size r). lia.
Qed.

Lemma length_append (a b : string) :
  String.length (a ++ b) = String.length a + String.length b.
Proof. induction a as [|c a IH]; simpl; [reflexivity|]. now rewrite IH. Qed.

Lemma skip_ws_length (s : string) : String.length (Json.skip_ws s) <= String.length s.
Proof.
  induction s as [|c s IH]; simpl; [lia|].
  destruct (Json.is_ws c); simpl; lia.
Qed.

Lemma trimStart_length (s : string) : String.length (Str.trimStart s) <= String.length s.
Proof.
  induction s as [|c s IH]; simpl; [lia|].
  destruct (Str.is_space c); simpl; lia.
Qed.

Lemma trimEnd_length (s : string) : String.length (Str.trimEnd s) <= String.length s.
Proof.
  induction s as [|c s IH]; simpl; [lia|].
  destruct (Str.trimEnd s); [destruct (Str.is_space c)|]; simpl in *; lia.
Qed.

Lemma trim_length (s : string) : String.length (Str.trim s) <= String.length s.
Proof.
  unfold Str.trim. pose proof (trimEnd_length (Str.trimStart s)).
  pose proof (trimStart_length s). lia.
Qed.

Lemma span_digits_length (s d r : string) :
  Str.span_digits s = (d, r) -> String.length d + String.length r = String.length s.
Proof.
  revert d r. induction s as [|c s IH]; simpl; intros d r.
  - intros [= <- <-]. reflexivity.
  - destruct (Str.is_digit c).
    + destruct (Str.span_digits s) as [d' r'] eqn:E. intros [= <- <-].
      specialize (IH d' r' eq_refl). simpl. lia.
    + intros [= <- <-]. reflexivity.
Qed.

Lemma strip_prefix_length (p s r : string) :
  Json.strip_prefix p s = Some r -> String.length p + String.length r = String.length s.
Proof.
  revert s. induction p as [|a p IH]; intros s; simpl.
  - intros [= ->]. reflexivity.
  - destruct s as [|b s]; [discriminate|]. destruct (Ascii.eqb a b); [|discriminate].
    intros H. specialize (IH s H). simpl. lia.
Qed.

Lemma signed_digits_length (s r : string) (neg : bool) :
  ToNum.signed_digits s = (neg, r) -> String.length r <= String.length s.
Proof.
  unfold ToNum.signed_digits. destruct s as [|c s]; [intros [= <- <-]; lia|].
  destruct (Ascii.eqb c "-"); [intros [= <- <-]; simpl; lia|].
  destruct (Ascii.eqb c "+"); intros [= <- <-]; simpl; lia.
Qed.

Lemma utf8_length (u : N) : String.length (Json.utf8 u) <= 3.
Proof.
  unfold Json.utf8. destruct (u <? 128)%N; [simpl; lia|].
  destruct (u <? 2048)%N; simpl; lia.
Qed.

(** A string literal is at least as long as the string it denotes, plus
    its closing quote. *)
Lemma string_body_size (n : nat) (s str r : string) :
  String.length s <= n ->
  Json.string_body s = Some (str, r) ->
  String.length str + String.length r < String.length s.
Proof.
  revert s str r. induction n as [|n IH]; intros s str r Hn.
  - destruct s; [discriminate|simpl in Hn; lia].
  - destruct s as [|c s]; [discriminate|]. simpl in Hn.
    cbn [Json.string_body].
    destruct (Ascii.eqb c Str.dquote); [intros [= <- <-]; simpl; lia|].
    destruct (Ascii.eqb c Str.backslash).
    + destruct s as [|e r1]; [discriminate|].
      destruct (Ascii.eqb e "u").
      * destruct r1 as [|h1 [|h2 [|h3 [|h4 r2]]]]; try discriminate.
        destruct (Str.forallb _ _); [|discriminate].
        destruct (Json.string_body r2) as [[str' rest]|] eqn:E; [|discriminate].
        intros [= <- <-]. apply IH in E; [|simpl in Hn; lia].
        rewrite length_append.
        match goal with
        | |- context [String.length (Json.utf8 ?u)] =>
            pose proof (utf8_length u) as Hu;
            set (lu := String.length (Json.utf8 u)) in *
        end.
        cbn [String.length] in *. lia.
      * destruct (Json.simple_escape e); [|discriminate].
        destruct (Json.string_body r1) as [[str' rest]|] eqn:E; [|discriminate].
        intros [= <- <-]. apply IH in E; [|simpl in Hn; lia]. simpl. lia.
    + destruct (nat_of_ascii c <? 32); [discriminate|].
      destruct (Json.string_body s) as [[str' rest]|] eqn:E; [|discriminate].
      intros [= <- <-]. apply IH in E; [|lia]. simpl. lia.
Qed.

(** A number literal has at least one character. *)
Lemma number_literal_size (s r : string) (x : number) :
  Json.number_literal s = Some (x, r) -> String.length r < String.length s.
Proof.
  unfold Json.number_literal.
  set (sg := match s with
             | String c r0 => if Ascii.eqb c "-" then (true, r0) else (false, s)
             | EmptyString => (false, s)
             end).
  assert (Hsg : String.length (snd sg) <= String.length s).
  { unfold sg. destruct s as [|c r0]; simpl; [lia|].
    destruct (Ascii.eqb c "-"); simpl; lia. }
  destruct sg as [neg s1]. simpl in Hsg.
  destruct (Str.span_digits s1) as [ip r1] eqn:E1.
  apply span_digits_length in E1.
  destruct ip as [|d ds]; [discriminate|]. simpl in E1.
  destruct (Ascii.eqb d "0" && negb (String.eqb ds EmptyString)); [discriminate|].
  set (frac := match r1 with
               | String c r0 =>
                   if Ascii.eqb c "."
                   then match Str.span_digits r0 with
                        | (EmptyString, _) => None
                        | (fp, r2) => Some (fp, r2)
                        end
                   else Some (EmptyString, r1)
               | EmptyString => Some (EmptyString, r1)
               end).
  assert (Hfrac : forall fp r2, frac = Some (fp, r2) -> String.length r2 <= String.length r1).
  { intros fp r2. unfold frac. destruct r1 as [|c r0]; [intros [= <- <-]; lia|].
    destruct (Ascii.eqb c "."); [|intros [= <- <-]; lia].
    destruct (Str.span_digits r0) as [fp' r2'] eqn:E2. apply span_digits_length in E2.
    destruct fp'; [discriminate|]. intros [= <- <-]. simpl in *. lia. }
  destruct frac as [[fp r2]|]; [|discriminate].
  specialize (Hfrac fp r2 eq_refl).
  set (expo := match r2 with
               | String c r0 =>
                   if ToNum.is_exp_char c
                   then let (eneg, r3) := ToNum.signed_digits r0 in
                        match Str.span_digits r3 with
                        | (EmptyString, _) => None
                        | (ed, r4) => Some (ToNum.signed_value eneg ed, r4)
                        end
                   else Some (0%Z, r2)
               | EmptyString => Some (0%Z, r2)
               end).
  assert (Hexpo : forall ex rest, expo = Some (ex, rest) ->
                                  String.length rest <= String.length r2).
  { intros ex rest. unfold expo. destruct r2 as [|c r0]; [intros [= <- <-]; lia|].
    destruct (ToNum.is_exp_char c); [|intros [= <- <-]; lia].
    destruct (ToNum.signed_digits r0) as [eneg r3] eqn:E3.
    apply signed_digits_length in E3.
    destruct (Str.span_digits r3) as [ed r4] eqn:E4. apply span_digits_length in E4.
    destruct ed; [discriminate|]. intros [= <- <-]. simpl in *. lia. }
  destruct expo as [[ex rest]|]; [|discriminate].
  specialize (Hexpo ex rest eq_refl).
  intros [= <- <-]. lia.
Qed.

Lemma literal_size (s r : string) (v : json) :
  Json.literal s = Some (v, r) -> jsize v + String.length r <= String.length s.
Proof.
  unfold Json.literal.
  destruct (Json.strip_prefix "true" s) eqn:E1.
  { intros [= <- <-]. apply strip_prefix_length in E1. simpl in *. lia. }
  destruct (Json.strip_prefix "false" s) eqn:E2.
  { intros [= <- <-]. apply strip_prefix_length in E2. simpl in *. lia. }
  destruct (Json.strip_prefix "null" s) eqn:E3; [|discriminate].
  intros [= <- <-]. apply strip_prefix_length in E3. simpl in *. lia.
Qed.

Lemma parser_size (fuel : nat) :
  (forall s v r, Json.value fuel s = Some (v, r) ->
                 jsize v + String.length r <= String.length s)
  /\ (forall s l r, Json.elements fuel s = Some (l, r) ->
                    items_size l + String.length r < String.length s)
  /\ (forall s ms r, Json.members fuel s = Some (ms, r) ->
                     props_size ms + String.length r < String.length s).
Proof.
  induction fuel as [|f (IHv & IHe & IHm)].
  { repeat split; intros; discriminate. }
  split; [|split].
  - intros s v r. destruct s as [|c s]; [discriminate|]. cbn [Json.value].
    destruct (Ascii.eqb c "[").
    { pose proof (skip_ws_length s) as W.
      destruct (Json.skip_ws s) as [|c' r'] eqn:E; [discriminate|].
      destruct (Ascii.eqb c' "]").
      - intros [= <- <-]. simpl in *. lia.
      - destruct (Json.elements f (String c' r')) as [[l rest]|] eqn:El; [|discriminate].
        intros [= <- <-]. apply IHe in El. rewrite jsize_array.
        cbn [String.length] in *. lia. }
    destruct (Ascii.eqb c "{").
    { pose proof (skip_ws_length s) as W.
      destruct (Json.skip_ws s) as [|c' r'] eqn:E; [discriminate|].
      destruct (Ascii.eqb c' "}").
      - intros [= <- <-]. simpl in *. lia.
      - destruct (Json.members f (String c' r')) as [[ms rest]|] eqn:Em; [|discriminate].
        intros [= <- <-]. apply IHm in Em. rewrite jsize_object.
        pose proof (assign_size ms []) as A. unfold props_size at 2 in A. simpl in A.
        cbn [String.length] in *. lia. }
    destruct (Ascii.eqb c Str.dquote).
    { destruct (Json.string_body s) as [[str rest]|] eqn:Es; [|discriminate].
      intros [= <- <-]. apply (string_body_size _ _ _ _ (le_n _)) in Es.
      simpl. lia. }
    destruct (Ascii.eqb c "-" || Str.is_digit c).
    { destruct (Json.number_literal (String c s)) as [[x rest]|] eqn:En; [|discriminate].
      intros [= <- <-]. apply number_literal_size in En. simpl in *. lia. }
    apply literal_size.
  - intros s l r. cbn [Json.elements].
    destruct (Json.value f s) as [[v r0]|] eqn:Ev; [|discriminate].
    apply IHv in Ev. pose proof (skip_ws_length r0) as W.
    destruct (Json.skip_ws r0) as [|c r'] eqn:E; [discriminate|].
    destruct (Ascii.eqb c ",").
    + pose proof (skip_ws_length r') as W'.
      destruct (Json.elements f (Json.skip_ws r')) as [[l' rest]|] eqn:El; [|discriminate].
      intros [= <- <-]. apply IHe in El. rewrite items_size_cons.
      cbn [String.length] in *. lia.
    + destruct (Ascii.eqb c "]"); [|discriminate].
      intros [= <- <-]. rewrite items_size_cons. change (items_size []) with 0.
      cbn [String.length] in *. lia.
  - intros s ms r. cbn [Json.members].
    destruct s as [|q s]; [discriminate|].
    destruct (Ascii.eqb q Str.dquote); [|discriminate].
    destruct (Json.string_body s) as [[k r1]|] eqn:Es; [|discriminate].
    apply (string_body_size _ _ _ _ (le_n _)) in Es.
    pose proof (skip_ws_length r1) as W1.
    destruct (Json.skip_ws r1) as [|c r2] eqn:E1; [discriminate|].
    destruct (Ascii.eqb c ":"); [|discriminate].
    pose proof (skip_ws_length r2) as W2.
    destruct (Json.value f (Json.skip_ws r2)) as [[v r3]|] eqn:Ev; [|discriminate].
    apply IHv in Ev. pose proof (skip_ws_length r3) as W3.
    destruct (Json.skip_ws r3) as [|c' r4] eqn:E3; [discriminate|].
    destruct (Ascii.eqb c' ",").
    + pose proof (skip_ws_length r4) as W4.
      destruct (Json.members f (Json.skip_ws r4)) as [[ms' rest]|] eqn:Em; [|discriminate].
      intros [= <- <-]. apply IHm in Em. rewrite props_size_cons.
      cbn [String.length] in *. lia.
    + destruct (Ascii.eqb c' "}"); [|discriminate].
      intros [= <- <-]. rewrite props_size_cons. change (props_size []) with 0.
      cbn [String.length] in *. lia.
Qed.

(** The value [JSON.parse] returns is smaller than the text it read. *)
Lemma parse_size (s : string) (v : json) :
  Json.parse s = Some v -> jsize v <= String.length s.
Proof.
  unfold Json.parse.
  destruct (Json.value _ _) as [[v' rest]|] eqn:E; [|discriminate].
  apply parser_size in E. pose proof (skip_ws_length s).
  destruct (Json.skip_ws rest); [|discriminate]. intros [= <-]. lia.
Qed.

Lemma value_S (f : nat) (c : ascii) (s : string) :
  Json.value (S f) (String c s)
  = if Ascii.eqb c "["
    then match Json.skip_ws s with
         | EmptyString => None
         | String c' r' as body =>
             if Ascii.eqb c' "]" then Some (JArray [], r')
             else match Json.elements f body with
                  | Some (l, rest) => Some (JArray l, rest)
                  | None => None
                  end
         end
    else if Ascii.eqb c "{"
    then match Json.skip_ws s with
         | EmptyString => None
         | String c' r' as body =>
             if Ascii.eqb c' "}" then Some (JObject [], r')
             else match Json.members f body with
                  | Some (ms, rest) => Some (JObject (Obj.assign [] ms), rest)
                  | None => None
                  end
         end
    else if Ascii.eqb c Str.dquote
    then match Json.string_body s with
         | Some (str, rest) => Some (JString str, rest)
         | None => None
         end
    else if Ascii.eqb c "-" || Str.is_digit c
    then match Json.number_literal (String c s) with
         | Some (n, rest) => Some (JNumber n, rest)
         | None => None
         end
    else Json.literal (String c s).
Proof. reflexivity. Qed.

Lemma elements_S (f : nat) (s : string) :
  Json.elements (S f) s
  = match Json.value f s with
    | Some (v, r) =>
        match Json.skip_ws r with
        | String c r' =>
            if Ascii.eqb c ","
            then match Json.elements f (Json.skip_ws r') with
                 | Some (l, rest) => Some (v :: l, rest)
                 | None => None
                 end
            else if Ascii.eqb c "]" then Some ([v], r') else None
        | EmptyString => None
        end
    | None => None
    end.
Proof. reflexivity. Qed.

Lemma members_S (f : nat) (q : ascii) (s : string) :
  Json.members (S f) (String q s)
  = if Ascii.eqb q Str.dquote
    then match Json.string_body s with
         | Some (k, r1) =>
             match Json.skip_ws r1 with
             | String c r2 =>
                 if Ascii.eqb c ":"
                 then match Json.value f (Json.skip_ws r2) with
                      | Some (v, r3) =>
                          match Json.skip_ws r3 with
                          | String c' r4 =>
                              if Ascii.eqb c' ","
                              then match Json.members f (Json.skip_ws r4) with
                                   | Some (ms, rest) => Some ((k, v) :: ms, rest)
                                   | None => None
                                   end
                              else if Ascii.eqb c' "}" then Some ([(k, v)], r4)
                              else None
                          | EmptyString => None
                          end
                      | None => None
                      end
                 else None
             | EmptyString => None
             end
         | None => None
         end
    else None.
Proof. reflexivity. Qed.

(** The fuel of [Json.parse] is enough: past twice the length of the
    text, more fuel does not change what the parser returns. *)
Lemma parser_fuel_enough (f : nat) :
  (forall s, 2 * String.length s <= f -> Json.value (S f) s = Json.value f s)
  /\ (forall s, 2 * String.length s + 1 <= f -> Json.elements (S f) s = Json.elements f s)
  /\ (forall s, 2 * String.length s + 1 <= f -> Json.members (S f) s = Json.members f s).
Proof.
  induction f as [|f (IHv & IHe & IHm)].
  { split; [|split]; intros s H; [|lia..].
    destruct s; [reflexivity|simpl in H; lia]. }
  split; [|split].
  - intros s H. destruct s as [|c s]; [reflexivity|].
    cbn [String.length] in H. rewrite (value_S (S f)), (value_S f).
    pose proof (skip_ws_length s) as W.
    destruct (Json.skip_ws s) as [|c' r'] eqn:E; [reflexivity|].
    rewrite IHe, IHm by (cbn [String.length] in *; lia). reflexivity.
  - intros s H. rewrite (elements_S (S f) s), (elements_S f s).
    rewrite IHv by lia.
    destruct (Json.value f s) as [[v r]|] eqn:Ev; [|reflexivity].
    apply parser_size in Ev. pose proof (jsize_pos v).
    pose proof (skip_ws_length r) as W.
    destruct (Json.skip_ws r) as [|c r'] eqn:E; [reflexivity|].
    pose proof (skip_ws_length r') as W'.
    rewrite IHe by (cbn [String.length] in *; lia). reflexivity.
  - intros s H. destruct s as [|q s]; [reflexivity|].
    rewrite (members_S (S f)), (members_S f).
    destruct (Ascii.eqb q Str.dquote); [|reflexivity].
    destruct (Json.string_body s) as [[k r1]|] eqn:Es; [|reflexivity].
    apply (string_body_size _ _ _ _ (le_n _)) in Es.
    pose proof (skip_ws_length r1) as W1.
    destruct (Json.skip_ws r1) as [|c r2] eqn:E1; [reflexivity|].
    destruct (Ascii.eqb c ":"); [|reflexivity].
    pose proof (skip_ws_length r2) as W2.
    rewrite IHv by (cbn [String.length] in *; lia).
    destruct (Json.value f (Json.skip_ws r2)) as [[v r3]|] eqn:Ev; [|reflexivity].
    apply parser_size in Ev.
    pose proof (skip_ws_length r3) as W3.
    destruct (Json.skip_ws r3) as [|c' r4] eqn:E3; [reflexivity|].
    pose proof (skip_ws_length r4) as W4.
    rewrite IHm by (cbn [String.length] in *; lia). reflexivity.
Qed.

Lemma parse_fuel_irrelevant (s : string) (extra : nat) :
  Json.value (2 * String.length s + 2 + extra) (Json.skip_ws s)
  = Json.value (2 * String.length s + 2) (Json.skip_ws s).
Proof.
  induction extra as [|n IH]; [now rewrite Nat.add_0_r|].
  rewrite Nat.add_succ_r.
  rewrite (proj1 (parser_fuel_enough _)); [exact IH|].
  pose proof (skip_ws_length s). lia.
Qed.

(* ------------------------------------------------------------------ *)
(** ** The flattener terminates *)

Lemma decode_size (val parsed : json) :
  Flatten.decode val = Some parsed -> jsize parsed < jsize val.
Proof.
  destruct val as [ | | | s | | ]; try discriminate. simpl.
  destruct (_ || _); [|discriminate].
  intros H. apply parse_size in H. pose proof (trim_length s). lia.
Qed.

Lemma decode_is_container (val parsed : json) :
  Flatten.decode val = Some parsed -> exists s, val = JString s.
Proof. destruct val; try discriminate. intros _. now eexists. Qed.

Lemma forEach_total {A : Type} (g : A -> nat -> list entry -> option (list entry))
    (l : list A) :
  (forall x, In x l -> forall i out, exists out', g x i out = Some out') ->
  forall i out, exists out', Flatten.forEach g i l out = Some out'.
Proof.
  induction l as [|x r IH]; intros H i out; simpl.
  - now exists out.
  - destruct (H x (or_introl eq_refl) i out) as [out1 E]. rewrite E.
    apply IH. intros y Hy. apply H. now right.
Qed.

(** With fuel for the size of the value, [helper] returns. *)
Lemma helper_total (fuel : nat) :
  forall val path out, jsize val <= fuel ->
  exists out', Flatten.helper fuel val path out = Some out'.
Proof.
  induction fuel as [|f IH]; intros val path out Hsize.
  { pose proof (jsize_pos val). lia. }
  cbn [Flatten.helper].
  destruct (Flatten.decode val) as [parsed|] eqn:D.
  { apply IH. apply decode_size in D. lia. }
  destruct val as [ | b | n | s | items | props ]; try (eexists; reflexivity).
  - rewrite jsize_array in Hsize. apply forEach_total.
    intros x Hx i out0. apply IH. pose proof (items_size_In items x Hx). lia.
  - rewrite jsize_object in Hsize. apply forEach_total.
    intros k _ i out0. destruct (Obj.get k props) as [v|] eqn:G.
    + apply IH. pose proof (get_size k props v G). lia.
    + now exists out0.
Qed.

Lemma forEach_ext {A : Type} (g h : A -> nat -> list entry -> option (list entry))
    (l : list A) :
  (forall x, In x l -> forall i out r, g x i out = Some r -> h x i out = Some r) ->
  forall i out r, Flatten.forEach g i l out = Some r -> Flatten.forEach h i l out = Some r.
Proof.
  induction l as [|x t IH]; intros H i out r; simpl; [trivial|].
  destruct (g x i out) as [out1|] eqn:E; [|discriminate].
  rewrite (H x (or_introl eq_refl) i out out1 E).
  apply IH. intros y Hy. apply H. now right.
Qed.

(** More fuel does not change what [helper] returns. *)
Lemma helper_fuel_mono (fuel : nat) :
  forall val path out r,
    Flatten.helper fuel val path out = Some r ->
    forall fuel', fuel <= fuel' -> Flatten.helper fuel' val path out = Some r.
Proof.
  induction fuel as [|f IH]; intros val path out r H fuel' Hle; [discriminate|].
  destruct fuel' as [|f']; [lia|]. assert (Hf : f <= f') by lia.
  cbn [Flatten.helper] in *.
  destruct (Flatten.decode val) as [parsed|]; [now apply IH with (fuel' := f') in H|].
  destruct val as [ | b | n | s | items | props ]; trivial.
  - revert H. apply forEach_ext. intros x _ i out0 r0 E. now apply IH with (fuel' := f') in E.
  - revert H. apply forEach_ext. intros k _ i out0 r0.
    destruct (Obj.get k props); [|trivial]. intros E. now apply IH with (fuel' := f') in E.
Qed.

(** [flatten] is the result of [helper], whatever fuel above the size of
    the payload it is given. *)
Lemma flatten_is_helper (payload : json) (fuel : nat) :
  jsize payload <= fuel ->
  Flatten.helper fuel payload EmptyString [] = Some (flatten payload).
Proof.
  intros H. unfold Flatten.flatten.
  destruct (helper_total (jsize payload) payload EmptyString [] (le_n _)) as [out E].
  rewrite E. now apply (helper_fuel_mono _ _ _ _ _ E).
Qed.

Example twice_encoded_flatten :
  flatten twice_encoded
  = [ {| path := "rates[0].gold_gram"; key := "gold_gram"; value := int 90 |};
      {| path := "rates[1].silver_gram"; key := "silver_gram"; value := JString "1.1" |} ].
Proof. vm_compute. reflexivity. Qed.

(** C8: the flattener terminates on every payload, whatever its depth and
    whatever JSON text its strings encode: [helper] returns as soon as its
    fuel reaches the size of the payload, and the result does not depend
    on the fuel; [flatten] is that result, a total function of the
    payload.  A string that decodes is flattened as the value it encodes,
    which is smaller than the string. *)
Theorem flatten_terminates (payload : json) :
  (forall prefix acc, exists out,
      forall fuel, jsize payload <= fuel ->
                   Flatten.helper fuel payload prefix acc = Some out)
  /\ (forall fuel, jsize payload <= fuel ->
                   Flatten.helper fuel payload EmptyString [] = Some (flatten payload))
  /\ (forall parsed, Flatten.decode payload = Some parsed ->
                     jsize parsed < jsize payload
                     /\ flatten payload = flatten parsed).
Proof.
  split; [|split].
  - intros prefix acc.
    destruct (helper_total (jsize payload) payload prefix acc (le_n _)) as [out E].
    exists out. intros fuel H. now apply (helper_fuel_mono _ _ _ _ _ E).
  - apply flatten_is_helper.
  - intros parsed D. pose proof (decode_size _ _ D) as Hlt. split; [exact Hlt|].
    pose proof (flatten_is_helper payload (jsize payload) (le_n _)) as H.
    destruct (jsize payload) as [|f] eqn:Ef; [lia|].
    cbn [Flatten.helper] in H. rewrite D in H.
    rewrite (flatten_is_helper parsed f) in H by lia.
    now injection H.
Qed.

Lemma flatten_terminates_witness :
  Flatten.helper 100 twice_encoded EmptyString [] = Some (flatten twice_encoded).
Proof.
  apply (proj1 (proj2 (flatten_terminates twice_encoded))). vm_compute.
  repeat constructor.
Defined.

(* ------------------------------------------------------------------ *)
(** ** Flattening again *)

Lemma forEach_pushes_leaves {A : Type}
    (g : A -> nat -> list entry -> option (list entry)) (l : list A) :
  (forall x i out r, g x i out = Some r ->
                     exists new, r = out ++ new /\ leaf_entries new) ->
  forall i out r, Flatten.forEach g i l out = Some r ->
                  exists new, r = out ++ new /\ leaf_entries new.
Proof.
  intros Hg. induction l as [|x t IH]; intros i out r; simpl.
  - intros [= <-]. exists []. split; [now rewrite app_nil_r|constructor].
  - destruct (g x i out) as [out1|] eqn:E; [|discriminate].
    intros H. destruct (Hg _ _ _ _ E) as (n1 & -> & L1).
    destruct (IH _ _ _ H) as (n2 & -> & L2).
    exists (n1 ++ n2). split; [now rewrite app_assoc|now apply Forall_app].
Qed.

Lemma helper_pushes_leaves (fuel : nat) :
  forall val path out r,
    Flatten.helper fuel val path out = Some r ->
    exists new, r = out ++ new /\ leaf_entries new.
Proof.
  induction fuel as [|f IH]; intros val path out r; [discriminate|].
  cbn [Flatten.helper].
  destruct (Flatten.decode val) as [parsed|] eqn:D; [apply IH|].
  assert (L : Js.is_object val = false ->
              Some (out ++ [Flatten.leaf val path]) = Some r ->
              exists new, r = out ++ new /\ leaf_entries new).
  { intros Ho [= <-]. exists [Flatten.leaf val path]. split; [reflexivity|].
    constructor; [|constructor]. unfold is_leaf. simpl. now rewrite D, Ho. }
  destruct val as [ | b | n | s | items | props ]; try (now apply L).
  - apply forEach_pushes_leaves. intros x i out0 r0. apply IH.
  - apply forEach_pushes_leaves. intros k i out0 r0.
    destruct (Obj.get k props); [apply IH|].
    intros [= <-]. exists []. split; [now rewrite app_nil_r|constructor].
Qed.

Lemma flatten_leaves (payload : json) : leaf_entries (flatten payload).
Proof.
  pose proof (flatten_is_helper payload (jsize payload) (le_n _)) as H.
  apply helper_pushes_leaves in H. destruct H as (new & -> & L). exact L.
Qed.

Lemma helper_leaf_object (f : nat) (k : string) (v : json) (path : string)
    (out : list entry) :
  is_leaf v = true ->
  Flatten.helper (S (S f)) (JObject [(k, v)]) path out
  = Some (out ++ [Flatten.leaf v (Flatten.child_path path k)]).
Proof.
  intros L. unfold is_leaf in L.
  cbn [Flatten.helper Flatten.decode Obj.keys List.map fst Flatten.forEach Obj.get].
  rewrite String.eqb_refl.
  destruct (Flatten.decode v); [discriminate|].
  destruct v; try reflexivity; discriminate.
Qed.

Lemma forEach_reconstructed (f : nat) (entries : list entry) :
  leaf_entries entries ->
  forall i out, exists r,
    Flatten.forEach
      (fun item i => Flatten.helper (S (S f)) item (Flatten.index_path EmptyString i))
      i (List.map (fun e => JObject [(key e, value e)]) entries) out = Some r
    /\ List.map value r = List.map value out ++ List.map value entries.
Proof.
  induction 1 as [|e t He Ht IH]; intros i out; cbn [List.map Flatten.forEach].
  - exists out. split; [reflexivity|now rewrite app_nil_r].
  - rewrite (helper_leaf_object f _ _ _ _ He).
    destruct (IH (S i) (out ++ [Flatten.leaf (value e)
                                  (Flatten.child_path (Flatten.index_path EmptyString i) (key e))]))
      as (r & E & V).
    exists r. split; [exact E|]. rewrite V, map_app. simpl. now rewrite <- app_assoc.
Qed.

Lemma helper_array (f : nat) (items : list json) (path : string) (out : list entry) :
  Flatten.helper (S f) (JArray items) path out
  = Flatten.forEach (fun item i => Flatten.helper f item (Flatten.index_path path i))
      0 items out.
Proof. reflexivity. Qed.

Lemma flatten_reconstruct_values (entries : list entry) :
  leaf_entries entries ->
  List.map value (flatten (reconstruct entries)) = List.map value entries.
Proof.
  intros L.
  pose proof (flatten_is_helper (reconstruct entries)
                (S (S (S (jsize (reconstruct entries))))) ltac:(lia)) as H.
  set (n := jsize (reconstruct entries)) in H.
  unfold reconstruct in H at 1. rewrite helper_array in H.
  destruct (forEach_reconstructed n entries L 0 []) as (r & E & V).
  rewrite E in H. injection H as <-. exact V.
Qed.

(** C9: flattening is idempotent.  Flattening the payload made of one
    single-property object for each flat entry yields the leaf values of
    the first flattening: the same list, hence the same multiset. *)
Theorem flatten_idempotent (payload : json) :
  List.map value (flatten (reconstruct (flatten payload)))
  = List.map value (flatten payload)
  /\ Permutation (List.map value (flatten (reconstruct (flatten payload))))
                 (List.map value (flatten payload)).
Proof.
  pose proof (flatten_reconstruct_values (flatten payload) (flatten_leaves payload)) as E.
  split; [exact E|]. rewrite E. apply Permutation_refl.
Qed.

(** Two entries may have the same path: a single object keyed by the
    paths would keep one of them only, which is why [reconstruct] makes
    one object for each entry. *)
Example paths_may_collide :
  let payload := JObject [("a", JObject [("b", int 1)]); ("a.b", int 2)] in
  List.map path (flatten payload) = ["a.b"; "a.b"]
  /\ List.map value (flatten payload) = [int 1; int 2]
  /\ Obj.assign [] (List.map (fun e => (path e, value e)) (flatten payload))
     = [("a.b", int 2)].
Proof. vm_compute. repeat split. Qed.

Example twice_encoded_reflatten :
  flatten (reconstruct (flatten twice_encoded))
  = [ {| path := "[0].gold_gram"; key := "gold_gram"; value := int 90 |};
      {| path := "[1].silver_gram"; key := "silver_gram"; value := JString "1.1" |} ].
Proof. vm_compute. reflexivity. Qed.

(* ------------------------------------------------------------------ *)
(** ** The order of Numbers and the sign of a difference *)

Section NumberOrder.
Local Open Scope Z_scope.

Lemma digits2_size (m : positive) : digits2_pos m = Pos.size m.
Proof. induction m as [m IH|m IH|]; simpl; now rewrite ?IH. Qed.

Lemma digits2_upper (m : positive) : Zpos m < 2 ^ Zpos (digits2_pos m).
Proof.
  rewrite digits2_size. pose proof (Pos.size_gt m) as H.
  rewrite <- Pos2Z.inj_pow. exact H.
Qed.

Lemma digits2_lower (m : positive) : 2 ^ Zpos (digits2_pos m) <= 2 * Zpos m.
Proof.
  rewrite digits2_size. pose proof (Pos.size_le m) as H.
  rewrite <- Pos2Z.inj_pow. exact H.
Qed.

(** A valid finite Number: its exponent is at least [emin]; above [emin]
    its mantissa has all its 53 digits. *)
Lemma bounded_canonical (m : positive) (e : Z) :
  bounded Num.prec Num.emax m e = true ->
  -1074 <= e /\ Zpos (digits2_pos m) <= 53 /\ (-1074 < e -> Zpos (digits2_pos m) = 53).
Proof.
  unfold bounded, canonical_mantissa, fexp, emin, Num.prec, Num.emax.
  intros H. apply andb_true_iff in H. destruct H as [H _].
  apply Z.eqb_eq in H. lia.
Qed.

Lemma shr_1_div2 (mrs : shr_record) :
  0 <= shr_m mrs -> shr_m (shr_1 mrs) = shr_m mrs / 2.
Proof.
  destruct mrs as [m r s]. simpl. intros H.
  destruct m as [|[p|p|]|p]; simpl; try reflexivity; try lia.
  - rewrite Pos2Z.inj_xI. apply Z.div_unique with (r := 1); lia.
  - rewrite Pos2Z.inj_xO. apply Z.div_unique with (r := 0); lia.
Qed.

Lemma iter_shr_1 (p : positive) :
  forall mrs, 0 <= shr_m mrs ->
              shr_m (iter_pos shr_1 p mrs) = shr_m mrs / 2 ^ Zpos p.
Proof.
  assert (nonneg : forall q mrs, 0 <= shr_m mrs -> 0 <= shr_m mrs / 2 ^ Zpos q).
  { intros q mrs H. apply Z.div_pos; [exact H|]. apply Z.pow_pos_nonneg; lia. }
  induction p as [p IH|p IH|]; intros mrs H; cbn [iter_pos].
  - assert (H1 : 0 <= shr_m (shr_1 mrs)).
    { rewrite shr_1_div2 by exact H. apply Z.div_pos; lia. }
    rewrite IH; [rewrite IH by exact H1|rewrite IH by exact H1; now apply nonneg].
    rewrite shr_1_div2 by exact H.
    rewrite !Z.div_div by (try apply Z.pow_pos_nonneg; try apply Z.pow_nonzero; lia).
    f_equal. replace (Zpos p~1) with (1 + (Zpos p + Zpos p)) by lia.
    rewrite Z.pow_add_r, Z.pow_add_r by lia. lia.
  - rewrite IH; [rewrite IH by exact H|rewrite IH by exact H; now apply nonneg].
    rewrite Z.div_div by (try apply Z.pow_pos_nonneg; try apply Z.pow_nonzero; lia).
    f_equal. replace (Zpos p~0) with (Zpos p + Zpos p) by lia.
    rewrite Z.pow_add_r by lia. lia.
  - rewrite shr_1_div2 by exact H. reflexivity.
Qed.

Lemma shr_record_of_loc_m (m : Z) (l : location) : shr_m (shr_record_of_loc m l) = m.
Proof. destruct l as [|[]]; reflexivity. Qed.

(** Shifting a positive mantissa to its place keeps it positive, at an
    exponent that is still at least [emin]. *)
Lemma shr_fexp_positive (m : positive) (e : Z) (l : location) :
  -1074 <= e ->
  0 < shr_m (fst (shr_fexp Num.prec Num.emax (Zpos m) e l))
  /\ -1074 <= snd (shr_fexp Num.prec Num.emax (Zpos m) e l).
Proof.
  intros He. unfold shr_fexp, shr, fexp, emin, Num.prec, Num.emax.
  cbn [Zdigits2].
  pose proof (digits2_upper m) as U. pose proof (digits2_lower m) as L.
  set (d := Zpos (digits2_pos m)) in *.
  destruct (Z.max (d + e - 53) (3 - 1024 - 53) - e) as [|n|n] eqn:E; cbn [fst snd].
  - rewrite shr_record_of_loc_m. lia.
  - rewrite iter_shr_1 by (rewrite shr_record_of_loc_m; lia).
    rewrite shr_record_of_loc_m.
    assert (Hn : Zpos n = d - 53) by lia.
    split; [|lia]. apply Z.div_str_pos. split; [apply Z.pow_pos_nonneg; lia|].
    assert (2 ^ d = 2 ^ Zpos n * 2 ^ 53).
    { rewrite <- Z.pow_add_r by lia. f_equal. lia. }
    assert (2 <= 2 ^ 53) by (vm_compute; discriminate).
    assert (0 < 2 ^ Zpos n) by (apply Z.pow_pos_nonneg; lia).
    nia.
  - rewrite shr_record_of_loc_m. lia.
Qed.

Lemma round_nearest_even_positive (m : Z) (l : location) :
  0 < m -> 0 < round_nearest_even m l.
Proof. intros H. destruct l as [|[]]; simpl; try lia. destruct (Z.even m); lia. Qed.

(** Rounding a positive mantissa at an exponent that is at least [emin]
    gives a finite Number of the same sign, or the infinity of that
    sign: never a zero. *)
Lemma binary_round_aux_sign (s : bool) (m : positive) (e : Z) (l : location) :
  -1074 <= e ->
  (exists m' e', binary_round_aux Num.prec Num.emax s (Zpos m) e l = S754_finite s m' e')
  \/ binary_round_aux Num.prec Num.emax s (Zpos m) e l = S754_infinity s.
Proof.
  intros He. unfold binary_round_aux.
  destruct (shr_fexp_positive m e l He) as [P1 E1].
  destruct (shr_fexp Num.prec Num.emax (Zpos m) e l) as [mrs1 e1]. cbn [fst snd] in *.
  pose proof (round_nearest_even_positive _ (loc_of_shr_record mrs1) P1) as P2.
  destruct (round_nearest_even (shr_m mrs1) (loc_of_shr_record mrs1)) as [|m2|m2]; try lia.
  destruct (shr_fexp_positive m2 e1 loc_Exact E1) as [P3 E3].
  destruct (shr_fexp Num.prec Num.emax (Zpos m2) e1 loc_Exact) as [mrs3 e3].
  cbn [fst snd] in *.
  destruct (shr_m mrs3) as [|m3|m3]; try lia.
  destruct (e3 <=? Num.emax - Num.prec); [left; now eexists; eexists|now right].
Qed.

Lemma iter_xO (m d : positive) : Zpos (Pos.iter xO m d) = Zpos m * 2 ^ Zpos d.
Proof.
  induction d as [|d IH] using Pos.peano_ind.
  - simpl. lia.
  - rewrite Pos.iter_succ, Pos2Z.inj_xO, IH, Pos2Z.inj_succ, Z.pow_succ_r by lia. lia.
Qed.

Lemma shl_align_spec (m : positive) (e e' : Z) :
  e' <= e ->
  Zpos (fst (shl_align m e e')) = Zpos m * 2 ^ (e - e')
  /\ snd (shl_align m e e') = e'.
Proof.
  intros H. unfold shl_align.
  destruct (e' - e) as [|d|d] eqn:E; cbn [fst snd].
  - replace (e - e') with 0 by lia. simpl. lia.
  - lia.
  - rewrite iter_xO. replace (e - e') with (Zpos d) by lia. lia.
Qed.

Lemma binary_round_sign (s : bool) (m : positive) (e : Z) :
  -1074 <= e ->
  (exists m' e', binary_round Num.prec Num.emax s m e = S754_finite s m' e')
  \/ binary_round Num.prec Num.emax s m e = S754_infinity s.
Proof.
  intros He. unfold binary_round.
  set (t := fexp Num.prec Num.emax (Zpos (digits2_pos m) + e)).
  assert (Ht : -1074 <= t).
  { unfold t, fexp, emin, Num.prec, Num.emax. lia. }
  destruct (shl_align m e t) as [mz ez] eqn:E.
  apply binary_round_aux_sign.
  unfold shl_align in E. destruct (t - e) eqn:D; injection E as <- <-; lia.
Qed.

Lemma SFcompare_rank (a b : number) :
  Num.isNaN a = false -> Num.isNaN b = false ->
  SFcompare a b = Some (lex (rank a) (rank b)).
Proof.
  destruct a as [sa|sa| |sa ma ea], b as [sb|sb| |sb mb eb]; try discriminate;
    intros _ _; try (destruct sa); try (destruct sb); try reflexivity.
  cbn -[Z.compare]. change (-1 ?= -1) with Eq. cbv iota.
  rewrite Z.compare_opp, (Z.compare_antisym ea eb).
  destruct (ea ?= eb); reflexivity.
Qed.

Lemma lex_Lt (a1 a2 a3 b1 b2 b3 : Z) :
  lex (a1, a2, a3) (b1, b2, b3) = Lt
  <-> a1 < b1 \/ (a1 = b1 /\ (a2 < b2 \/ (a2 = b2 /\ a3 < b3))).
Proof.
  unfold lex.
  destruct (Z.compare_spec a1 b1), (Z.compare_spec a2 b2), (Z.compare_spec a3 b3);
    split; intros HH; try lia; try discriminate; reflexivity.
Qed.

Lemma lex_not_Gt (a1 a2 a3 b1 b2 b3 : Z) :
  lex (a1, a2, a3) (b1, b2, b3) <> Gt
  <-> a1 < b1 \/ (a1 = b1 /\ (a2 < b2 \/ (a2 = b2 /\ a3 <= b3))).
Proof.
  unfold lex.
  destruct (Z.compare_spec a1 b1), (Z.compare_spec a2 b2), (Z.compare_spec a3 b3);
    split; intros HH; try lia; try discriminate; try (exfalso; now apply HH).
Qed.

Lemma SFltb_rank (a b : number) :
  Num.isNaN a = false -> Num.isNaN b = false ->
  SFltb a b = true <-> lex (rank a) (rank b) = Lt.
Proof.
  intros Ha Hb. unfold SFltb. rewrite (SFcompare_rank a b Ha Hb).
  destruct (lex _ _); split; congruence.
Qed.

Lemma SFleb_rank (a b : number) :
  Num.isNaN a = false -> Num.isNaN b = false ->
  SFleb a b = true <-> lex (rank a) (rank b) <> Gt.
Proof.
  intros Ha Hb. unfold SFleb. rewrite (SFcompare_rank a b Ha Hb).
  destruct (lex _ _); split; congruence.
Qed.

Lemma SFleb_trans (a b c : number) :
  Num.isNaN a = false -> Num.isNaN b = false -> Num.isNaN c = false ->
  SFleb a b = true -> SFleb b c = true -> SFleb a c = true.
Proof.
  intros Ha Hb Hc. rewrite !SFleb_rank by assumption.
  destruct (rank a) as [[a1 a2] a3], (rank b) as [[b1 b2] b3], (rank c) as [[c1 c2] c3].
  rewrite !lex_not_Gt. lia.
Qed.

Lemma SFltb_false_SFleb (a b : number) :
  Num.isNaN a = false -> Num.isNaN b = false ->
  SFltb a b = false -> SFleb b a = true.
Proof.
  intros Ha Hb H. apply SFleb_rank; [assumption..|].
  assert (N : lex (rank a) (rank b) <> Lt).
  { intros L. apply SFltb_rank in L; [congruence|assumption..]. }
  destruct (rank a) as [[a1 a2] a3], (rank b) as [[b1 b2] b3].
  rewrite lex_Lt in N. rewrite lex_not_Gt. lia.
Qed.

Lemma SFltb_SFleb (a b : number) :
  Num.isNaN a = false -> Num.isNaN b = false ->
  SFltb a b = true -> SFleb a b = true.
Proof.
  intros Ha Hb. rewrite SFltb_rank, SFleb_rank by assumption. congruence.
Qed.

(** JavaScript's [x == x] holds of every Number but [NaN]. *)
Lemma SFeqb_refl (a : number) : Num.isNaN a = false -> SFeqb a a = true.
Proof.
  intros Ha. unfold SFeqb. rewrite (SFcompare_rank a a Ha Ha).
  destruct (rank a) as [[a1 a2] a3]. unfold lex. now rewrite !Z.compare_refl.
Qed.

(** Of two valid finite Numbers, the one with the larger exponent has the
    larger magnitude. *)
Lemma canonical_exponent_order (m1 m2 : positive) (e1 e2 : Z) :
  bounded Num.prec Num.emax m1 e1 = true ->
  bounded Num.prec Num.emax m2 e2 = true ->
  e1 < e2 -> Zpos m1 < Zpos m2 * 2 ^ (e2 - e1).
Proof.
  intros B1 B2 H.
  apply bounded_canonical in B1, B2. destruct B1 as (L1 & D1 & _), B2 as (_ & _ & F2).
  specialize (F2 ltac:(lia)).
  pose proof (digits2_upper m1) as U1. pose proof (digits2_lower m2) as L2.
  rewrite F2 in L2.
  assert (2 ^ Zpos (digits2_pos m1) <= 2 ^ 53) by (apply Z.pow_le_mono_r; lia).
  assert (2 ^ 1 <= 2 ^ (e2 - e1)) by (apply Z.pow_le_mono_r; lia).
  change (2 ^ 1) with 2 in *. nia.
Qed.

Lemma gt0_binary_normalize (d e : Z) :
  -1074 <= e ->
  Num.gt0 (binary_normalize Num.prec Num.emax d e false) = (0 <? d).
Proof.
  intros He. destruct d as [|p|p]; cbn [binary_normalize].
  - reflexivity.
  - destruct (binary_round_sign false p e He) as [(m' & e' & ->)| ->]; reflexivity.
  - destruct (binary_round_sign true p e He) as [(m' & e' & ->)| ->]; reflexivity.
Qed.

(** The comparator of the handler, [b - a > 0], holds exactly when
    [a < b], for valid Numbers that are not [NaN]. *)
Lemma difference_sign (a b : number) :
  Num.valid a = true -> Num.valid b = true ->
  Num.isNaN a = false -> Num.isNaN b = false ->
  Num.gt0 (Num.sub b a) = SFltb a b.
Proof.
  destruct a as [sa|sa| |sa ma ea], b as [sb|sb| |sb mb eb]; try discriminate;
    intros Va Vb _ _;
    try (destruct sa, sb; reflexivity); try (destruct sa; reflexivity);
    try (destruct sb; reflexivity).
  unfold Num.valid, valid_binary in Va, Vb.
  pose proof (bounded_canonical _ _ Va) as (La & _ & _).
  pose proof (bounded_canonical _ _ Vb) as (Lb & _ & _).
  unfold Num.sub, SFsub.
  rewrite gt0_binary_normalize by lia.
  destruct (shl_align_spec mb eb (Z.min eb ea) ltac:(lia)) as [-> _].
  destruct (shl_align_spec ma ea (Z.min eb ea) ltac:(lia)) as [-> _].
  assert (Pa : 0 < 2 ^ (ea - Z.min eb ea)) by (apply Z.pow_pos_nonneg; lia).
  assert (Pb : 0 < 2 ^ (eb - Z.min eb ea)) by (apply Z.pow_pos_nonneg; lia).
  assert (O1 : ea < eb -> Zpos ma < Zpos mb * 2 ^ (eb - ea))
    by (apply canonical_exponent_order; assumption).
  assert (O2 : eb < ea -> Zpos mb < Zpos ma * 2 ^ (ea - eb))
    by (apply canonical_exponent_order; assumption).
  apply eq_true_iff_eq. rewrite Z.ltb_lt.
  rewrite SFltb_rank by reflexivity.
  destruct sa, sb; cbn [rank cond_Zopp]; rewrite lex_Lt.
  - (* both negative *)
    destruct (Z.lt_trichotomy ea eb) as [H|[H|H]].
    + specialize (O1 H). replace (Z.min eb ea) with ea in * by lia.
      rewrite Z.sub_diag in *. nia.
    + subst eb. replace (Z.min ea ea) with ea in * by lia.
      rewrite Z.sub_diag in *. lia.
    + specialize (O2 H). replace (Z.min eb ea) with eb in * by lia.
      rewrite Z.sub_diag in *. nia.
  - nia.
  - nia.
  - destruct (Z.lt_trichotomy ea eb) as [H|[H|H]].
    + specialize (O1 H). replace (Z.min eb ea) with ea in * by lia.
      rewrite Z.sub_diag in *. nia.
    + subst eb. replace (Z.min ea ea) with ea in * by lia.
      rewrite Z.sub_diag in *. lia.
    + specialize (O2 H). replace (Z.min eb ea) with eb in * by lia.
      rewrite Z.sub_diag in *. nia.
Qed.

End NumberOrder.

(* ------------------------------------------------------------------ *)
(** ** Numbers that come out of a conversion are binary64 Numbers *)

Section Validity.
Local Open Scope Z_scope.

Lemma Zdigits2_log2 (m : Z) : 0 < m -> Zdigits2 m = Z.log2 m + 1.
Proof.
  destruct m as [|p|p]; try lia. intros _. cbn [Zdigits2].
  rewrite digits2_size. destruct p; simpl; lia.
Qed.

Lemma fexp_eq (x : Z) : fexp Num.prec Num.emax x = Z.max (x - 53) (-1074).
Proof. reflexivity. Qed.

Lemma shr_pair (mrs : shr_record) (e n : Z) :
  0 <= shr_m mrs -> 0 <= n ->
  shr_m (fst (shr mrs e n)) = shr_m mrs / 2 ^ n /\ snd (shr mrs e n) = e + n.
Proof.
  intros Hm Hn. unfold shr. destruct n as [|p|p]; cbn [fst snd]; try lia.
  - rewrite Z.pow_0_r, Z.div_1_r. lia.
  - now rewrite iter_shr_1.
Qed.

Lemma div_pow2_log2 (m n : Z) :
  0 < m -> 0 <= n ->
  (n <= Z.log2 m -> 0 < m / 2 ^ n /\ Z.log2 (m / 2 ^ n) = Z.log2 m - n)
  /\ (Z.log2 m < n -> m / 2 ^ n = 0).
Proof.
  intros Hm Hn. pose proof (Z.log2_spec m Hm) as [L U].
  assert (P : 0 < 2 ^ n) by (apply Z.pow_pos_nonneg; lia).
  split; intros H.
  - assert (E : 2 ^ Z.log2 m = 2 ^ n * 2 ^ (Z.log2 m - n)).
    { rewrite <- Z.pow_add_r by lia. f_equal. lia. }
    assert (P' : 0 < 2 ^ (Z.log2 m - n)) by (apply Z.pow_pos_nonneg; lia).
    assert (Q : 2 ^ (Z.log2 m - n) <= m / 2 ^ n).
    { apply Z.div_le_lower_bound; lia. }
    split; [lia|].
    apply Z.log2_unique; [lia|]. split; [exact Q|].
    apply Z.div_lt_upper_bound; [lia|].
    replace (2 ^ n * 2 ^ Z.succ (Z.log2 m - n)) with (2 ^ Z.succ (Z.log2 m)); [lia|].
    rewrite <- Z.pow_add_r by lia. f_equal. lia.
  - apply Z.div_small. split; [lia|].
    assert (2 ^ Z.succ (Z.log2 m) <= 2 ^ n) by (apply Z.pow_le_mono_r; lia). lia.
Qed.

(** Shifting a mantissa that is precise enough puts it at its canonical
    exponent; when nothing is left of it, that exponent is [emin]. *)
Lemma shr_fexp_canonical (m e : Z) (l : location) :
  0 < m -> e <= fexp Num.prec Num.emax (Zdigits2 m + e) ->
  let m' := shr_m (fst (shr_fexp Num.prec Num.emax m e l)) in
  let e' := snd (shr_fexp Num.prec Num.emax m e l) in
  0 <= m'
  /\ (0 < m' -> fexp Num.prec Num.emax (Zdigits2 m' + e') = e')
  /\ (m' = 0 -> e' = -1074).
Proof.
  intros Hm He. unfold shr_fexp.
  set (t := fexp Num.prec Num.emax (Zdigits2 m + e)) in *.
  destruct (shr_pair (shr_record_of_loc m l) e (t - e)) as [E1 E2];
    [rewrite shr_record_of_loc_m; lia|lia|].
  cbv zeta. rewrite E1, E2, shr_record_of_loc_m.
  replace (e + (t - e)) with t by lia.
  destruct (div_pow2_log2 m (t - e) Hm ltac:(lia)) as [A B].
  assert (Ht : t = Z.max (Z.log2 m + 1 + e - 53) (-1074)).
  { unfold t. now rewrite fexp_eq, (Zdigits2_log2 m Hm). }
  clearbody t.
  destruct (Z_le_gt_dec (t - e) (Z.log2 m)) as [C|C].
  - destruct (A C) as [P L]. split; [lia|]. split; [|lia].
    intros _. rewrite (Zdigits2_log2 _ P), L, fexp_eq. lia.
  - rewrite (B ltac:(lia)). split; [lia|]. split; [lia|]. intros _. lia.
Qed.

Lemma shr_fexp_zero (e : Z) (l : location) :
  shr_m (fst (shr_fexp Num.prec Num.emax 0 e l)) = 0.
Proof.
  unfold shr_fexp, shr.
  destruct (fexp Num.prec Num.emax (Zdigits2 0 + e) - e) as [|p|p]; cbn [fst];
    try apply shr_record_of_loc_m.
  rewrite iter_shr_1 by (rewrite shr_record_of_loc_m; lia).
  now rewrite shr_record_of_loc_m.
Qed.

Lemma shr_fexp_zero_emin (l : location) :
  fst (shr_fexp Num.prec Num.emax 0 (-1074) l) = shr_record_of_loc 0 l
  /\ snd (shr_fexp Num.prec Num.emax 0 (-1074) l) = -1074.
Proof. split; reflexivity. Qed.

Lemma round_nearest_even_cases (m : Z) (l : location) :
  round_nearest_even m l = m \/ round_nearest_even m l = m + 1.
Proof. destruct l as [|[]]; simpl; auto. destruct (Z.even m); auto. Qed.

Lemma canonical_is_valid (s : bool) (m : positive) (e : Z) :
  fexp Num.prec Num.emax (Zdigits2 (Zpos m) + e) = e ->
  Num.valid (if e <=? Num.emax - Num.prec then S754_finite s m e else S754_infinity s)
  = true.
Proof.
  intros H. destruct (e <=? Num.emax - Num.prec) eqn:E; [|reflexivity].
  unfold Num.valid, valid_binary, bounded, canonical_mantissa.
  cbn [Zdigits2] in H. rewrite H, Z.eqb_refl, E. reflexivity.
Qed.

(** The second half of [binary_round_aux]: a mantissa at an exponent
    that is not above its canonical one. *)
Lemma round_tail_valid (s : bool) (m2 e1 : Z) :
  0 <= m2 ->
  (0 < m2 -> e1 <= fexp Num.prec Num.emax (Zdigits2 m2 + e1)) ->
  Num.valid
    (let '(mrs, e2) := shr_fexp Num.prec Num.emax m2 e1 loc_Exact in
     match shr_m mrs with
     | Z0 => S754_zero s
     | Zpos m => if e2 <=? Num.emax - Num.prec then S754_finite s m e2
                 else S754_infinity s
     | Zneg _ => S754_nan
     end) = true.
Proof.
  intros H0 H. destruct (Z.eq_dec m2 0) as [->|N].
  - pose proof (shr_fexp_zero e1 loc_Exact) as Z.
    destruct (shr_fexp Num.prec Num.emax 0 e1 loc_Exact) as [mrs e2].
    cbn [fst] in Z. now rewrite Z.
  - assert (P : 0 < m2) by lia.
    pose proof (shr_fexp_canonical m2 e1 loc_Exact P (H P)) as (A & B & _).
    cbv zeta in A, B.
    destruct (shr_fexp Num.prec Num.emax m2 e1 loc_Exact) as [mrs e2].
    cbn [fst snd] in A, B.
    destruct (shr_m mrs) as [|m|m]; [reflexivity| |lia].
    apply canonical_is_valid, B. lia.
Qed.

Lemma fexp_mono (x y : Z) :
  x <= y -> fexp Num.prec Num.emax x <= fexp Num.prec Num.emax y.
Proof. rewrite !fexp_eq. lia. Qed.

(** [binary_round_aux] returns a valid Number when its mantissa is
    precise enough, and when it is zero at the exponent [emin]. *)
Lemma binary_round_aux_valid (s : bool) (m e : Z) (l : location) :
  (0 < m /\ e <= fexp Num.prec Num.emax (Zdigits2 m + e)) \/ (m = 0 /\ e = -1074) ->
  Num.valid (binary_round_aux Num.prec Num.emax s m e l) = true.
Proof.
  intros H. unfold binary_round_aux.
  assert (S1 : let m1 := shr_m (fst (shr_fexp Num.prec Num.emax m e l)) in
               let e1 := snd (shr_fexp Num.prec Num.emax m e l) in
               0 <= m1
               /\ (0 < m1 -> fexp Num.prec Num.emax (Zdigits2 m1 + e1) = e1)
               /\ (m1 = 0 -> e1 = -1074)).
  { destruct H as [[P He]|[-> ->]]; [now apply shr_fexp_canonical|].
    destruct (shr_fexp_zero_emin l) as [-> ->]. cbv zeta.
    rewrite shr_record_of_loc_m. repeat split; lia. }
  cbv zeta in S1.
  destruct (shr_fexp Num.prec Num.emax m e l) as [mrs1 e1]. cbn [fst snd] in S1.
  destruct S1 as (A & B & C).
  set (m2 := round_nearest_even (shr_m mrs1) (loc_of_shr_record mrs1)).
  apply (round_tail_valid s m2 e1).
  - destruct (round_nearest_even_cases (shr_m mrs1) (loc_of_shr_record mrs1));
      unfold m2; lia.
  - intros P2. destruct (Z.eq_dec (shr_m mrs1) 0) as [Z|N].
    + rewrite (C Z), fexp_eq. lia.
    + assert (P1 : 0 < shr_m mrs1) by lia.
      rewrite <- (B P1) at 1. apply fexp_mono.
      rewrite (Zdigits2_log2 _ P1), (Zdigits2_log2 _ P2).
      assert (Z.log2 (shr_m mrs1) <= Z.log2 m2); [|lia].
      apply Z.log2_le_mono.
      destruct (round_nearest_even_cases (shr_m mrs1) (loc_of_shr_record mrs1));
        unfold m2; lia.
Qed.

Lemma binary_round_valid (s : bool) (m : positive) (e : Z) :
  Num.valid (binary_round Num.prec Num.emax s m e) = true.
Proof.
  unfold binary_round.
  set (t := fexp Num.prec Num.emax (Zpos (digits2_pos m) + e)).
  destruct (shl_align m e t) as [mz ez] eqn:E.
  apply binary_round_aux_valid. left. split; [lia|].
  change (Zpos (digits2_pos m)) with (Zdigits2 (Zpos m)) in t.
  destruct (Z_le_gt_dec t e) as [C|C].
  - destruct (shl_align_spec m e t C) as [F S]. rewrite E in F, S. cbn [fst snd] in F, S.
    subst ez. rewrite F.
    assert (D : Zdigits2 (Zpos m * 2 ^ (e - t)) + t = Zdigits2 (Zpos m) + e).
    { rewrite !Zdigits2_log2 by (try apply Z.mul_pos_pos; try apply Z.pow_pos_nonneg; lia).
      rewrite Z.log2_mul_pow2 by lia. lia. }
    rewrite D. fold t. lia.
  - unfold shl_align in E. destruct (t - e) eqn:D; try lia.
    injection E as <- <-. fold t. lia.
Qed.

Lemma log2_div_lower (a b : Z) :
  0 < b -> b <= a -> Z.log2 a - Z.log2 b - 1 <= Z.log2 (a / b).
Proof.
  intros Hb Hab.
  assert (Ha : 0 < a) by lia.
  pose proof (Z.log2_spec a Ha) as [La Ua]. pose proof (Z.log2_spec b Hb) as [Lb Ub].
  assert (Q : 0 < a / b) by (apply Z.div_str_pos; lia).
  pose proof (Z.log2_nonneg a) as Na. pose proof (Z.log2_nonneg b) as Nb.
  destruct (Z_le_gt_dec (Z.log2 a - Z.log2 b - 1) 0) as [C|C].
  - pose proof (Z.log2_nonneg (a / b)). lia.
  - apply Z.log2_le_pow2; [lia|].
    apply Z.div_le_lower_bound; [lia|].
    assert (E : 2 ^ Z.log2 a = 2 ^ Z.succ (Z.log2 b) * 2 ^ (Z.log2 a - Z.log2 b - 1)).
    { rewrite <- Z.pow_add_r by lia. f_equal. lia. }
    assert (0 < 2 ^ (Z.log2 a - Z.log2 b - 1)) by (apply Z.pow_pos_nonneg; lia).
    nia.
Qed.

(** The quotient of two positive integers, rounded to a Number. *)
Lemma div_integers_valid (s : bool) (p q : positive) :
  Num.valid (Num.div (S754_finite s p 0) (S754_finite false q 0)) = true.
Proof.
  unfold Num.div, SFdiv, SFdiv_core_binary.
  set (d1 := Zdigits2 (Zpos p)). set (d2 := Zdigits2 (Zpos q)).
  replace (d1 + 0 - (d2 + 0)) with (d1 - d2) by lia.
  set (e' := Z.min (fexp Num.prec Num.emax (d1 - d2)) (0 - 0)).
  assert (He' : e' = Z.min (Z.max (d1 - d2 - 53) (-1074)) 0) by (unfold e'; now rewrite fexp_eq).
  set (m' := match 0 - 0 - e' with
             | Z0 => Zpos p
             | Zpos _ => Z.shiftl (Zpos p) (0 - 0 - e')
             | Zneg _ => 0
             end).
  assert (Hm' : m' = Zpos p * 2 ^ (- e')).
  { unfold m'. destruct (0 - 0 - e') as [|k|k] eqn:K; try lia.
    - replace (- e') with 0 by lia. simpl. lia.
    - rewrite Z.shiftl_mul_pow2 by lia. f_equal. f_equal. lia. }
  pose proof (Z.div_eucl_eq m' (Zpos q) ltac:(lia)) as Eq.
  pose proof (Z.mod_pos_bound m' (Zpos q) ltac:(lia)) as Bd.
  unfold Z.modulo in Bd. 
  assert (Qd : fst (Z.div_eucl m' (Zpos q)) = m' / Zpos q) by reflexivity.
  destruct (Z.div_eucl m' (Zpos q)) as [q0 r]. cbn [fst] in Qd. subst q0.
  apply binary_round_aux_valid.
  assert (P2 : 0 < 2 ^ (- e')) by (apply Z.pow_pos_nonneg; lia).
  assert (Pm : 0 < m') by (rewrite Hm'; lia).
  assert (D1 : Z.log2 m' = d1 - 1 - e').
  { rewrite Hm', Z.log2_mul_pow2 by lia. unfold d1. rewrite Zdigits2_log2; lia. }
  assert (D2 : Z.log2 (Zpos q) = d2 - 1) by (unfold d2; rewrite Zdigits2_log2; lia).
  destruct (Z_le_gt_dec (Zpos q) m') as [C|C].
  - left. assert (Q : 0 < m' / Zpos q) by (apply Z.div_str_pos; lia).
    split; [exact Q|].
    pose proof (log2_div_lower m' (Zpos q) ltac:(lia) C) as L.
    rewrite (Zdigits2_log2 _ Q), fexp_eq. lia.
  - right. split; [apply Z.div_small; lia|].
    pose proof (Z.log2_spec m' Pm) as [Lm _].
    pose proof (Z.log2_spec (Zpos q) ltac:(lia)) as [_ Uq].
    assert (Z.log2 m' <= Z.log2 (Zpos q)) by (apply Z.log2_le_mono; lia).
    lia.
Qed.

Lemma of_decimal_valid (s : bool) (m : N) (e : Z) : Num.valid (Num.of_decimal s m e) = true.
Proof.
  unfold Num.of_decimal. destruct m as [|p]; [reflexivity|].
  destruct e as [|k|k]; [apply binary_round_valid..|apply div_integers_valid].
Qed.

End Validity.

Lemma wf_array (l : list json) : wf_numbers (JArray l) <-> Forall wf_numbers l.
Proof.
  induction l as [|x r IH]; simpl.
  - split; [constructor|trivial].
  - simpl in IH. rewrite IH. split.
    + intros [H1 H2]. now constructor.
    + intros H. inversion H. tauto.
Qed.

Lemma wf_object (o : list (string * json)) :
  wf_numbers (JObject o) <-> Forall (fun kv => wf_numbers (snd kv)) o.
Proof.
  induction o as [|x r IH]; simpl.
  - split; [constructor|trivial].
  - simpl in IH. rewrite IH. split.
    + intros [H1 H2]. now constructor.
    + intros H. inversion H. tauto.
Qed.

Lemma unsigned_decimal_valid (sign : bool) (s : string) :
  Num.valid (ToNum.unsigned_decimal sign s) = true.
Proof.
  unfold ToNum.unsigned_decimal.
  destruct (String.eqb s "Infinity"); [reflexivity|].
  destruct (Str.span_digits s) as [ip r1].
  destruct (match r1 with
            | String c r => if Ascii.eqb c "." then Str.span_digits r else (EmptyString, r1)
            | EmptyString => (EmptyString, r1)
            end) as [fp r2].
  destruct (ip ++ fp)%string; [reflexivity|].
  destruct (ToNum.exponent_to_end r2); [apply of_decimal_valid|reflexivity].
Qed.

Lemma StringToNumber_valid (s : string) : Num.valid (ToNum.StringToNumber s) = true.
Proof.
  unfold ToNum.StringToNumber. destruct (Str.trim s) as [|c r]; [reflexivity|].
  destruct (ToNum.non_decimal (String c r)) as [n|] eqn:E.
  - unfold ToNum.non_decimal in E. destruct r as [|c' [|d ds]]; try discriminate.
    destruct (negb (Ascii.eqb c "0")); [discriminate|].
    repeat match type of E with
           | (if ?b then _ else _) = _ => destruct b
           end; try discriminate; injection E as <-; apply of_decimal_valid.
  - destruct (Ascii.eqb c "-"); [apply unsigned_decimal_valid|].
    destruct (Ascii.eqb c "+"); apply unsigned_decimal_valid.
Qed.

Lemma number_literal_valid (s r : string) (x : number) :
  Json.number_literal s = Some (x, r) -> Num.valid x = true.
Proof.
  unfold Json.number_literal.
  destruct (match s with
            | String c r0 => if Ascii.eqb c "-" then (true, r0) else (false, s)
            | EmptyString => (false, s)
            end) as [neg s1].
  destruct (Str.span_digits s1) as [ip r1].
  destruct ip as [|d ds]; [discriminate|].
  destruct (Ascii.eqb d "0" && negb (String.eqb ds EmptyString)); [discriminate|].
  destruct (match r1 with
            | String c r0 =>
                if Ascii.eqb c "."
                then match Str.span_digits r0 with
                     | (EmptyString, _) => None
                     | (fp, r2) => Some (fp, r2)
                     end
                else Some (EmptyString, r1)
            | EmptyString => Some (EmptyString, r1)
            end) as [[fp r2]|]; [|discriminate].
  destruct (match r2 with
            | String c r0 =>
                if ToNum.is_exp_char c
                then let (eneg, r3) := ToNum.signed_digits r0 in
                     match Str.span_digits r3 with
                     | (EmptyString, _) => None
                     | (ed, r4) => Some (ToNum.signed_value eneg ed, r4)
                     end
                else Some (0%Z, r2)
            | EmptyString => Some (0%Z, r2)
            end) as [[ex rest]|]; [|discriminate].
  intros [= <- <-]. apply of_decimal_valid.
Qed.

Lemma replace_wf (k : string) (v : json) (o : Obj.t) :
  wf_numbers v -> wf_props o -> wf_props (Obj.replace k v o).
Proof.
  intros Hv. induction 1 as [|[k' v'] r H Hr IH]; simpl; [constructor|].
  destruct (String.eqb k' k); constructor; assumption.
Qed.

Lemma insert_index_wf (i : N) (k : string) (v : json) (o : Obj.t) :
  wf_numbers v -> wf_props o -> wf_props (Obj.insert_index i k v o).
Proof.
  intros Hv. induction 1 as [|[k' v'] r H Hr IH]; simpl.
  - repeat constructor. exact Hv.
  - destruct (Obj.array_index k') as [j|].
    + destruct (j <? i)%N; repeat (constructor; try assumption).
    + repeat (constructor; try assumption).
Qed.

Lemma set_wf (k : string) (v : json) (o : Obj.t) :
  wf_numbers v -> wf_props o -> wf_props (Obj.set k v o).
Proof.
  intros Hv Ho. unfold Obj.set. destruct (Obj.has k o); [now apply replace_wf|].
  destruct (Obj.array_index k); [now apply insert_index_wf|].
  apply Forall_app. split; [exact Ho|]. repeat constructor. exact Hv.
Qed.

Lemma assign_wf (source : list (string * json)) (target : Obj.t) :
  wf_props source -> wf_props target -> wf_props (Obj.assign target source).
Proof.
  unfold Obj.assign. intros Hs. revert target.
  induction Hs as [|[k v] r H Hr IH]; intros target Ht; simpl; [exact Ht|].
  apply IH. now apply set_wf.
Qed.

Lemma literal_wf (s r : string) (v : json) : Json.literal s = Some (v, r) -> wf_numbers v.
Proof.
  unfold Json.literal.
  destruct (Json.strip_prefix "true" s); [intros [= <- <-]; exact I|].
  destruct (Json.strip_prefix "false" s); [intros [= <- <-]; exact I|].
  destruct (Json.strip_prefix "null" s); [intros [= <- <-]; exact I|discriminate].
Qed.

(** The Numbers of a parsed value are binary64 Numbers. *)
Lemma parser_wf (fuel : nat) :
  (forall s v r, Json.value fuel s = Some (v, r) -> wf_numbers v)
  /\ (forall s l r, Json.elements fuel s = Some (l, r) -> Forall wf_numbers l)
  /\ (forall s ms r, Json.members fuel s = Some (ms, r) -> wf_props ms).
Proof.
  induction fuel as [|f (IHv & IHe & IHm)].
  { repeat split; intros; discriminate. }
  split; [|split].
  - intros s v r. destruct s as [|c s]; [discriminate|]. rewrite value_S.
    destruct (Ascii.eqb c "[").
    { destruct (Json.skip_ws s) as [|c' r']; [discriminate|].
      destruct (Ascii.eqb c' "]"); [intros [= <- <-]; exact I|].
      destruct (Json.elements f (String c' r')) as [[l rest]|] eqn:E; [|discriminate].
      intros [= <- <-]. apply wf_array. eapply IHe, E. }
    destruct (Ascii.eqb c "{").
    { destruct (Json.skip_ws s) as [|c' r']; [discriminate|].
      destruct (Ascii.eqb c' "}"); [intros [= <- <-]; exact I|].
      destruct (Json.members f (String c' r')) as [[ms rest]|] eqn:E; [|discriminate].
      intros [= <- <-]. apply wf_object. apply assign_wf; [eapply IHm, E|constructor]. }
    destruct (Ascii.eqb c Str.dquote).
    { destruct (Json.string_body s) as [[str rest]|]; [|discriminate].
      intros [= <- <-]. exact I. }
    destruct (Ascii.eqb c "-" || Str.is_digit c).
    { destruct (Json.number_literal (String c s)) as [[x rest]|] eqn:E; [|discriminate].
      intros [= <- <-]. simpl. eapply number_literal_valid, E. }
    apply literal_wf.
  - intros s l r. rewrite elements_S.
    destruct (Json.value f s) as [[v r0]|] eqn:Ev; [|discriminate].
    apply IHv in Ev.
    destruct (Json.skip_ws r0) as [|c r']; [discriminate|].
    destruct (Ascii.eqb c ",").
    + destruct (Json.elements f (Json.skip_ws r')) as [[l' rest]|] eqn:El; [|discriminate].
      intros [= <- <-]. constructor; [exact Ev|eapply IHe, El].
    + destruct (Ascii.eqb c "]"); [|discriminate].
      intros [= <- <-]. repeat constructor. exact Ev.
  - intros s ms r. destruct s as [|q s]; [discriminate|]. rewrite members_S.
    destruct (Ascii.eqb q Str.dquote); [|discriminate].
    destruct (Json.string_body s) as [[k r1]|]; [|discriminate].
    destruct (Json.skip_ws r1) as [|c r2]; [discriminate|].
    destruct (Ascii.eqb c ":"); [|discriminate].
    destruct (Json.value f (Json.skip_ws r2)) as [[v r3]|] eqn:Ev; [|discriminate].
    apply IHv in Ev.
    destruct (Json.skip_ws r3) as [|c' r4]; [discriminate|].
    destruct (Ascii.eqb c' ",").
    + destruct (Json.members f (Json.skip_ws r4)) as [[ms' rest]|] eqn:Em; [|discriminate].
      intros [= <- <-]. constructor; [exact Ev|eapply IHm, Em].
    + destruct (Ascii.eqb c' "}"); [|discriminate].
      intros [= <- <-]. repeat constructor. exact Ev.
Qed.

Lemma parse_wf (s : string) (v : json) : Json.parse s = Some v -> wf_numbers v.
Proof.
  unfold Json.parse. destruct (Json.value _ _) as [[v' rest]|] eqn:E; [|discriminate].
  destruct (Json.skip_ws rest); [|discriminate]. intros [= <-].
  eapply (proj1 (parser_wf _)), E.
Qed.

Lemma decode_wf (val parsed : json) : Flatten.decode val = Some parsed -> wf_numbers parsed.
Proof.
  destruct val; try discriminate. simpl. destruct (_ || _); [|discriminate].
  apply parse_wf.
Qed.

Lemma forEach_wf {A : Type} (g : A -> nat -> list entry -> option (list entry))
    (l : list A) :
  (forall x, In x l -> forall i out r, wf_entries out -> g x i out = Some r -> wf_entries r) ->
  forall i out r, wf_entries out -> Flatten.forEach g i l out = Some r -> wf_entries r.
Proof.
  induction l as [|x t IH]; intros H i out r Ho; simpl.
  - now intros [= <-].
  - destruct (g x i out) as [out1|] eqn:E; [|discriminate].
    apply IH; [intros y Hy; apply H; now right|].
    eapply (H x (or_introl eq_refl)); eassumption.
Qed.

Lemma helper_wf (fuel : nat) :
  forall val path out r,
    wf_numbers val -> wf_entries out ->
    Flatten.helper fuel val path out = Some r -> wf_entries r.
Proof.
  induction fuel as [|f IH]; intros val path out r Hv Ho; [discriminate|].
  cbn [Flatten.helper].
  destruct (Flatten.decode val) as [parsed|] eqn:D.
  { apply IH; [eapply decode_wf, D|exact Ho]. }
  assert (L : Some (out ++ [Flatten.leaf val path]) = Some r -> wf_entries r).
  { intros [= <-]. apply Forall_app. split; [exact Ho|]. repeat constructor. exact Hv. }
  destruct val as [ | b | n | s | items | props ]; try exact L.
  - apply forEach_wf; [|exact Ho]. intros x Hx i out0 r0 Ho0. apply IH; [|exact Ho0].
    apply wf_array in Hv. rewrite Forall_forall in Hv. now apply Hv.
  - apply forEach_wf; [|exact Ho]. intros k _ i out0 r0 Ho0.
    destruct (Obj.get k props) as [v|] eqn:G; [|now intros [= <-]].
    apply IH; [|exact Ho0].
    apply wf_object in Hv. rewrite Forall_forall in Hv.
    destruct (get_In k props v G) as [k' Hk]. apply (Hv (k', v) Hk).
Qed.

Lemma parseNumber_valid (v : json) (n : number) :
  wf_numbers v -> parseNumber v = Some n -> Num.valid n = true.
Proof.
  destruct v as [ | b | x | s | l | o ]; try discriminate; simpl.
  - intros Hx. destruct (negb (Num.isNaN x)); [now intros [= <-]|discriminate].
  - intros _. destruct (String.eqb (Str.trim s) EmptyString); [discriminate|].
    destruct (negb _); [|discriminate]. intros [= <-]. apply StringToNumber_valid.
Qed.

(** The values the extractor parses out of a payload of binary64
    Numbers are binary64 Numbers. *)
Lemma flatten_valid_values (payload : json) :
  wf_numbers payload -> valid_values (flatten payload).
Proof.
  intros H e n Hin. apply parseNumber_valid.
  pose proof (flatten_is_helper payload (jsize payload) (le_n _)) as F.
  apply helper_wf in F; [|exact H|constructor].
  unfold wf_entries in F. rewrite Forall_forall in F. now apply F.
Qed.

Lemma unwrap_wf (data : json) : wf_numbers data -> wf_numbers (Handler.unwrap data).
Proof.
  intros H. unfold Handler.unwrap, Js.prop.
  destruct data as [ | | | | | o]; try exact H.
  destruct (Obj.get "data" o) as [d|] eqn:G; [|exact H].
  destruct (Js.truthy d && Js.is_object d); [|exact H].
  apply wf_object in H. rewrite Forall_forall in H.
  destruct (get_In _ _ _ G) as [k Hk]. apply (H (k, d) Hk).
Qed.

Lemma indexed_wf (l : list json) (i : nat) :
  Forall wf_numbers l -> wf_props (Js.indexed i l).
Proof.
  intros H. revert i. induction H as [|x r Hx Hr IH]; intros i; simpl; constructor.
  - exact Hx.
  - apply IH.
Qed.

Lemma merge_item_wf (acc : Obj.t) (item : json) (idx : nat) :
  wf_props acc -> wf_numbers item -> wf_props (Handler.merge_item acc item idx).
Proof.
  intros Ha Hi. unfold Handler.merge_item.
  destruct (Js.truthy item && Js.is_object item) eqn:E; [|now apply set_wf].
  apply assign_wf; [|exact Ha].
  destruct item as [ | b | n | s | l | o]; try (simpl; constructor).
  - simpl in E. now rewrite andb_false_r in E.
  - apply indexed_wf. now apply wf_array.
  - now apply wf_object.
Qed.

Lemma reduce_wf (items : list json) (acc : Obj.t) (idx : nat) :
  Forall wf_numbers items -> wf_props acc -> wf_props (Handler.reduce acc idx items).
Proof.
  intros H. revert acc idx. induction H as [|x r Hx Hr IH]; intros acc idx Ha; simpl.
  - exact Ha.
  - apply IH. now apply merge_item_wf.
Qed.

(** The payload that reaches the flattener has binary64 Numbers when
    the body has, and the body [JSON.parse] returns has. *)
Lemma payload_wf (data payload : json) :
  wf_numbers data -> Handler.merge (Handler.unwrap data) = Some payload ->
  wf_numbers payload.
Proof.
  intros H. apply unwrap_wf in H. unfold Handler.merge.
  destruct (Handler.unwrap data) as [ | | | | l | o]; try (intros [= <-]; exact H).
  destruct l as [|x r]; [discriminate|]. intros [= <-].
  apply wf_object. apply (reduce_wf (x :: r) [] 0); [|constructor].
  exact (proj1 (wf_array (x :: r)) H).
Qed.

(* ------------------------------------------------------------------ *)
(** ** Step 5: the two largest gram values *)

Section SortFacts.

Context {A : Type} (comparefn : A -> A -> number).

Lemma insert_perm (x : A) (l : list A) :
  Permutation (ArraySort.insert comparefn x l) (x :: l).
Proof.
  induction l as [|y r IH]; simpl; [apply Permutation_refl|].
  destruct (Num.gt0 (comparefn x y)); [|apply Permutation_refl].
  eapply perm_trans; [apply perm_skip, IH|apply perm_swap].
Qed.

Lemma sort_perm (l : list A) : Permutation (ArraySort.sort comparefn l) l.
Proof.
  induction l as [|x r IH]; simpl; [constructor|].
  eapply perm_trans; [apply insert_perm|now apply perm_skip].
Qed.

(** [R x y]: [x] may come before [y]; [ok] holds of the elements the
    comparator orders consistently. *)
Variable R : A -> A -> Prop.
Variable ok : A -> Prop.
Hypothesis after_R : forall x y, ok x -> ok y -> Num.gt0 (comparefn x y) = true -> R y x.
Hypothesis before_R : forall x y, ok x -> ok y -> Num.gt0 (comparefn x y) = false -> R x y.
Hypothesis R_trans : forall x y z, ok x -> ok y -> ok z -> R x y -> R y z -> R x z.

Lemma insert_sorted (x : A) (l : list A) :
  ok x -> Forall ok l -> StronglySorted R l ->
  StronglySorted R (ArraySort.insert comparefn x l).
Proof.
  intros Hx Hl Hs. induction Hs as [|y r Hs IH Hy]; simpl.
  - repeat constructor.
  - inversion Hl as [|? ? Oy Or]; subst.
    destruct (Num.gt0 (comparefn x y)) eqn:C.
    + constructor; [now apply IH|].
      eapply Permutation_Forall; [apply Permutation_sym, insert_perm|].
      constructor; [now apply after_R|exact Hy].
    + constructor; [now constructor|].
      assert (Rxy : R x y) by now apply before_R.
      constructor; [exact Rxy|].
      rewrite Forall_forall in *. intros z Hz.
      apply (R_trans x y z); auto.
Qed.

Lemma sort_sorted (l : list A) :
  Forall ok l -> StronglySorted R (ArraySort.sort comparefn l).
Proof.
  induction 1 as [|x r Hx Hr IH]; simpl; [constructor|].
  apply insert_sorted; [exact Hx| |exact IH].
  eapply Permutation_Forall; [apply Permutation_sym, sort_perm|exact Hr].
Qed.

End SortFacts.

Lemma with_num_ordered (entries : list entry) (keep : entry -> bool) :
  valid_values entries ->
  (forall e, keep e = true -> parses e = true) ->
  Forall ordered (List.map with_num (filter keep entries)).
Proof.
  intros V K. apply Forall_forall. intros c Hc.
  apply in_map_iff in Hc. destruct Hc as (e & <- & He).
  apply filter_In in He. destruct He as [Hin Hk]. apply K in Hk.
  unfold parses in Hk. unfold ordered, with_num. simpl.
  destruct (parseNumber (value e)) as [n|] eqn:P; [|discriminate].
  split; [now apply (V e)|now apply (parseNumber_Some_not_NaN (value e))].
Qed.

(** The candidates come out of the sort in descending numeric order. *)
Lemma ranked_sorted (entries : list entry) (keep : entry -> bool) :
  valid_values entries ->
  (forall e, keep e = true -> parses e = true) ->
  StronglySorted num_ge (ranked entries keep)
  /\ Permutation (ranked entries keep) (List.map with_num (filter keep entries)).
Proof.
  intros V K. unfold ranked. split; [|apply sort_perm].
  apply (sort_sorted by_num_desc num_ge ordered).
  - intros x y [Vx Nx] [Vy Ny] C. unfold by_num_desc in C.
    rewrite difference_sign in C by assumption. now apply SFltb_SFleb.
  - intros x y [Vx Nx] [Vy Ny] C. unfold by_num_desc in C.
    rewrite difference_sign in C by assumption. now apply SFltb_false_SFleb.
  - intros x y z [_ Nx] [_ Ny] [_ Nz] Rxy Ryz. unfold num_ge in *.
    now apply (SFleb_trans (num z) (num y) (num x)).
  - now apply with_num_ordered.
Qed.

Lemma gram_key_parses (currency : string) (e : entry) :
  gram_key currency e = true -> parses e = true.
Proof.
  unfold gram_key. intros H. apply andb_true_iff in H. destruct H as [H _].
  apply andb_true_iff in H. tauto.
Qed.

Lemma gram_key_In (entries : list entry) (currency : string) (e : entry) :
  In e (filter (gram_key currency) entries)
  <-> In e entries
      /\ Str.includes (lc (key e)) "gram" = true
      /\ (exists n, parseNumber (value e) = Some n)
      /\ (currency = "usd" \/ Str.includes (lc (key e)) "usd" = false).
Proof.
  rewrite filter_In. unfold gram_key, parses, currency_allows, is_null.
  rewrite !andb_true_iff, orb_true_iff, !negb_true_iff, String.eqb_eq.
  split.
  - intros (Hin & (Hg & Hp) & Hc).
    destruct (parseNumber (value e)) as [n|]; [|discriminate Hp].
    split; [exact Hin|]. split; [exact Hg|]. split; [now exists n|exact Hc].
  - intros (Hin & Hg & (n & Hn) & Hc). rewrite Hn. repeat split; assumption.
Qed.

Lemma two_candidates_sorted (a b : candidate) :
  (num a = Num.of_N 85 /\ num b = dec 105 (-2))
  \/ (num a = dec 105 (-2) /\ num b = Num.of_N 85) ->
  List.map num (ArraySort.sort by_num_desc [a; b]) = [Num.of_N 85; dec 105 (-2)].
Proof.
  intros [[Ha Hb]|[Ha Hb]]; cbn [ArraySort.sort fold_right ArraySort.insert];
    unfold by_num_desc; rewrite Ha, Hb.
  - change (Num.gt0 (Num.sub (dec 105 (-2)) (Num.of_N 85))) with false.
    cbn [List.map]. now rewrite Ha, Hb.
  - change (Num.gt0 (Num.sub (Num.of_N 85) (dec 105 (-2)))) with true.
    cbn [List.map]. now rewrite Ha, Hb.
Qed.

(** Step 5 on entries whose parsed values are binary64 Numbers. *)
Lemma step5_on_valid_entries (entries : list entry) (currency : string) :
  valid_values entries ->
  goldPerGram (after_step4 entries currency) = None
  \/ silverPerGram (after_step4 entries currency) = None ->
  let p4 := after_step4 entries currency in
  let p5 := step5 entries currency p4 in
  let pool := filter (gram_key currency) entries in
  let sorted := gramCandidates entries currency in
  (forall e, In e pool <->
             In e entries
             /\ Str.includes (lc (key e)) "gram" = true
             /\ (exists n, parseNumber (value e) = Some n)
             /\ (currency = "usd" \/ Str.includes (lc (key e)) "usd" = false))
  /\ Permutation sorted (List.map with_num pool)
  /\ StronglySorted num_ge sorted
  /\ (goldPerGram p4 = None ->
      match sorted with
      | c0 :: rest => goldPerGram p5 = Some (num c0) /\ Forall (num_ge c0) rest
      | [] => goldPerGram p5 = None
      end)
  /\ (silverPerGram p4 = None ->
      match sorted with
      | c0 :: c1 :: rest =>
          silverPerGram p5 = Some (num c1) /\ num_ge c0 c1 /\ Forall (num_ge c1) rest
      | _ => silverPerGram p5 = None
      end)
  /\ (forall g, goldPerGram p4 = Some g -> goldPerGram p5 = Some g)
  /\ (forall s, silverPerGram p4 = Some s -> silverPerGram p5 = Some s)
  /\ (goldPerGram p4 = None -> silverPerGram p4 = None ->
      List.map num (List.map with_num pool) = [Num.of_N 85; dec 105 (-2)]
      \/ List.map num (List.map with_num pool) = [dec 105 (-2); Num.of_N 85] ->
      goldPerGram p5 = Some (Num.of_N 85) /\ silverPerGram p5 = Some (dec 105 (-2))).
Proof.
  intros V Hnull p4 p5 pool sorted.
  destruct (ranked_sorted entries (gram_key currency) V (gram_key_parses currency))
    as [S P].
  fold (gramCandidates entries currency) in S, P. fold sorted in S, P. fold pool in P.
  assert (E5 : p5 = take_top_two sorted p4).
  { unfold p5, step5, p4.
    destruct Hnull as [H|H]; rewrite H; [reflexivity|].
    now rewrite orb_true_r. }
  split; [intros e; apply gram_key_In|].
  split; [exact P|]. split; [exact S|].
  split; [|split; [|split; [|split]]].
  - intros G. rewrite E5. cbn [goldPerGram take_top_two]. rewrite G.
    destruct sorted as [|c0 rest]; [reflexivity|].
    split; [reflexivity|]. now inversion S.
  - intros G. rewrite E5. cbn [silverPerGram take_top_two]. rewrite G.
    destruct sorted as [|c0 [|c1 rest]]; [reflexivity..|].
    split; [reflexivity|]. inversion S as [|? ? S1 F0]; subst.
    split; [now inversion F0|now inversion S1].
  - intros g. apply step5_keeps_gold.
  - intros s. apply step5_keeps_silver.
  - intros G Sv Hpool. rewrite E5. cbn [goldPerGram silverPerGram take_top_two].
    rewrite G, Sv.
    assert (Hs : List.map num sorted = [Num.of_N 85; dec 105 (-2)]).
    { unfold sorted, gramCandidates, ranked. fold pool.
      destruct (List.map with_num pool) as [|a [|b [|c r]]];
        try (destruct Hpool; discriminate).
      apply two_candidates_sorted.
      destruct Hpool as [H|H]; injection H as Ha Hb; [left|right]; now split. }
    destruct sorted as [|c0 [|c1 rest]]; try discriminate.
    injection Hs as H0 H1 _. now rewrite H0, H1.
Qed.

(** C4, as stated, fails for a currency other than "usd": steps 1-4
    resolve nothing, the two gram candidates are 85 and 1.05 and step 5
    gives gold 85, but the payload also holds a per-ounce gold price and
    a factor, and the per-ounce rule replaces 85 by 100 times 1.05. *)
Lemma step5_price_may_be_overridden :
  goldPerGram (after_step4 (flatten overridden_gram) "inr") = None
  /\ silverPerGram (after_step4 (flatten overridden_gram) "inr") = None
  /\ List.map num (gramCandidates (flatten overridden_gram) "inr")
     = [Num.of_N 85; dec 105 (-2)]
  /\ goldPerGram (step5 (flatten overridden_gram) "inr"
                   (after_step4 (flatten overridden_gram) "inr")) = Some (Num.of_N 85)
  /\ exists body,
       Handler.rates_handler "inr" overridden_gram = Success body
       /\ perGram (gold body) = Num.mul (Num.of_N 100) (dec 105 (-2))
       /\ perGram (gold body) <> Num.of_N 85
       /\ perGram (silver body) = dec 105 (-2).
Proof.
  split; [vm_compute; reflexivity|]. split; [vm_compute; reflexivity|].
  split; [vm_compute; reflexivity|]. split; [vm_compute; reflexivity|].
  eexists. split; [vm_compute; reflexivity|].
  split; [vm_compute; reflexivity|]. split; [vm_compute; discriminate|].
  vm_compute. reflexivity.
Qed.

(** C4 (amended): for a payload whose Numbers are binary64 Numbers, when
    steps 1-4 leave gold or silver unresolved, step 5 ranks the entries
    whose key contains "gram" and whose value parses (without those whose
    key contains "usd" when the currency is not "usd") in descending
    numeric order, gives the largest value to a gold price that is still
    unresolved and the second largest to a silver price that is still
    unresolved, and leaves a resolved price alone.  Step 6 keeps the
    prices of step 5, and the final price, the one a 200 response
    carries, is the one of step 5 unless the currency is not "usd" and a
    per-ounce value was derived for the metal, which then replaces it.
    With exactly two candidates, 85 and 1.05, and nothing resolved
    before, step 5 gives gold 85 and silver 1.05, and these are the
    prices of the 200 response, which is sent when line 290 does not
    throw, for "usd", and for another currency when no per-ounce value is
    derived. *)
Theorem step5_takes_two_largest (payload : json) (currency : string) :
  wf_numbers payload ->
  goldPerGram (after_step4 (flatten payload) currency) = None
  \/ silverPerGram (after_step4 (flatten payload) currency) = None ->
  let entries := flatten payload in
  let p4 := after_step4 entries currency in
  let p5 := step5 entries currency p4 in
  let pool := filter (gram_key currency) entries in
  let sorted := gramCandidates entries currency in
  (forall e, In e pool <->
             In e entries
             /\ Str.includes (lc (key e)) "gram" = true
             /\ (exists n, parseNumber (value e) = Some n)
             /\ (currency = "usd" \/ Str.includes (lc (key e)) "usd" = false))
  /\ Permutation sorted (List.map with_num pool)
  /\ StronglySorted num_ge sorted
  /\ (goldPerGram p4 = None ->
      match sorted with
      | c0 :: rest => goldPerGram p5 = Some (num c0) /\ Forall (num_ge c0) rest
      | [] => goldPerGram p5 = None
      end)
  /\ (silverPerGram p4 = None ->
      match sorted with
      | c0 :: c1 :: rest =>
          silverPerGram p5 = Some (num c1) /\ num_ge c0 c1 /\ Forall (num_ge c1) rest
      | _ => silverPerGram p5 = None
      end)
  /\ (forall g, goldPerGram p4 = Some g -> goldPerGram p5 = Some g)
  /\ (forall s, silverPerGram p4 = Some s -> silverPerGram p5 = Some s)
  /\ (goldPerGram p4 = None -> silverPerGram p4 = None ->
      List.map num (List.map with_num pool) = [Num.of_N 85; dec 105 (-2)]
      \/ List.map num (List.map with_num pool) = [dec 105 (-2); Num.of_N 85] ->
      goldPerGram p5 = Some (Num.of_N 85) /\ silverPerGram p5 = Some (dec 105 (-2)))
  /\ (forall g, goldPerGram p5 = Some g ->
      goldPerGram (heuristics entries currency) = Some g
      /\ goldPerGram (extracted entries currency)
         = if String.eqb currency "usd" then Some g
           else match goldFromOunce entries currency with
                | Some m => Some m
                | None => Some g
                end)
  /\ (forall s, silverPerGram p5 = Some s ->
      silverPerGram (heuristics entries currency) = Some s
      /\ silverPerGram (extracted entries currency)
         = if String.eqb currency "usd" then Some s
           else match silverFromOunce entries currency with
                | Some m => Some m
                | None => Some s
                end)
  /\ (forall body, Handler.respond currency payload = Success body ->
      goldPerGram (extracted entries currency) = Some (perGram (gold body))
      /\ silverPerGram (extracted entries currency) = Some (perGram (silver body)))
  /\ (goldPerGram p4 = None -> silverPerGram p4 = None ->
      List.map num (List.map with_num pool) = [Num.of_N 85; dec 105 (-2)]
      \/ List.map num (List.map with_num pool) = [dec 105 (-2); Num.of_N 85] ->
      currency = "usd"
      \/ (goldFromOunce entries currency = None
          /\ silverFromOunce entries currency = None) ->
      Js.to_primitive_throws
        (Handler.final_factor payload (gramToOunce entries)) = false ->
      exists body,
        Handler.respond currency payload = Success body
        /\ perGram (gold body) = Num.of_N 85
        /\ perGram (silver body) = dec 105 (-2)).
Proof.
  intros W Hnull.
  pose proof (step5_on_valid_entries (flatten payload) currency
                (flatten_valid_values payload W) Hnull) as H.
  cbv zeta in *.
  destruct H as (H1 & H2 & H3 & H4 & H5 & H6 & H7 & H8).
  split; [exact H1|]. split; [exact H2|]. split; [exact H3|]. split; [exact H4|].
  split; [exact H5|]. split; [exact H6|]. split; [exact H7|]. split; [exact H8|].
  assert (Fg : forall g,
             goldPerGram (step5 (flatten payload) currency
                            (after_step4 (flatten payload) currency)) = Some g ->
             goldPerGram (heuristics (flatten payload) currency) = Some g
             /\ goldPerGram (extracted (flatten payload) currency)
                = if String.eqb currency "usd" then Some g
                  else match goldFromOunce (flatten payload) currency with
                       | Some m => Some m
                       | None => Some g
                       end).
  { intros g G.
    assert (G6 : goldPerGram (heuristics (flatten payload) currency) = Some g).
    { unfold heuristics. fold (after_step4 (flatten payload) currency).
      now apply step6_keeps_gold. }
    split; [exact G6|]. unfold extracted, prefer_ounce.
    destruct (String.eqb currency "usd"); simpl; now rewrite G6. }
  assert (Fs : forall s,
             silverPerGram (step5 (flatten payload) currency
                              (after_step4 (flatten payload) currency)) = Some s ->
             silverPerGram (heuristics (flatten payload) currency) = Some s
             /\ silverPerGram (extracted (flatten payload) currency)
                = if String.eqb currency "usd" then Some s
                  else match silverFromOunce (flatten payload) currency with
                       | Some m => Some m
                       | None => Some s
                       end).
  { intros s G.
    assert (G6 : silverPerGram (heuristics (flatten payload) currency) = Some s).
    { unfold heuristics. fold (after_step4 (flatten payload) currency).
      now apply step6_keeps_silver. }
    split; [exact G6|]. unfold extracted, prefer_ounce.
    destruct (String.eqb currency "usd"); simpl; now rewrite G6. }
  split; [exact Fg|]. split; [exact Fs|]. split.
  - intros body R. exact (success_carries_extracted currency payload body R).
  - intros G4 S4 Hpool Hover Hp.
    destruct (H8 G4 S4 Hpool) as [G5 S5].
    destruct (Fg _ G5) as [_ Eg]. destruct (Fs _ S5) as [_ Es].
    assert (Eg' : goldPerGram (extracted (flatten payload) currency) = Some (Num.of_N 85)).
    { rewrite Eg. destruct Hover as [->|[Og _]]; [reflexivity|].
      rewrite Og. now destruct (String.eqb currency "usd"). }
    assert (Es' : silverPerGram (extracted (flatten payload) currency)
                  = Some (dec 105 (-2))).
    { rewrite Es. destruct Hover as [->|[_ Os]]; [reflexivity|].
      rewrite Os. now destruct (String.eqb currency "usd"). }
    pose proof (respond_cases currency payload Hp) as C. cbv zeta in C.
    rewrite Eg', Es' in C. destruct C as (body & E & Bg & Bs).
    exists body. split; [exact E|]. split; assumption.
Qed.

Lemma step5_takes_two_largest_witness :
  exists body,
    Handler.respond "usd" scenarioC = Success body
    /\ perGram (gold body) = Num.of_N 85
    /\ perGram (silver body) = dec 105 (-2).
Proof.
  assert (W : wf_numbers scenarioC) by (simpl; repeat split; reflexivity).
  destruct (step5_takes_two_largest scenarioC "usd" W (or_introl eq_refl))
    as (_ & _ & _ & _ & _ & _ & _ & _ & _ & _ & _ & Yields).
  apply Yields.
  - reflexivity.
  - reflexivity.
  - right. reflexivity.
  - left. reflexivity.
  - reflexivity.
Defined.

Example scenarioC_response :
  exists body,
    Handler.rates_handler "usd" scenarioC = Success body
    /\ perGram (gold body) = Num.of_N 85
    /\ perGram (silver body) = dec 105 (-2).
Proof. eexists. vm_compute. repeat split. Qed.

(* ================================================================== *)
(** * Further properties *)

(* ------------------------------------------------------------------ *)
(** ** Strings: letter case and white space *)

(* ---------- letter case ---------- *)

Lemma upper_lower (c : ascii) : Str.upper (Str.lower c) = Str.upper c.
Proof. destruct c as [[] [] [] [] [] [] [] []]; reflexivity. Qed.

Lemma lower_upper (c : ascii) : Str.lower (Str.upper c) = Str.lower c.
Proof. destruct c as [[] [] [] [] [] [] [] []]; reflexivity. Qed.

Lemma lower_dot (c : ascii) : Ascii.eqb (Str.lower c) "." = Ascii.eqb c ".".
Proof. destruct c as [[] [] [] [] [] [] [] []]; reflexivity. Qed.

Lemma strmap_map (f g : ascii -> ascii) (s : string) :
  Str.map f (Str.map g s) = Str.map (fun c => f (g c)) s.
Proof. induction s as [|c r IH]; simpl; [reflexivity|now rewrite IH]. Qed.

Lemma strmap_ext (f g : ascii -> ascii) (s : string) :
  (forall c, f c = g c) -> Str.map f s = Str.map g s.
Proof. intros H. induction s as [|c r IH]; simpl; [reflexivity|now rewrite H, IH]. Qed.

Lemma strmap_append (f : ascii -> ascii) (a b : string) :
  Str.map f (a ++ b) = (Str.map f a ++ Str.map f b)%string.
Proof. induction a as [|c r IH]; simpl; [reflexivity|now rewrite IH]. Qed.

Lemma toUpperCase_toLowerCase (s : string) :
  Str.toUpperCase (Str.toLowerCase s) = Str.toUpperCase s.
Proof. unfold Str.toUpperCase, Str.toLowerCase. rewrite strmap_map. apply strmap_ext, upper_lower. Qed.

Lemma toLowerCase_toUpperCase (s : string) :
  Str.toLowerCase (Str.toUpperCase s) = Str.toLowerCase s.
Proof. unfold Str.toUpperCase, Str.toLowerCase. rewrite strmap_map. apply strmap_ext, lower_upper. Qed.

(* ---------- trim ---------- *)

Lemma trimEnd_spaces (ws : string) :
  Str.forallb Str.is_space ws = true -> Str.trimEnd ws = EmptyString.
Proof.
  induction ws as [|c r IH]; simpl; [reflexivity|].
  intros H. apply andb_true_iff in H. destruct H as [Hc Hr].
  rewrite (IH Hr), Hc. reflexivity.
Qed.

Lemma trimStart_spaces (ws s : string) :
  Str.forallb Str.is_space ws = true -> Str.trimStart (ws ++ s) = Str.trimStart s.
Proof.
  induction ws as [|c r IH]; simpl; [reflexivity|].
  intros H. apply andb_true_iff in H. destruct H as [Hc Hr].
  rewrite Hc. now apply IH.
Qed.

Lemma trimEnd_append_spaces (s ws : string) :
  Str.forallb Str.is_space ws = true -> Str.trimEnd (s ++ ws) = Str.trimEnd s.
Proof.
  intros H. induction s as [|c r IH]; simpl.
  - now apply trimEnd_spaces.
  - now rewrite IH.
Qed.

Lemma trim_append_spaces (s ws : string) :
  Str.forallb Str.is_space ws = true -> Str.trim (s ++ ws) = Str.trim s.
Proof.
  intros H. unfold Str.trim. induction s as [|c r IH]; simpl.
  - assert (E : Str.trimStart ws = EmptyString).
    { clear -H. induction ws as [|c r IH]; simpl; [reflexivity|].
      simpl in H. apply andb_true_iff in H. destruct H as [Hc Hr]. rewrite Hc. now apply IH. }
    now rewrite E.
  - destruct (Str.is_space c); [exact IH|].
    change (String c (r ++ ws)) with (String c r ++ ws)%string.
    now apply trimEnd_append_spaces.
Qed.

Lemma trim_padding (ws1 ws2 s : string) :
  Str.forallb Str.is_space ws1 = true -> Str.forallb Str.is_space ws2 = true ->
  Str.trim (ws1 ++ s ++ ws2) = Str.trim s.
Proof.
  intros H1 H2. unfold Str.trim. rewrite (trimStart_spaces ws1 _ H1).
  apply (trim_append_spaces s ws2 H2).
Qed.

(** X1: white space around a string does not change what [parseNumber]
    returns for it, nor the value the flattener decodes from it: both
    start from the trimmed string (lines 116 and 129). *)
Theorem parseNumber_ignores_padding (ws1 ws2 s : string) :
  Str.forallb Str.is_space ws1 = true ->
  Str.forallb Str.is_space ws2 = true ->
  parseNumber (JString (ws1 ++ s ++ ws2)) = parseNumber (JString s)
  /\ Flatten.decode (JString (ws1 ++ s ++ ws2)) = Flatten.decode (JString s).
Proof.
  intros H1 H2. pose proof (trim_padding ws1 ws2 s H1 H2) as E.
  split.
  - cbn [parseNumber]. now rewrite E.
  - cbn [Flatten.decode]. now rewrite E.
Qed.

Lemma parseNumber_ignores_padding_witness :
  parseNumber (JString "  12.5 ") = parseNumber (JString "12.5")
  /\ Flatten.decode (JString "  12.5 ") = Flatten.decode (JString "12.5").
Proof.
  apply (parseNumber_ignores_padding "  " " " "12.5"); reflexivity.
Defined.

(* ------------------------------------------------------------------ *)
(** ** The shape of the flat entries *)

(* ---------- what helper pushes ---------- *)

Lemma forEach_pushes (P : entry -> Prop) {A : Type}
    (g : A -> nat -> list entry -> option (list entry)) (l : list A) :
  (forall x i out r, g x i out = Some r -> exists new, r = out ++ new /\ Forall P new) ->
  forall i out r, Flatten.forEach g i l out = Some r ->
                  exists new, r = out ++ new /\ Forall P new.
Proof.
  intros Hg. induction l as [|x t IH]; intros i out r; simpl.
  - intros [= <-]. exists []. split; [now rewrite app_nil_r|constructor].
  - destruct (g x i out) as [out1|] eqn:E; [|discriminate].
    intros H. destruct (Hg _ _ _ _ E) as (n1 & -> & L1).
    destruct (IH _ _ _ H) as (n2 & -> & L2).
    exists (n1 ++ n2). split; [now rewrite app_assoc|now apply Forall_app].
Qed.

Lemma helper_pushes (P : entry -> Prop) :
  (forall val path, P (Flatten.leaf val path)) ->
  forall fuel val path out r,
    Flatten.helper fuel val path out = Some r ->
    exists new, r = out ++ new /\ Forall P new.
Proof.
  intros HP. induction fuel as [|f IH]; intros val path out r; [discriminate|].
  cbn [Flatten.helper].
  destruct (Flatten.decode val) as [parsed|] eqn:D; [apply IH|].
  assert (L : Some (out ++ [Flatten.leaf val path]) = Some r ->
              exists new, r = out ++ new /\ Forall P new).
  { intros [= <-]. exists [Flatten.leaf val path]. split; [reflexivity|].
    constructor; [apply HP|constructor]. }
  destruct val as [ | b | n | s | items | props ]; try (now apply L).
  - apply forEach_pushes. intros x i out0 r0. apply IH.
  - apply forEach_pushes. intros k i out0 r0.
    destruct (Obj.get k props); [apply IH|].
    intros [= <-]. exists []. split; [now rewrite app_nil_r|constructor].
Qed.

Lemma flatten_pushes (P : entry -> Prop) (payload : json) :
  (forall val path, P (Flatten.leaf val path)) -> Forall P (flatten payload).
Proof.
  intros HP.
  pose proof (flatten_is_helper payload (jsize payload) (le_n _)) as H.
  apply (helper_pushes P HP) in H. destruct H as (new & -> & L). exact L.
Qed.

(* ---------- the last segment of a path ---------- *)

Lemma includes_dot_cons (c : ascii) (r : string) :
  Str.includes (String c r) "." = Ascii.eqb c "." || Str.includes r ".".
Proof.
  cbn [Str.includes Str.startsWith]. rewrite (Ascii.eqb_sym "." c).
  destruct r; rewrite andb_true_r; destruct (Ascii.eqb c "."); reflexivity.
Qed.

Lemma includes_dot_app (a b : string) :
  Str.includes (a ++ b) "." = Str.includes a "." || Str.includes b ".".
Proof.
  induction a as [|c r IH].
  - reflexivity.
  - change (String c r ++ b)%string with (String c (r ++ b)%string).
    rewrite !includes_dot_cons, IH. now rewrite orb_assoc.
Qed.

Lemma last_segment_no_dot (s seg : string) :
  Str.includes seg "." = false -> Str.includes (Str.last_segment seg s) "." = false.
Proof.
  revert seg. induction s as [|c r IH]; intros seg H; simpl; [exact H|].
  destruct (Ascii.eqb c ".") eqn:E.
  - now apply IH.
  - apply IH. rewrite includes_dot_app, H. unfold Str.str1.
    rewrite includes_dot_cons, E. reflexivity.
Qed.

Lemma append_str1 (seg : string) (c : ascii) (s : string) :
  ((seg ++ Str.str1 c) ++ s = seg ++ String c s)%string.
Proof. induction seg as [|a r IH]; simpl; [reflexivity|now rewrite IH]. Qed.

Lemma last_segment_plain (s seg : string) :
  Str.includes s "." = false -> Str.last_segment seg s = (seg ++ s)%string.
Proof.
  revert seg. induction s as [|c r IH]; intros seg H; simpl.
  - induction seg as [|a t IHt]; simpl; [reflexivity|now rewrite <- IHt].
  - rewrite includes_dot_cons in H. apply orb_false_iff in H. destruct H as [E H].
    rewrite E, (IH _ H). apply append_str1.
Qed.

Lemma last_segment_endsWith (p k seg : string) :
  Str.endsWith p ("." ++ k) = true -> Str.includes k "." = false ->
  Str.last_segment seg p = k.
Proof.
  intros H K. revert seg H. induction p as [|c r IH]; intros seg H.
  - discriminate.
  - cbn [Str.endsWith] in H.
    destruct (String.eqb (String c r) ("." ++ k)) eqn:E.
    + apply String.eqb_eq in E. injection E as -> ->. simpl.
      now apply last_segment_plain.
    + simpl. destruct (Ascii.eqb c "."); now apply IH.
Qed.

Lemma last_segment_map (f : ascii -> ascii) (s seg : string) :
  (forall c, Ascii.eqb (f c) "." = Ascii.eqb c ".") ->
  Str.last_segment (Str.map f seg) (Str.map f s) = Str.map f (Str.last_segment seg s).
Proof.
  intros Hf. revert seg. induction s as [|c r IH]; intros seg; simpl; [reflexivity|].
  rewrite Hf. destruct (Ascii.eqb c ".").
  - apply (IH EmptyString).
  - rewrite <- IH, strmap_append. reflexivity.
Qed.

Lemma string_append_assoc (a b c : string) : ((a ++ b) ++ c = a ++ (b ++ c))%string.
Proof. induction a as [|x r IH]; simpl; [reflexivity|now rewrite IH]. Qed.

Lemma last_segment_suffix (s seg : string) :
  exists pre, (seg ++ s = pre ++ Str.last_segment seg s)%string.
Proof.
  revert seg. induction s as [|c r IH]; intros seg; simpl.
  - exists EmptyString. simpl.
    induction seg as [|a t IHt]; simpl; [reflexivity|now rewrite IHt].
  - destruct (Ascii.eqb c ".").
    + destruct (IH EmptyString) as [pre E]. simpl in E.
      exists (seg ++ Str.str1 c ++ pre)%string.
      rewrite !string_append_assoc. simpl. now rewrite <- E.
    + destruct (IH (seg ++ Str.str1 c)%string) as [pre E].
      exists pre. now rewrite <- E, append_str1.
Qed.

Lemma includes_app_l (a b t : string) :
  Str.includes b t = true -> Str.includes (a ++ b) t = true.
Proof.
  intros H. induction a as [|c r IH]; [exact H|].
  change (String c r ++ b)%string with (String c (r ++ b)%string).
  cbn [Str.includes]. rewrite IH. now destruct (Str.startsWith _ t).
Qed.

Lemma lc_split_dot_pop (p : string) :
  lc (Str.split_dot_pop p) = Str.split_dot_pop (lc p).
Proof.
  unfold lc, Str.toLowerCase, Str.split_dot_pop.
  symmetry. apply (last_segment_map Str.lower p EmptyString lower_dot).
Qed.

Lemma flatten_keyed (payload : json) : Forall keyed_by_path (flatten payload).
Proof. apply flatten_pushes. intros val path. reflexivity. Qed.

Lemma flat_entry_key (payload : json) (e : entry) :
  In e (flatten payload) ->
  key e = match path e with
          | EmptyString => EmptyString
          | _ => Str.split_dot_pop (path e)
          end.
Proof.
  intros Hin.
  pose proof (flatten_keyed payload) as K. rewrite Forall_forall in K.
  specialize (K e Hin). unfold keyed_by_path in K. rewrite K at 1. reflexivity.
Qed.

Lemma flat_entry_suffix (payload : json) (e : entry) :
  In e (flatten payload) -> exists pre, path e = (pre ++ key e)%string.
Proof.
  intros Hin. rewrite (flat_entry_key payload e Hin).
  destruct (path e) as [|c r] eqn:P; [now exists EmptyString|].
  destruct (last_segment_suffix (String c r) EmptyString) as [pre E].
  exists pre. exact E.
Qed.

(** X2: every entry the flattener returns has as its key the part of its
    path after the last dot (the empty key for the empty path); the key
    holds no dot and ends the path, and the value is a leaf: neither an
    object, nor an array, nor a string that decodes as JSON text. *)
Theorem flatten_key_is_last_segment (payload : json) (e : entry) :
  In e (flatten payload) ->
  key e = match path e with
          | EmptyString => EmptyString
          | _ => Str.split_dot_pop (path e)
          end
  /\ Str.includes (key e) "." = false
  /\ (exists pre, path e = (pre ++ key e)%string)
  /\ is_leaf (value e) = true.
Proof.
  intros Hin.
  pose proof (flat_entry_key payload e Hin) as Ek.
  pose proof (flatten_leaves payload) as L. unfold leaf_entries in L.
  rewrite Forall_forall in L. specialize (L e Hin).
  split; [exact Ek|]. split; [|split; [now apply (flat_entry_suffix payload)|exact L]].
  rewrite Ek. destruct (path e); [reflexivity|].
  now apply last_segment_no_dot.
Qed.

Lemma flatten_key_is_last_segment_witness :
  let e := {| path := "rates[0].gold_gram"; key := "gold_gram"; value := int 90 |} in
  key e = Str.split_dot_pop (path e)
  /\ Str.includes (key e) "." = false
  /\ (exists pre, path e = (pre ++ key e)%string)
  /\ is_leaf (value e) = true.
Proof.
  intros e. apply (flatten_key_is_last_segment twice_encoded e).
  vm_compute. now left.
Defined.

Lemma flat_entry_tests (payload : json) (e : entry) (k : string) :
  In e (flatten payload) ->
  (Str.includes k "." = false ->
   key_or_path_end k e = String.eqb (lc (key e)) k)
  /\ mentions k e = Str.includes (lc (path e)) k.
Proof.
  intros Hin.
  pose proof (flat_entry_key payload e Hin) as Ek.
  destruct (flat_entry_suffix payload e Hin) as [pre Ep].
  split.
  - intros Hk. unfold key_or_path_end.
    destruct (Str.endsWith (lc (path e)) ("." ++ k)) eqn:E; [|now rewrite orb_false_r].
    rewrite orb_true_r. symmetry. apply String.eqb_eq.
    rewrite Ek. destruct (path e) as [|c r] eqn:P; [discriminate|].
    rewrite lc_split_dot_pop. now apply last_segment_endsWith.
  - unfold mentions.
    destruct (Str.includes (lc (key e)) k) eqn:I; [|reflexivity].
    simpl. symmetry. rewrite Ep. unfold lc, Str.toLowerCase. rewrite strmap_append.
    now apply includes_app_l.
Qed.

Lemma find_ext_in (f g : entry -> bool) (l : list entry) :
  (forall x, In x l -> f x = g x) -> find f l = find g l.
Proof.
  induction l as [|x r IH]; intros H; simpl; [reflexivity|].
  rewrite (H x (or_introl eq_refl)). destruct (g x); [reflexivity|].
  apply IH. intros y Hy. apply H. now right.
Qed.

(** X3: on flattened entries, [findKey] for a key without a dot finds the
    first entry whose lower-cased key is that key: a path that ends with
    a dot and the key adds nothing to the test of line 263.  In the test
    of step 4 the key adds nothing to the path. *)
Theorem findKey_on_flat_entries (payload : json) (k : string) :
  Str.includes k "." = false ->
  findKey (flatten payload) k
  = find (fun e => String.eqb (lc (key e)) k) (flatten payload)
  /\ find (mentions k) (flatten payload)
     = find (fun e => Str.includes (lc (path e)) k) (flatten payload).
Proof.
  intros Hk. split.
  - unfold findKey. apply find_ext_in. intros x Hx.
    now apply (flat_entry_tests payload x k Hx).
  - apply find_ext_in. intros x Hx. apply (flat_entry_tests payload x k Hx).
Qed.

Lemma findKey_on_flat_entries_witness :
  findKey (flatten twice_encoded) "silver_gram"
  = find (fun e => String.eqb (lc (key e)) "silver_gram") (flatten twice_encoded).
Proof.
  apply (findKey_on_flat_entries twice_encoded "silver_gram"). reflexivity.
Defined.

(* ------------------------------------------------------------------ *)
(** ** The outcomes of the handler *)

Lemma respond_outcomes (currency : string) (payload : json) :
  (Js.to_primitive_throws
     (Handler.final_factor payload (gramToOunce (flatten payload))) = true
   /\ Handler.respond currency payload = InternalError)
  \/ (Js.to_primitive_throws
        (Handler.final_factor payload (gramToOunce (flatten payload))) = false
      /\ ((exists body, Handler.respond currency payload = Success body)
          \/ Handler.respond currency payload
             = ExtractionError (firstn 50 (Js.Object_keys payload)))).
Proof.
  destruct (Js.to_primitive_throws
              (Handler.final_factor payload (gramToOunce (flatten payload)))) eqn:T.
  - left. split; [reflexivity|]. now apply respond_throws.
  - right. split; [reflexivity|].
    pose proof (respond_cases currency payload T) as C. cbv zeta in C.
    destruct (goldPerGram _) as [g|]; [|now right].
    destruct (silverPerGram _) as [s|]; [|now right].
    destruct C as (body & E & _). left. now exists body.
Qed.

Lemma merge_None (data : json) : Handler.merge data = None <-> data = JArray [].
Proof.
  split; [|now intros ->].
  destruct data as [ | | | | [|x r] | ]; try discriminate. reflexivity.
Qed.

Lemma handler_status_cases (currency : string) (data : json) :
  status (Handler.rates_handler currency data) = 200
  \/ status (Handler.rates_handler currency data) = 500
  \/ status (Handler.rates_handler currency data) = 502.
Proof.
  unfold Handler.rates_handler.
  destruct (Js.truthy data); simpl; [|tauto].
  destruct (Handler.merge (Handler.unwrap data)) as [payload|]; [|simpl; tauto].
  destruct (respond_outcomes currency payload) as [[_ E]|[_ [[body E]|E]]];
    rewrite E; simpl; tauto.
Qed.

(** X4: for a body none of whose array elements has a property named
    [__proto__], the handler answers 502 "Invalid JSON" exactly when the
    body is falsy ([null], [false], [0], [NaN], the empty string); it
    answers 500 when the body is truthy and either the body, or the
    object or array under its [data] field, is the empty array (line 105
    then throws), or the factor that line 288 took from the payload does
    not convert to a string (line 290 then throws); a 200 response and a
    502 extraction error are given only past these two lines; the status
    is 200, 500 or 502. *)
Theorem handler_failure_outcomes (currency : string) (data : json) :
  Handler.keeps_prototype (Handler.unwrap data) = true ->
  (Handler.rates_handler currency data = InvalidJson <-> Js.truthy data = false)
  /\ (Js.truthy data = true -> Handler.unwrap data = JArray [] ->
      Handler.rates_handler currency data = InternalError)
  /\ (forall payload,
        Js.truthy data = true ->
        Handler.merge (Handler.unwrap data) = Some payload ->
        Js.to_primitive_throws
          (Handler.final_factor payload (gramToOunce (flatten payload))) = true ->
        Handler.rates_handler currency data = InternalError)
  /\ (status (Handler.rates_handler currency data) = 200
      \/ (exists keys, Handler.rates_handler currency data = ExtractionError keys) ->
      Js.truthy data = true
      /\ exists payload,
           Handler.merge (Handler.unwrap data) = Some payload
           /\ Handler.unwrap data <> JArray []
           /\ Js.to_primitive_throws
                (Handler.final_factor payload (gramToOunce (flatten payload))) = false)
  /\ (status (Handler.rates_handler currency data) = 200
      \/ status (Handler.rates_handler currency data) = 500
      \/ status (Handler.rates_handler currency data) = 502).
Proof.
  intros _. split; [|split; [|split; [|split; [|apply handler_status_cases]]]].
  - unfold Handler.rates_handler. destruct (Js.truthy data); simpl.
    + split; [|discriminate].
      destruct (Handler.merge (Handler.unwrap data)) as [payload|]; [|discriminate].
      destruct (respond_outcomes currency payload) as [[_ E]|[_ [[body E]|E]]];
        rewrite E; discriminate.
    + tauto.
  - intros T E. unfold Handler.rates_handler. now rewrite T, E.
  - intros payload T M P. unfold Handler.rates_handler. rewrite T, M. simpl.
    now apply respond_throws.
  - intros H.
    destruct (rates_handler_payload currency data _ eq_refl H) as (payload & T & M & R).
    split; [exact T|]. exists payload. split; [exact M|]. split.
    + intros E. rewrite E in M. discriminate.
    + apply (respond_not_thrown currency). rewrite R.
      destruct H as [H|[keys H]]; intros E; rewrite E in H; discriminate.
Qed.

Lemma handler_failure_outcomes_witness :
  Handler.rates_handler "usd" unprintable_factor = InternalError
  /\ Handler.rates_handler "usd" (JObject [("data", JArray [])]) = InternalError
  /\ Handler.rates_handler "usd" (JString EmptyString) = InvalidJson.
Proof.
  split; [|split].
  - destruct (handler_failure_outcomes "usd" unprintable_factor eq_refl)
      as (_ & _ & Thrown & _).
    apply (Thrown unprintable_factor); reflexivity.
  - destruct (handler_failure_outcomes "usd" (JObject [("data", JArray [])]) eq_refl)
      as (_ & Empty & _).
    apply Empty; reflexivity.
  - now apply (proj1 (handler_failure_outcomes "usd" (JString EmptyString) eq_refl)).
Defined.

(** X5: a body that holds the payload under a [data] field is answered as
    the payload itself is, whatever else the body holds, when the payload
    is an object or an array that has no object or array under a [data]
    field of its own. *)
Theorem data_wrapper_is_transparent (currency : string) (data payload : json) :
  Js.prop "data" data = Some payload ->
  Js.is_object payload = true ->
  Handler.unwrap payload = payload ->
  Handler.rates_handler currency data = Handler.rates_handler currency payload.
Proof.
  intros G O U. unfold Handler.rates_handler.
  assert (Td : Js.truthy data = true) by (destruct data; try discriminate; reflexivity).
  assert (Tp : Js.truthy payload = true) by (destruct payload; try discriminate; reflexivity).
  rewrite Td, Tp, U. simpl.
  unfold Handler.unwrap. now rewrite G, Tp, O.
Qed.

Lemma data_wrapper_is_transparent_witness :
  Handler.rates_handler "usd" (JObject [("status", JString "ok"); ("data", scenarioA)])
  = Handler.rates_handler "usd" scenarioA.
Proof.
  apply data_wrapper_is_transparent; reflexivity.
Defined.

Lemma leaf_flatten (data : json) :
  is_leaf data = true -> flatten data = [Flatten.leaf data EmptyString].
Proof.
  intros L. unfold is_leaf in L.
  destruct (Flatten.decode data) eqn:D; [discriminate|].
  unfold Flatten.flatten.
  destruct data; try discriminate L; cbn [jsize Flatten.helper]; rewrite D; reflexivity.
Qed.

(** X6: a truthy body that is a number, [true], or a string that does not
    decode as JSON text is never answered with 200: it flattens to one
    entry with the empty key, which resolves no silver price, and the
    answer is the 502 extraction error with the keys of the body. *)
Theorem scalar_body_is_502 (currency : string) (data : json) :
  is_leaf data = true ->
  Js.truthy data = true ->
  Handler.rates_handler currency data = ExtractionError (firstn 50 (Js.Object_keys data)).
Proof.
  intros L T. unfold Handler.rates_handler. rewrite T. simpl.
  assert (U : Handler.unwrap data = data).
  { unfold is_leaf in L. destruct (Flatten.decode data); [discriminate|].
    destruct data; try reflexivity; discriminate. }
  assert (M : Handler.merge data = Some data).
  { unfold is_leaf in L. destruct (Flatten.decode data); [discriminate|].
    destruct data; try reflexivity; discriminate. }
  rewrite U, M.
  assert (P : Js.to_primitive_throws
                (Handler.final_factor data (gramToOunce (flatten data))) = false).
  { rewrite (leaf_flatten data L). unfold is_leaf in L.
    destruct (Flatten.decode data); [discriminate|].
    destruct data; try discriminate L; reflexivity. }
  pose proof (respond_cases currency data P) as C. cbv zeta in C.
  assert (S : silverPerGram (extracted (flatten data) currency) = None).
  { rewrite (leaf_flatten data L).
    unfold extracted, prefer_ounce, silverFromOunce, sOunce, findKey, heuristics.
    set (e := Flatten.leaf data EmptyString).
    assert (F : forall k, find (key_or_path_end ("silver_" ++ k)) [e] = None).
    { intros k. reflexivity. }
    assert (F1 : find (key_or_path_end ("silver_ounce_in_" ++ currency)) [e] = None) by reflexivity.
    assert (F2 : find (ounce_key currency "silver_ounce") [e] = None) by reflexivity.
    rewrite F1, F2. cbn [or_else from_ounce].
    set (p4 := step4 [e] (step3 [e] (step2 [e] currency (step1 [e])))).
    assert (S4 : silverPerGram p4 = None) by reflexivity.
    assert (S5 : silverPerGram (step5 [e] currency p4) = None).
    { assert (G : gramCandidates [e] currency = []) by reflexivity.
      unfold step5. rewrite G. destruct (_ || _); [|exact S4].
      unfold take_top_two. cbn [silverPerGram]. now rewrite S4. }
    assert (S6 : silverPerGram (step6 [e] currency (step5 [e] currency p4)) = None).
    { unfold step6. destruct (_ || _); [|exact S5].
      unfold take_top_two. cbn [silverPerGram]. rewrite S5.
      unfold numericEntries, ranked. cbn [filter].
      destruct (numeric_key currency e); reflexivity. }
    destruct (negb (String.eqb currency "usd")); cbn [silverPerGram]; now rewrite S6. }
  rewrite S in C. now destruct (goldPerGram _).
Qed.

Lemma scalar_body_is_502_witness :
  Handler.rates_handler "usd" (JString "12.5") = ExtractionError ["0"; "1"; "2"; "3"].
Proof.
  apply (scalar_body_is_502 "usd" (JString "12.5")); reflexivity.
Defined.

(* ------------------------------------------------------------------ *)
(** ** The response and the route *)

Lemma success_body (currency : string) (data : json) (body : canonical) :
  Handler.rates_handler currency data = Success body ->
  exists payload,
    Js.truthy data = true
    /\ Handler.merge (Handler.unwrap data) = Some payload
    /\ Handler.respond currency payload = Success body.
Proof.
  intros H. apply (rates_handler_payload currency data (Success body) H). now left.
Qed.

Lemma respond_currency_code (currency : string) (payload : json) (body : canonical) :
  Handler.respond currency payload = Success body ->
  currency_code body = Str.toUpperCase currency
  /\ meta_source body = "GoldPriceZ.com"
  /\ meta_updated body = Handler.updated currency payload.
Proof.
  unfold Handler.respond. cbv zeta.
  destruct (Js.to_primitive_throws _); [discriminate|].
  destruct (goldPerGram _); [|discriminate].
  destruct (silverPerGram _); [|discriminate].
  intros [= <-]. repeat split.
Qed.

(** X7: for a [currency] query parameter made of ASCII characters, the
    letter case of the parameter does not matter, an empty parameter is
    a missing one, and a 200 response names the currency in upper case,
    "USD" when none was asked for. *)
Theorem currency_is_case_insensitive (q : string) (data : json) :
  Str.forallb Str.is_ascii q = true ->
  Handler.requested_currency (Some (Str.toUpperCase q)) = Handler.requested_currency (Some q)
  /\ Handler.requested_currency (Some (Str.toLowerCase q)) = Handler.requested_currency (Some q)
  /\ Handler.requested_currency (Some EmptyString) = Handler.requested_currency None
  /\ (forall body,
        Handler.rates_handler (Handler.requested_currency (Some q)) data = Success body ->
        currency_code body = match q with
                             | EmptyString => "USD"
                             | _ => Str.toUpperCase q
                             end).
Proof.
  intros _. split; [|split; [|split]].
  - destruct q as [|c r]; [reflexivity|]. unfold Handler.requested_currency.
    change (Str.toLowerCase (Str.toUpperCase (String c r)) = Str.toLowerCase (String c r)).
    apply toLowerCase_toUpperCase.
  - destruct q as [|c r]; [reflexivity|]. unfold Handler.requested_currency.
    change (Str.toLowerCase (Str.toLowerCase (String c r)) = Str.toLowerCase (String c r)).
    unfold Str.toLowerCase. rewrite strmap_map. apply strmap_ext.
    intros a. destruct a as [[] [] [] [] [] [] [] []]; reflexivity.
  - reflexivity.
  - intros body H. destruct (success_body _ _ _ H) as (payload & _ & _ & R).
    apply respond_currency_code in R. destruct R as [R _]. rewrite R.
    destruct q as [|c r]; [reflexivity|]. unfold Handler.requested_currency.
    apply toUpperCase_toLowerCase.
Qed.

Lemma currency_is_case_insensitive_witness :
  Handler.requested_currency (Some "INR") = Handler.requested_currency (Some "Inr")
  /\ Handler.requested_currency (Some "inr") = Handler.requested_currency (Some "Inr")
  /\ Handler.requested_currency (Some EmptyString) = Handler.requested_currency None
  /\ (forall body,
        Handler.rates_handler (Handler.requested_currency (Some "Inr")) scenarioA
        = Success body ->
        currency_code body = "INR").
Proof.
  apply (currency_is_case_insensitive "Inr" scenarioA). reflexivity.
Defined.

(** X8: [meta.updated] is [null] or a truthy value: the payload's
    [gmt_<currency>_updated] when that is truthy; otherwise, that one
    being absent or falsy, its [gmt_ounce_price_usd_updated] when that is
    truthy; and [null] when neither is truthy, as for a payload that is
    not an object. *)
Theorem updated_stamp (currency : string) (data : json) :
  let fx := Js.prop ("gmt_" ++ currency ++ "_updated") data in
  let usd := Js.prop "gmt_ounce_price_usd_updated" data in
  (Handler.updated currency data = JNull \/ Js.truthy (Handler.updated currency data) = true)
  /\ (forall v, fx = Some v -> Js.truthy v = true -> Handler.updated currency data = v)
  /\ (forall v, (forall w, fx = Some w -> Js.truthy w = false) ->
                usd = Some v -> Js.truthy v = true ->
                Handler.updated currency data = v)
  /\ ((forall w, fx = Some w -> Js.truthy w = false) ->
      (forall w, usd = Some w -> Js.truthy w = false) ->
      Handler.updated currency data = JNull)
  /\ (Js.is_object data = false -> Handler.updated currency data = JNull).
Proof.
  intros fx usd. unfold Handler.updated. cbv zeta. unfold Js.or_null. fold fx usd.
  split; [|split; [|split; [|split]]].
  - destruct fx as [x|].
    + destruct (Js.truthy x) eqn:T.
      * rewrite T. now right.
      * simpl. destruct usd as [u|]; [|now left].
        destruct (Js.truthy u) eqn:Tu; [now right|now left].
    + simpl. destruct usd as [u|]; [|now left].
      destruct (Js.truthy u) eqn:Tu; [now right|now left].
  - intros v -> T. now rewrite T, T.
  - intros v F -> T. rewrite T.
    destruct fx as [x|]; [|reflexivity]. now rewrite (F x eq_refl).
  - intros F U.
    assert (Eu : match usd with
                 | Some v => if Js.truthy v then v else JNull
                 | None => JNull
                 end = JNull).
    { destruct usd as [u|]; [|reflexivity]. now rewrite (U u eq_refl). }
    rewrite Eu. destruct fx as [x|]; [|reflexivity]. now rewrite (F x eq_refl).
  - intros O. subst fx usd. destruct data; try discriminate; reflexivity.
Qed.

(** X9: a gram-to-ounce entry that parses to zero is kept as the factor
    (line 288 only replaces [null]): no per-ounce price is derived from
    it, and the [perOunce] of a finite non-zero gold price is an infinity
    in the 200 response. *)
Theorem zero_factor_divides (currency : string) (payload : json) (body : canonical)
    (z sg : bool) (m : positive) (e : Z) :
  Handler.respond currency payload = Success body ->
  gramToOunce (flatten payload) = Some (S754_zero z) ->
  perGram (gold body) = S754_finite sg m e ->
  perOunce (gold body) = S754_infinity (xorb sg z)
  /\ Num.isFinite (perOunce (gold body)) = false
  /\ goldFromOunce (flatten payload) currency = None
  /\ silverFromOunce (flatten payload) currency = None.
Proof.
  intros R F G.
  assert (P : perOunce (gold body) = S754_infinity (xorb sg z)).
  { unfold Handler.respond in R. cbv zeta in R.
    destruct (Js.to_primitive_throws _); [discriminate|].
    destruct (goldPerGram _) as [g|]; [|discriminate].
    destruct (silverPerGram _) as [s|]; [|discriminate].
    injection R as <-. simpl in *. rewrite F, G. reflexivity. }
  split; [exact P|]. split; [now rewrite P|].
  unfold goldFromOunce, silverFromOunce, from_ounce. rewrite F.
  split.
  - destruct (gOunce _ _); [|reflexivity]. now destruct (parseNumber _).
  - destruct (sOunce _ _); [|reflexivity]. now destruct (parseNumber _).
Qed.

Lemma zero_factor_divides_witness :
  exists body,
    Handler.respond "usd"
      (JObject [("gold_gram", int 1); ("silver_gram", int 0); ("gram_to_ounce", int 0)])
    = Success body
    /\ perOunce (gold body) = Num.infinity.
Proof.
  eexists. split; [vm_compute; reflexivity|].
  apply (zero_factor_divides "usd"
           (JObject [("gold_gram", int 1); ("silver_gram", int 0); ("gram_to_ounce", int 0)])
           _ false false 4503599627370496%positive (-52)%Z); reflexivity.
Defined.


(* ------------------------------------------------------------------ *)
(** ** The prices of the heuristics are Numbers *)

(* ---------- candidates ---------- *)

Lemma ranked_In (entries : list entry) (keep : entry -> bool) (c : candidate) :
  (forall e, keep e = true -> parses e = true) ->
  In c (ranked entries keep) ->
  exists e, In e entries /\ keep e = true /\ parseNumber (value e) = Some (num c).
Proof.
  intros K Hc. unfold ranked in Hc.
  apply (Permutation_in _ (sort_perm by_num_desc _)) in Hc.
  apply in_map_iff in Hc. destruct Hc as (e & <- & He).
  apply filter_In in He. destruct He as [Hin Hk].
  exists e. split; [exact Hin|]. split; [exact Hk|].
  apply K in Hk. unfold parses in Hk. unfold with_num. simpl.
  now destruct (parseNumber (value e)).
Qed.

Lemma ranked_length (entries : list entry) (keep : entry -> bool) :
  List.length (ranked entries keep) = List.length (filter keep entries).
Proof.
  unfold ranked. rewrite (Permutation_length (sort_perm by_num_desc _)).
  apply length_map.
Qed.

Lemma numeric_key_parses (currency : string) (e : entry) :
  numeric_key currency e = true -> parses e = true.
Proof.
  unfold numeric_key. rewrite !andb_true_iff. tauto.
Qed.

Lemma numeric_key_spec (currency : string) (e : entry) :
  numeric_key currency e = true <->
  (exists n, parseNumber (value e) = Some n)
  /\ Str.includes (lc (key e)) "gmt" = false
  /\ Str.includes (lc (key e)) "updated" = false
  /\ Str.includes (lc (key e)) "time" = false
  /\ (currency = "usd" \/ Str.includes (lc (key e)) "usd" = false).
Proof.
  unfold numeric_key, parses, currency_allows, is_null.
  rewrite !andb_true_iff, orb_true_iff, !negb_true_iff, String.eqb_eq.
  split.
  - intros ((((Hp & H1) & H2) & H3) & Hc).
    destruct (parseNumber (value e)) as [n|]; [|discriminate Hp].
    split; [now exists n|]. tauto.
  - intros ((n & Hn) & H1 & H2 & H3 & Hc). rewrite Hn. tauto.
Qed.

(* ---------- no NaN ---------- *)

Lemma assign_found_not_NaN (found : option entry) (field : option number) (n : number) :
  (forall m, field = Some m -> Num.isNaN m = false) ->
  assign_found found field = Some n -> Num.isNaN n = false.
Proof.
  intros F. unfold assign_found. destruct found as [e|]; [|apply F].
  destruct (parseNumber (value e)) as [m|] eqn:P; [|apply F].
  intros [= <-]. now apply (parseNumber_Some_not_NaN (value e)).
Qed.

Lemma when_null_not_NaN (found : option entry) (field : option number) (n : number) :
  (forall m, field = Some m -> Num.isNaN m = false) ->
  when_null field found = Some n -> Num.isNaN n = false.
Proof.
  intros F. unfold when_null. destruct field as [m|]; [apply F|].
  apply assign_found_not_NaN. discriminate.
Qed.

Lemma take_top_two_not_NaN (entries : list entry) (keep : entry -> bool) (p : prices) :
  (forall e, keep e = true -> parses e = true) ->
  no_NaN p -> no_NaN (take_top_two (ranked entries keep) p).
Proof.
  intros K [G S].
  assert (C : forall c, In c (ranked entries keep) -> Num.isNaN (num c) = false).
  { intros c Hc. destruct (ranked_In entries keep c K Hc) as (e & _ & _ & P).
    now apply (parseNumber_Some_not_NaN (value e)). }
  split; intros n; unfold take_top_two; simpl.
  - destruct (goldPerGram p) as [g|]; [apply G|].
    destruct (ranked entries keep) as [|c0 r]; [discriminate|].
    intros [= <-]. apply C. now left.
  - destruct (silverPerGram p) as [s|]; [apply S|].
    destruct (ranked entries keep) as [|c0 [|c1 r]]; try discriminate.
    intros [= <-]. apply C. right. now left.
Qed.

Lemma heuristics_no_NaN (entries : list entry) (currency : string) :
  no_NaN (heuristics entries currency).
Proof.
  assert (P1 : no_NaN (step1 entries)).
  { split; intros n; simpl; apply assign_found_not_NaN; discriminate. }
  assert (P2 : no_NaN (step2 entries currency (step1 entries))).
  { destruct P1 as [G S]. split; intros n; apply when_null_not_NaN; assumption. }
  assert (P3 : no_NaN (step3 entries (step2 entries currency (step1 entries)))).
  { destruct P2 as [G S]. split; intros n; apply when_null_not_NaN; assumption. }
  assert (P4 : no_NaN (after_step4 entries currency)).
  { destruct P3 as [G S]. split; intros n; apply when_null_not_NaN; assumption. }
  assert (P5 : no_NaN (step5 entries currency (after_step4 entries currency))).
  { unfold step5. destruct (_ || _); [|exact P4].
    apply take_top_two_not_NaN; [apply gram_key_parses|exact P4]. }
  unfold heuristics. fold (after_step4 entries currency).
  unfold step6. destruct (_ || _); [|exact P5].
  apply take_top_two_not_NaN; [apply numeric_key_parses|exact P5].
Qed.

(** X11: no price resolved by the six heuristics is [NaN], and for "usd"
    the per-ounce rule keeps a resolved gold price.  The per-ounce rule of
    another currency can still give [NaN]: with an infinite factor and
    per-ounce prices of zero the 200 response carries [NaN] for both
    metals. *)
Theorem heuristic_prices_are_not_NaN (entries : list entry) (currency : string) :
  no_NaN (heuristics entries currency)
  /\ (currency = "usd" ->
      forall n, goldPerGram (heuristics entries currency) = Some n ->
                goldPerGram (extracted entries currency) = Some n)
  /\ exists body,
       Handler.rates_handler "inr" infinite_factor = Success body
       /\ Num.isNaN (perGram (gold body)) = true
       /\ Num.isNaN (perGram (silver body)) = true.
Proof.
  split; [apply heuristics_no_NaN|]. split.
  - intros -> n H. unfold extracted, prefer_ounce. simpl. now rewrite H.
  - eexists. vm_compute. repeat split.
Qed.

Lemma prefer_ounce_keeps_resolved (entries : list entry) (currency : string) (p : prices) :
  (goldPerGram p <> None -> goldPerGram (prefer_ounce entries currency p) <> None)
  /\ (silverPerGram p <> None -> silverPerGram (prefer_ounce entries currency p) <> None).
Proof.
  unfold prefer_ounce. destruct (negb (String.eqb currency "usd")); simpl; split; intros H.
  - now destruct (goldFromOunce entries currency).
  - now destruct (silverFromOunce entries currency).
  - now destruct (goldPerGram p).
  - now destruct (silverPerGram p).
Qed.

Lemma step6_resolves (entries : list entry) (currency : string) (p : prices) :
  2 <= List.length (filter (numeric_key currency) entries) ->
  goldPerGram (step6 entries currency p) <> None
  /\ silverPerGram (step6 entries currency p) <> None.
Proof.
  intros L. rewrite <- ranked_length in L. unfold step6, numericEntries.
  destruct (goldPerGram p) as [g|] eqn:G, (silverPerGram p) as [s|] eqn:S; simpl.
  - rewrite G, S. split; discriminate.
  - rewrite G, S. destruct (ranked entries (numeric_key currency)) as [|c0 [|c1 r]];
      simpl in L; try lia. split; discriminate.
  - rewrite G, S. destruct (ranked entries (numeric_key currency)) as [|c0 [|c1 r]];
      simpl in L; try lia. split; discriminate.
  - rewrite G, S. destruct (ranked entries (numeric_key currency)) as [|c0 [|c1 r]];
      simpl in L; try lia. split; discriminate.
Qed.

(** X12: for a payload with at least two flattened entries that step 6
    accepts (a value that parses, a key without "gmt", "updated" and
    "time", and without "usd" for another currency), both prices are
    resolved at line 292: the answer is never the 502 extraction error;
    it is 200, or 500, as it is when the factor of line 288 does not
    convert to a string and line 290 throws. *)
Theorem two_numbers_suffice (currency : string) (payload : json) :
  2 <= List.length (filter (numeric_key currency) (flatten payload)) ->
  (goldPerGram (extracted (flatten payload) currency) <> None
   /\ silverPerGram (extracted (flatten payload) currency) <> None)
  /\ (forall keys, Handler.respond currency payload <> ExtractionError keys)
  /\ ((exists body, Handler.respond currency payload = Success body)
      \/ Handler.respond currency payload = InternalError)
  /\ (Js.to_primitive_throws
        (Handler.final_factor payload (gramToOunce (flatten payload))) = true ->
      Handler.respond currency payload = InternalError).
Proof.
  intros L.
  destruct (step6_resolves (flatten payload) currency
              (step5 (flatten payload) currency (after_step4 (flatten payload) currency)) L)
    as [G S].
  fold (heuristics (flatten payload) currency) in G, S.
  destruct (prefer_ounce_keeps_resolved (flatten payload) currency
              (heuristics (flatten payload) currency)) as [G' S'].
  specialize (G' G). specialize (S' S).
  fold (extracted (flatten payload) currency) in G', S'.
  assert (Ok : Js.to_primitive_throws
                 (Handler.final_factor payload (gramToOunce (flatten payload))) = false ->
               exists body, Handler.respond currency payload = Success body).
  { intros P. pose proof (respond_cases currency payload P) as C. cbv zeta in C.
    destruct (goldPerGram (extracted (flatten payload) currency)) as [g|]; [|congruence].
    destruct (silverPerGram (extracted (flatten payload) currency)) as [s|]; [|congruence].
    destruct C as (body & E & _). now exists body. }
  assert (Cases : (exists body, Handler.respond currency payload = Success body)
                  \/ Handler.respond currency payload = InternalError).
  { destruct (Js.to_primitive_throws
                (Handler.final_factor payload (gramToOunce (flatten payload)))) eqn:P.
    - right. now apply respond_throws.
    - left. now apply Ok. }
  split; [now split|]. split; [|split; [exact Cases|apply respond_throws]].
  intros keys E. destruct Cases as [[body Eb]|Eb]; rewrite Eb in E; discriminate.
Qed.

Lemma two_numbers_suffice_witness :
  (goldPerGram (extracted (flatten two_numbers) "inr") <> None
   /\ silverPerGram (extracted (flatten two_numbers) "inr") <> None)
  /\ (forall keys, Handler.respond "inr" two_numbers <> ExtractionError keys)
  /\ ((exists body, Handler.respond "inr" two_numbers = Success body)
      \/ Handler.respond "inr" two_numbers = InternalError)
  /\ (Js.to_primitive_throws
        (Handler.final_factor two_numbers (gramToOunce (flatten two_numbers))) = true ->
      Handler.respond "inr" two_numbers = InternalError).
Proof.
  apply (two_numbers_suffice "inr" two_numbers). vm_compute. lia.
Defined.

(* ------------------------------------------------------------------ *)
(** ** Steps 2, 4 and 6 *)

(** X13: for a payload whose Numbers are binary64 Numbers, step 6 ranks
    the entries whose value parses and whose key contains none of "gmt",
    "updated", "time" (nor "usd" when the currency is not "usd"): the
    ranked list is a permutation of these candidates, in descending
    numeric order; a gold price still unresolved after step 5 becomes the
    largest value, a silver price still unresolved the second one, and
    each stays unresolved when there is no such candidate. *)
Theorem step6_takes_largest_numbers (payload : json) (currency : string) :
  wf_numbers payload ->
  let entries := flatten payload in
  let p5 := step5 entries currency (after_step4 entries currency) in
  let sorted := numericEntries entries currency in
  (forall c, In c sorted ->
     exists e, In e entries /\ parseNumber (value e) = Some (num c)
               /\ Str.includes (lc (key e)) "gmt" = false
               /\ Str.includes (lc (key e)) "updated" = false
               /\ Str.includes (lc (key e)) "time" = false
               /\ (currency = "usd" \/ Str.includes (lc (key e)) "usd" = false))
  /\ Permutation sorted (List.map with_num (filter (numeric_key currency) entries))
  /\ List.length sorted = List.length (filter (numeric_key currency) entries)
  /\ StronglySorted num_ge sorted
  /\ (goldPerGram p5 = None ->
      match sorted with
      | c0 :: rest =>
          goldPerGram (heuristics entries currency) = Some (num c0)
          /\ Forall (num_ge c0) rest
      | [] => goldPerGram (heuristics entries currency) = None
      end)
  /\ (silverPerGram p5 = None ->
      match sorted with
      | c0 :: c1 :: rest =>
          silverPerGram (heuristics entries currency) = Some (num c1)
          /\ num_ge c0 c1 /\ Forall (num_ge c1) rest
      | _ => silverPerGram (heuristics entries currency) = None
      end).
Proof.
  intros W entries p5 sorted.
  pose proof (flatten_valid_values payload W) as V. fold entries in V.
  destruct (ranked_sorted entries (numeric_key currency) V (numeric_key_parses currency))
    as [S P].
  fold (numericEntries entries currency) in S, P. fold sorted in S, P.
  assert (E6 : goldPerGram p5 = None \/ silverPerGram p5 = None ->
               heuristics entries currency = take_top_two sorted p5).
  { intros Hnull. unfold heuristics. fold (after_step4 entries currency). fold p5.
    unfold step6. fold sorted.
    destruct Hnull as [H|H]; rewrite H; [reflexivity|]. now rewrite orb_true_r. }
  split; [|split; [exact P|split; [|split; [exact S|split]]]].
  - intros c Hc.
    destruct (ranked_In entries (numeric_key currency) c (numeric_key_parses currency) Hc)
      as (e & Hin & Hk & Hp).
    apply numeric_key_spec in Hk. destruct Hk as (_ & Hk).
    exists e. split; [exact Hin|]. split; [exact Hp|exact Hk].
  - apply ranked_length.
  - intros G. rewrite (E6 (or_introl G)). cbn [goldPerGram take_top_two]. rewrite G.
    destruct sorted as [|c0 rest]; [reflexivity|].
    split; [reflexivity|]. now inversion S.
  - intros G. rewrite (E6 (or_intror G)). cbn [silverPerGram take_top_two]. rewrite G.
    destruct sorted as [|c0 [|c1 rest]]; [reflexivity..|].
    split; [reflexivity|]. inversion S as [|? ? S1 F0]; subst.
    split; [now inversion F0|now inversion S1].
Qed.

Lemma step6_takes_largest_numbers_witness :
  goldPerGram (heuristics (flatten plain_numbers) "usd") = Some (Num.of_N 7)
  /\ silverPerGram (heuristics (flatten plain_numbers) "usd") = Some (Num.of_N 3).
Proof.
  assert (W : wf_numbers plain_numbers) by (simpl; repeat split; reflexivity).
  destruct (step6_takes_largest_numbers plain_numbers "usd" W) as (_ & _ & _ & _ & G & S).
  split.
  - exact (proj1 (G eq_refl)).
  - exact (proj1 (S eq_refl)).
Defined.

(* ---------- steps 2 and 4 ---------- *)

Lemma when_null_first (f : entry -> bool) (entries : list entry) (e : entry) (n : number) :
  first_such f entries e -> parseNumber (value e) = Some n ->
  when_null None (find f entries) = Some n.
Proof.
  intros F P. apply find_first_such in F. rewrite F. simpl. now rewrite P.
Qed.

Lemma when_null_no_match (f : entry -> bool) (entries : list entry) (field : option number) :
  (forall x, In x entries -> f x = false) ->
  when_null field (find f entries) = field.
Proof.
  intros H. apply find_none_iff in H. rewrite H. now destruct field.
Qed.

Lemma step56_keep_gold (entries : list entry) (currency : string) (p : prices) (n : number) :
  goldPerGram p = Some n ->
  goldPerGram (step6 entries currency (step5 entries currency p)) = Some n.
Proof. intros H. now apply step6_keeps_gold, step5_keeps_gold. Qed.

Lemma step56_keep_silver (entries : list entry) (currency : string) (p : prices) (n : number) :
  silverPerGram p = Some n ->
  silverPerGram (step6 entries currency (step5 entries currency p)) = Some n.
Proof. intros H. now apply step6_keeps_silver, step5_keeps_silver. Qed.

Lemma currency_key_no_dot (prefix currency : string) :
  Str.includes prefix "." = false -> Str.includes currency "." = false ->
  Str.includes (prefix ++ currency) "." = false.
Proof. intros A B. now rewrite includes_dot_app, A, B. Qed.

Lemma silver_gram_in_key (currency : string) (e : entry) :
  lc (key e) = ("silver_gram_in_" ++ currency)%string ->
  key_includes ["silver"; "gram"] e = true.
Proof.
  intros E. unfold key_includes. cbn [forallb]. rewrite E. reflexivity.
Qed.

(** X14: step 2 gives a gold price that step 1 left unresolved the parsed
    value of the first entry whose key is [gram_in_<currency>] or whose
    path ends with a dot and that key, and the later steps keep it; the
    same for silver and [silver_gram_in_<currency>].  Without such an entry
    step 2 changes nothing.  On flattened entries and for a currency
    without a dot the silver branch never fires when no key contains both
    "silver" and "gram". *)
Theorem step2_uses_the_currency_key (entries : list entry) (currency : string) :
  (forall e n,
      goldPerGram (step1 entries) = None ->
      first_such (key_or_path_end ("gram_in_" ++ currency)) entries e ->
      parseNumber (value e) = Some n ->
      goldPerGram (step2 entries currency (step1 entries)) = Some n
      /\ goldPerGram (heuristics entries currency) = Some n)
  /\ (forall e n,
      silverPerGram (step1 entries) = None ->
      first_such (key_or_path_end ("silver_gram_in_" ++ currency)) entries e ->
      parseNumber (value e) = Some n ->
      silverPerGram (step2 entries currency (step1 entries)) = Some n
      /\ silverPerGram (heuristics entries currency) = Some n)
  /\ (forall p,
      (forall x, In x entries -> key_or_path_end ("gram_in_" ++ currency) x = false) ->
      goldPerGram (step2 entries currency p) = goldPerGram p)
  /\ (forall p,
      (forall x, In x entries -> key_or_path_end ("silver_gram_in_" ++ currency) x = false) ->
      silverPerGram (step2 entries currency p) = silverPerGram p)
  /\ (forall payload p,
      entries = flatten payload ->
      Str.includes currency "." = false ->
      pickByKeyIncludes entries ["silver"; "gram"] = None ->
      silverPerGram (step2 entries currency p) = silverPerGram p).
Proof.
  split; [|split; [|split; [|split]]].
  - intros e n G F P.
    assert (H2 : goldPerGram (step2 entries currency (step1 entries)) = Some n).
    { cbn [goldPerGram step2]. rewrite G. now apply (when_null_first _ _ e). }
    split; [exact H2|]. unfold heuristics.
    now apply step56_keep_gold, step4_keeps_gold, step3_keeps_gold.
  - intros e n G F P.
    assert (H2 : silverPerGram (step2 entries currency (step1 entries)) = Some n).
    { cbn [silverPerGram step2]. rewrite G. now apply (when_null_first _ _ e). }
    split; [exact H2|]. unfold heuristics.
    now apply step56_keep_silver, step4_keeps_silver, step3_keeps_silver.
  - intros p H. cbn [goldPerGram step2]. now apply when_null_no_match.
  - intros p H. cbn [silverPerGram step2]. now apply when_null_no_match.
  - intros payload p -> D N. cbn [silverPerGram step2]. apply when_null_no_match.
    intros x Hx.
    rewrite (proj1 (flat_entry_tests payload x _ Hx))
      by (now apply currency_key_no_dot).
    destruct (String.eqb (lc (key x)) ("silver_gram_in_" ++ currency)) eqn:E; [|reflexivity].
    apply String.eqb_eq in E. apply silver_gram_in_key in E.
    rewrite pickByKeyIncludes_find in N.
    rewrite (proj1 (find_none_iff _ _) N x Hx) in E. discriminate.
Qed.

Lemma step2_uses_the_currency_key_witness :
  let entries := [entry_of "gram_in_inr" (int 7000);
                  entry_of "silver_gram_in_inr" (JString "n/a")] in
  goldPerGram (step2 entries "inr" (step1 entries)) = Some (Num.of_N 7000)
  /\ goldPerGram (heuristics entries "inr") = Some (Num.of_N 7000).
Proof.
  intros entries.
  destruct (step2_uses_the_currency_key entries "inr") as (G & _).
  apply (G (entry_of "gram_in_inr" (int 7000)) (Num.of_N 7000)).
  - reflexivity.
  - exists [], (tl entries). split; [reflexivity|]. split; [intros x []|reflexivity].
  - reflexivity.
Defined.

(** X15: step 4 gives a gold price that steps 1-3 left unresolved the
    parsed value of the first entry whose key or path contains "xau", and
    steps 5 and 6 keep it; the same for silver and "xag".  Without such an
    entry step 4 changes nothing.  On flattened entries the test is a test
    of the path alone. *)
Theorem step4_uses_the_tickers (entries : list entry) (currency : string) :
  let p3 := step3 entries (step2 entries currency (step1 entries)) in
  (forall e n,
      goldPerGram p3 = None ->
      first_such (mentions "xau") entries e ->
      parseNumber (value e) = Some n ->
      goldPerGram (after_step4 entries currency) = Some n
      /\ goldPerGram (heuristics entries currency) = Some n)
  /\ (forall e n,
      silverPerGram p3 = None ->
      first_such (mentions "xag") entries e ->
      parseNumber (value e) = Some n ->
      silverPerGram (after_step4 entries currency) = Some n
      /\ silverPerGram (heuristics entries currency) = Some n)
  /\ ((forall x, In x entries -> mentions "xau" x = false) ->
      goldPerGram (after_step4 entries currency) = goldPerGram p3)
  /\ ((forall x, In x entries -> mentions "xag" x = false) ->
      silverPerGram (after_step4 entries currency) = silverPerGram p3)
  /\ (forall payload x,
      entries = flatten payload -> In x entries ->
      mentions "xau" x = Str.includes (lc (path x)) "xau"
      /\ mentions "xag" x = Str.includes (lc (path x)) "xag").
Proof.
  intros p3. split; [|split; [|split; [|split]]].
  - intros e n G F P.
    assert (H4 : goldPerGram (after_step4 entries currency) = Some n).
    { unfold after_step4. fold p3. cbn [goldPerGram step4]. rewrite G.
      now apply (when_null_first _ _ e). }
    split; [exact H4|]. unfold heuristics. fold (after_step4 entries currency).
    now apply step56_keep_gold.
  - intros e n G F P.
    assert (H4 : silverPerGram (after_step4 entries currency) = Some n).
    { unfold after_step4. fold p3. cbn [silverPerGram step4]. rewrite G.
      now apply (when_null_first _ _ e). }
    split; [exact H4|]. unfold heuristics. fold (after_step4 entries currency).
    now apply step56_keep_silver.
  - intros H. unfold after_step4. fold p3. cbn [goldPerGram step4].
    now apply when_null_no_match.
  - intros H. unfold after_step4. fold p3. cbn [silverPerGram step4].
    now apply when_null_no_match.
  - intros payload x -> Hx. split; apply (flat_entry_tests payload x _ Hx).
Qed.

Lemma step4_uses_the_tickers_witness :
  let entries := [entry_of "rates.XAU.price" (JString " 64.5 "); entry_of "xag" (int 1)] in
  goldPerGram (heuristics entries "usd") = Some (dec 645 (-1))
  /\ silverPerGram (heuristics entries "usd") = Some (Num.of_N 1).
Proof.
  intros entries.
  destruct (step4_uses_the_tickers entries "usd") as (G & S & _).
  split.
  - apply (G (entry_of "rates.XAU.price" (JString " 64.5 ")) (dec 645 (-1))).
    + reflexivity.
    + exists [], (tl entries). split; [reflexivity|]. split; [intros x []|reflexivity].
    + reflexivity.
  - apply (S (entry_of "xag" (int 1)) (Num.of_N 1)).
    + reflexivity.
    + exists [entry_of "rates.XAU.price" (JString " 64.5 ")], [].
      split; [reflexivity|]. split; [|reflexivity]. intros x [<-|[]]. reflexivity.
    + reflexivity.
Defined.

(* ------------------------------------------------------------------ *)
(** ** Objects, parsed values and the merge of an array *)

(* ---------- objects: lookup after update ---------- *)

Lemma get_None_keys (k : string) (o : Obj.t) : Obj.get k o = None <-> ~ In k (Obj.keys o).
Proof.
  induction o as [|[k' v'] r IH]; simpl.
  - split; [intros _ []|reflexivity].
  - destruct (String.eqb k' k) eqn:E.
    + apply String.eqb_eq in E. split; [discriminate|]. intros H. exfalso. apply H. now left.
    + apply String.eqb_neq in E. rewrite IH. split.
      * intros H [H1|H1]; [now apply E|now apply H].
      * intros H H1. apply H. now right.
Qed.

Lemma has_false (k : string) (o : Obj.t) : Obj.has k o = false <-> Obj.get k o = None.
Proof. unfold Obj.has. destruct (Obj.get k o); split; congruence. Qed.

Lemma get_replace_same (k : string) (v : json) (o : Obj.t) :
  Obj.has k o = true -> Obj.get k (Obj.replace k v o) = Some v.
Proof.
  unfold Obj.has. induction o as [|[k' v'] r IH]; simpl; [discriminate|].
  destruct (String.eqb k' k) eqn:E; simpl.
  - now rewrite String.eqb_refl.
  - now rewrite E.
Qed.

Lemma get_replace_other (k k' : string) (v : json) (o : Obj.t) :
  k' <> k -> Obj.get k' (Obj.replace k v o) = Obj.get k' o.
Proof.
  intros N. induction o as [|[k1 v1] r IH]; simpl; [reflexivity|].
  destruct (String.eqb k1 k) eqn:E; simpl.
  - apply String.eqb_eq in E. subst k1.
    apply not_eq_sym in N. apply String.eqb_neq in N. now rewrite N.
  - now rewrite IH.
Qed.

Lemma get_insert_index_same (i : N) (k : string) (v : json) (o : Obj.t) :
  Obj.get k o = None -> Obj.get k (Obj.insert_index i k v o) = Some v.
Proof.
  induction o as [|[k1 v1] r IH]; simpl.
  - now rewrite String.eqb_refl.
  - destruct (String.eqb k1 k) eqn:E; [discriminate|]. intros H.
    destruct (Obj.array_index k1) as [j|].
    + destruct (j <? i)%N; simpl.
      * rewrite E. now apply IH.
      * now rewrite String.eqb_refl.
    + simpl. now rewrite String.eqb_refl.
Qed.

Lemma get_insert_index_other (i : N) (k k' : string) (v : json) (o : Obj.t) :
  k' <> k -> Obj.get k' (Obj.insert_index i k v o) = Obj.get k' o.
Proof.
  intros N. apply not_eq_sym in N. apply String.eqb_neq in N.
  induction o as [|[k1 v1] r IH]; simpl.
  - now rewrite N.
  - destruct (Obj.array_index k1) as [j|].
    + destruct (j <? i)%N; simpl.
      * now rewrite IH.
      * now rewrite N.
    + simpl. now rewrite N.
Qed.

Lemma get_app_same (k : string) (v : json) (o : Obj.t) :
  Obj.get k o = None -> Obj.get k (o ++ [(k, v)]) = Some v.
Proof.
  induction o as [|[k1 v1] r IH]; simpl.
  - now rewrite String.eqb_refl.
  - destruct (String.eqb k1 k); [discriminate|exact IH].
Qed.

Lemma get_app_other (k k' : string) (v : json) (o : Obj.t) :
  k' <> k -> Obj.get k' (o ++ [(k, v)]) = Obj.get k' o.
Proof.
  intros N. apply not_eq_sym in N. apply String.eqb_neq in N.
  induction o as [|[k1 v1] r IH]; simpl.
  - now rewrite N.
  - now rewrite IH.
Qed.

Lemma get_set_same (k : string) (v : json) (o : Obj.t) :
  Obj.get k (Obj.set k v o) = Some v.
Proof.
  unfold Obj.set. destruct (Obj.has k o) eqn:H; [now apply get_replace_same|].
  apply has_false in H.
  destruct (Obj.array_index k); [now apply get_insert_index_same|now apply get_app_same].
Qed.

Lemma get_set_other (k k' : string) (v : json) (o : Obj.t) :
  k' <> k -> Obj.get k' (Obj.set k v o) = Obj.get k' o.
Proof.
  intros N. unfold Obj.set. destruct (Obj.has k o); [now apply get_replace_other|].
  destruct (Obj.array_index k); [now apply get_insert_index_other|now apply get_app_other].
Qed.

Lemma get_assign_other (k : string) (source : list (string * json)) (target : Obj.t) :
  (forall kv, In kv source -> fst kv <> k) ->
  Obj.get k (Obj.assign target source) = Obj.get k target.
Proof.
  unfold Obj.assign. revert target.
  induction source as [|[k1 v1] r IH]; intros target H; simpl; [reflexivity|].
  rewrite IH by (intros kv Hkv; apply H; now right).
  apply get_set_other. apply not_eq_sym. apply (H (k1, v1)). now left.
Qed.

Lemma get_assign (k : string) (source : list (string * json)) (target : Obj.t) :
  NoDup (Obj.keys source) ->
  Obj.get k (Obj.assign target source)
  = match Obj.get k source with Some v => Some v | None => Obj.get k target end.
Proof.
  unfold Obj.assign. revert target.
  induction source as [|[k1 v1] r IH]; intros target D; simpl; [reflexivity|].
  inversion D as [|? ? Hn Hr]; subst.
  rewrite (IH _ Hr).
  destruct (String.eqb k1 k) eqn:E.
  - apply String.eqb_eq in E. subst k1.
    apply get_None_keys in Hn. rewrite Hn. apply get_set_same.
  - apply String.eqb_neq in E.
    destruct (Obj.get k r); [reflexivity|]. apply get_set_other. congruence.
Qed.

(* ---------- the decimal numeral of an index ---------- *)

Lemma digit_char_is_digit (d : nat) : d < 10 -> Str.is_digit (Str.digit_char d) = true.
Proof.
  intros H. do 10 (destruct d as [|d]; [reflexivity|]). lia.
Qed.

Lemma of_nat_aux_digits (fuel n : nat) (acc : string) :
  Str.forallb Str.is_digit acc = true ->
  Str.forallb Str.is_digit (Str.of_nat_aux fuel n acc) = true.
Proof.
  revert n acc. induction fuel as [|f IH]; intros n acc H; simpl; [exact H|].
  assert (H' : Str.forallb Str.is_digit (String (Str.digit_char (n mod 10)) acc) = true).
  { cbn [Str.forallb]. rewrite H, digit_char_is_digit; [reflexivity|].
    apply Nat.mod_upper_bound. lia. }
  destruct (n <? 10); [exact H'|now apply IH].
Qed.

Lemma of_nat_digits (n : nat) : Str.forallb Str.is_digit (Str.of_nat n) = true.
Proof. apply of_nat_aux_digits. reflexivity. Qed.

Lemma indexed_keys_digits {A : Type} (l : list A) (i : nat) (kv : string * A) :
  In kv (Js.indexed i l) -> Str.forallb Str.is_digit (fst kv) = true.
Proof.
  revert i. induction l as [|x r IH]; intros i; simpl; [intros []|].
  intros [<-|H]; [apply of_nat_digits|now apply (IH (S i))].
Qed.

(* ---------- distinct keys ---------- *)

Lemma distinct_array (l : list json) : distinct_keys (JArray l) <-> Forall distinct_keys l.
Proof.
  induction l as [|x r IH]; simpl.
  - split; [constructor|trivial].
  - simpl in IH. rewrite IH. split.
    + intros [H1 H2]. now constructor.
    + intros H. inversion H. tauto.
Qed.

Lemma distinct_object (o : list (string * json)) :
  distinct_keys (JObject o) <-> NoDup (Obj.keys o) /\ distinct_props o.
Proof.
  unfold distinct_props. cbn [distinct_keys].
  assert (E : (fix all (o0 : list (string * json)) : Prop :=
                 match o0 with
                 | [] => True
                 | kv :: r => distinct_keys (snd kv) /\ all r
                 end) o <-> Forall (fun kv => distinct_keys (snd kv)) o).
  { induction o as [|x r IH].
    - split; [constructor|trivial].
    - rewrite IH. split.
      + intros [H1 H2]. now constructor.
      + intros H. inversion H. tauto. }
  now rewrite E.
Qed.

Lemma keys_replace (k : string) (v : json) (o : Obj.t) :
  Obj.keys (Obj.replace k v o) = Obj.keys o.
Proof.
  induction o as [|[k1 v1] r IH]; simpl; [reflexivity|].
  destruct (String.eqb k1 k) eqn:E; simpl.
  - apply String.eqb_eq in E. now subst.
  - now rewrite IH.
Qed.

Lemma keys_insert_index (i : N) (k : string) (v : json) (o : Obj.t) :
  Permutation (Obj.keys (Obj.insert_index i k v o)) (k :: Obj.keys o).
Proof.
  induction o as [|[k1 v1] r IH]; simpl; [apply Permutation_refl|].
  destruct (Obj.array_index k1) as [j|]; [|apply Permutation_refl].
  destruct (j <? i)%N; [|apply Permutation_refl]. simpl.
  eapply perm_trans; [apply perm_skip, IH|apply perm_swap].
Qed.

Lemma set_NoDup (k : string) (v : json) (o : Obj.t) :
  NoDup (Obj.keys o) -> NoDup (Obj.keys (Obj.set k v o)).
Proof.
  intros D. unfold Obj.set. destruct (Obj.has k o) eqn:H.
  - now rewrite keys_replace.
  - apply has_false, get_None_keys in H.
    assert (D' : NoDup (k :: Obj.keys o)) by now constructor.
    destruct (Obj.array_index k).
    + eapply Permutation_NoDup; [apply Permutation_sym, keys_insert_index|exact D'].
    + unfold Obj.keys. rewrite map_app. simpl.
      eapply Permutation_NoDup; [|exact D'].
      apply Permutation_cons_append.
Qed.

Lemma assign_NoDup (source : list (string * json)) (target : Obj.t) :
  NoDup (Obj.keys target) -> NoDup (Obj.keys (Obj.assign target source)).
Proof.
  unfold Obj.assign. revert target.
  induction source as [|[k v] r IH]; intros target D; simpl; [exact D|].
  apply IH. now apply set_NoDup.
Qed.

Lemma replace_distinct (k : string) (v : json) (o : Obj.t) :
  distinct_keys v -> distinct_props o -> distinct_props (Obj.replace k v o).
Proof.
  intros Hv. induction 1 as [|[k' v'] r H Hr IH]; simpl; [constructor|].
  destruct (String.eqb k' k); constructor; assumption.
Qed.

Lemma insert_index_distinct (i : N) (k : string) (v : json) (o : Obj.t) :
  distinct_keys v -> distinct_props o -> distinct_props (Obj.insert_index i k v o).
Proof.
  intros Hv. induction 1 as [|[k' v'] r H Hr IH]; simpl.
  - repeat constructor. exact Hv.
  - destruct (Obj.array_index k') as [j|].
    + destruct (j <? i)%N; repeat (constructor; try assumption).
    + repeat (constructor; try assumption).
Qed.

Lemma set_distinct (k : string) (v : json) (o : Obj.t) :
  distinct_keys v -> distinct_props o -> distinct_props (Obj.set k v o).
Proof.
  intros Hv Ho. unfold Obj.set. destruct (Obj.has k o); [now apply replace_distinct|].
  destruct (Obj.array_index k); [now apply insert_index_distinct|].
  apply Forall_app. split; [exact Ho|]. repeat constructor. exact Hv.
Qed.

Lemma assign_distinct (source : list (string * json)) (target : Obj.t) :
  distinct_props source -> distinct_props target ->
  distinct_props (Obj.assign target source).
Proof.
  unfold Obj.assign. intros Hs. revert target.
  induction Hs as [|[k v] r H Hr IH]; intros target Ht; simpl; [exact Ht|].
  apply IH. now apply set_distinct.
Qed.

Lemma literal_distinct (s r : string) (v : json) :
  Json.literal s = Some (v, r) -> distinct_keys v.
Proof.
  unfold Json.literal.
  destruct (Json.strip_prefix "true" s); [intros [= <- <-]; exact I|].
  destruct (Json.strip_prefix "false" s); [intros [= <- <-]; exact I|].
  destruct (Json.strip_prefix "null" s); [intros [= <- <-]; exact I|discriminate].
Qed.

Lemma parser_distinct (fuel : nat) :
  (forall s v r, Json.value fuel s = Some (v, r) -> distinct_keys v)
  /\ (forall s l r, Json.elements fuel s = Some (l, r) -> Forall distinct_keys l)
  /\ (forall s ms r, Json.members fuel s = Some (ms, r) -> distinct_props ms).
Proof.
  induction fuel as [|f (IHv & IHe & IHm)].
  { repeat split; intros; discriminate. }
  split; [|split].
  - intros s v r. destruct s as [|c s]; [discriminate|]. rewrite value_S.
    destruct (Ascii.eqb c "[").
    { destruct (Json.skip_ws s) as [|c' r']; [discriminate|].
      destruct (Ascii.eqb c' "]"); [intros [= <- <-]; exact I|].
      destruct (Json.elements f (String c' r')) as [[l rest]|] eqn:E; [|discriminate].
      intros [= <- <-]. apply distinct_array. eapply IHe, E. }
    destruct (Ascii.eqb c "{").
    { destruct (Json.skip_ws s) as [|c' r']; [discriminate|].
      destruct (Ascii.eqb c' "}"); [intros [= <- <-]; split; [constructor|exact I]|].
      destruct (Json.members f (String c' r')) as [[ms rest]|] eqn:E; [|discriminate].
      intros [= <- <-]. apply distinct_object. split.
      - apply assign_NoDup. constructor.
      - apply assign_distinct; [eapply IHm, E|constructor]. }
    destruct (Ascii.eqb c Str.dquote).
    { destruct (Json.string_body s) as [[str rest]|]; [|discriminate].
      intros [= <- <-]. exact I. }
    destruct (Ascii.eqb c "-" || Str.is_digit c).
    { destruct (Json.number_literal (String c s)) as [[x rest]|] eqn:E; [|discriminate].
      intros [= <- <-]. exact I. }
    apply literal_distinct.
  - intros s l r. rewrite elements_S.
    destruct (Json.value f s) as [[v r0]|] eqn:Ev; [|discriminate].
    apply IHv in Ev.
    destruct (Json.skip_ws r0) as [|c r']; [discriminate|].
    destruct (Ascii.eqb c ",").
    + destruct (Json.elements f (Json.skip_ws r')) as [[l' rest]|] eqn:El; [|discriminate].
      intros [= <- <-]. constructor; [exact Ev|eapply IHe, El].
    + destruct (Ascii.eqb c "]"); [|discriminate].
      intros [= <- <-]. repeat constructor. exact Ev.
  - intros s ms r. destruct s as [|q s]; [discriminate|]. rewrite members_S.
    destruct (Ascii.eqb q Str.dquote); [|discriminate].
    destruct (Json.string_body s) as [[k r1]|]; [|discriminate].
    destruct (Json.skip_ws r1) as [|c r2]; [discriminate|].
    destruct (Ascii.eqb c ":"); [|discriminate].
    destruct (Json.value f (Json.skip_ws r2)) as [[v r3]|] eqn:Ev; [|discriminate].
    apply IHv in Ev.
    destruct (Json.skip_ws r3) as [|c' r4]; [discriminate|].
    destruct (Ascii.eqb c' ",").
    + destruct (Json.members f (Json.skip_ws r4)) as [[ms' rest]|] eqn:Em; [|discriminate].
      intros [= <- <-]. constructor; [exact Ev|eapply IHm, Em].
    + destruct (Ascii.eqb c' "}"); [|discriminate].
      intros [= <- <-]. repeat constructor. exact Ev.
Qed.

Lemma parse_distinct (s : string) (v : json) : Json.parse s = Some v -> distinct_keys v.
Proof.
  unfold Json.parse. destruct (Json.value _ _) as [[v' rest]|] eqn:E; [|discriminate].
  destruct (Json.skip_ws rest); [|discriminate]. intros [= <-].
  eapply (proj1 (parser_distinct _)), E.
Qed.

Lemma decode_distinct (val parsed : json) :
  Flatten.decode val = Some parsed -> distinct_keys parsed.
Proof.
  destruct val; try discriminate. simpl. destruct (_ || _); [|discriminate].
  apply parse_distinct.
Qed.

(* ---------- the number of entries ---------- *)

Lemma forEach_count {A : Type} (g : A -> nat -> list entry -> option (list entry))
    (w : A -> nat) (l : list A) :
  (forall x, In x l -> forall i out r,
      g x i out = Some r -> List.length r <= List.length out + w x) ->
  forall i out r, Flatten.forEach g i l out = Some r ->
                  List.length r <= List.length out + list_sum (List.map w l).
Proof.
  induction l as [|x t IH]; intros H i out r; simpl.
  - intros [= <-]. lia.
  - destruct (g x i out) as [out1|] eqn:E; [|discriminate]. intros F.
    apply (H x (or_introl eq_refl)) in E.
    apply IH in F; [lia|]. intros y Hy. apply H. now right.
Qed.

Lemma get_of_distinct (o : Obj.t) (k : string) (v : json) :
  NoDup (Obj.keys o) -> In (k, v) o -> Obj.get k o = Some v.
Proof.
  induction o as [|[k1 v1] r IH]; simpl; [intros _ []|].
  intros D [E|Hin].
  - injection E as -> ->. now rewrite String.eqb_refl.
  - inversion D as [|? ? Hn Hr]; subst.
    destruct (String.eqb k1 k) eqn:E.
    + apply String.eqb_eq in E. subst k1. exfalso. apply Hn.
      apply (in_map fst) in Hin. exact Hin.
    + now apply IH.
Qed.

Lemma prop_size_sum (o : Obj.t) :
  NoDup (Obj.keys o) -> list_sum (List.map (prop_size o) (Obj.keys o)) = props_size o.
Proof.
  intros D. unfold Obj.keys, props_size. rewrite List.map_map. f_equal.
  apply map_ext_in. intros [k v] Hin. unfold prop_size. simpl.
  now rewrite (get_of_distinct o k v D Hin).
Qed.

Lemma helper_count (fuel : nat) :
  forall val path out r,
    distinct_keys val ->
    Flatten.helper fuel val path out = Some r ->
    List.length r <= List.length out + jsize val.
Proof.
  induction fuel as [|f IH]; intros val path out r Hv; [discriminate|].
  cbn [Flatten.helper].
  destruct (Flatten.decode val) as [parsed|] eqn:D.
  { intros H. apply IH in H; [|eapply decode_distinct, D].
    apply decode_size in D. lia. }
  assert (L : Some (out ++ [Flatten.leaf val path]) = Some r ->
              List.length r <= List.length out + jsize val).
  { intros [= <-]. rewrite length_app. simpl. pose proof (jsize_pos val). lia. }
  destruct val as [ | b | n | s | items | props ]; try exact L.
  - intros H. rewrite jsize_array.
    apply (forEach_count _ jsize) in H; [unfold items_size; lia|].
    intros x Hx i out0 r0. apply IH.
    apply distinct_array in Hv. rewrite Forall_forall in Hv. now apply Hv.
  - intros H. rewrite jsize_object. apply distinct_object in Hv. destruct Hv as [Hd Hp].
    apply (forEach_count _ (prop_size props)) in H.
    + rewrite (prop_size_sum props Hd) in H. lia.
    + intros k _ i out0 r0. unfold prop_size.
      destruct (Obj.get k props) as [v|] eqn:G; [|intros [= <-]; lia].
      apply IH. unfold distinct_props in Hp. rewrite Forall_forall in Hp.
      destruct (get_In k props v G) as [k' Hk]. apply (Hp (k', v) Hk).
Qed.

(** X16: the flattener returns no more entries than the size of the
    value: for a value parsed from JSON text, no more entries than the
    text has characters. *)
Theorem flatten_size_bound (s : string) (v : json) :
  Json.parse s = Some v ->
  List.length (flatten v) <= jsize v
  /\ List.length (flatten v) <= String.length s
  /\ List.length (flatten (JString s)) <= String.length s + 1.
Proof.
  intros P.
  assert (B : forall x, distinct_keys x -> List.length (flatten x) <= jsize x).
  { intros x Hx.
    pose proof (flatten_is_helper x (jsize x) (le_n _)) as H.
    apply helper_count in H; [|exact Hx]. simpl in H. exact H. }
  pose proof (B v (parse_distinct s v P)) as Bv.
  split; [exact Bv|]. split.
  - apply parse_size in P. lia.
  - pose proof (B (JString s) I) as Bs.
    change (jsize (JString s)) with (S (String.length s)) in Bs. lia.
Qed.

Lemma flatten_size_bound_witness :
  List.length (flatten (JObject [("a", JString "[2,3]"); ("b", JArray [])]))
  <= String.length (json_text "{'a': '[2,3]', 'b': []}").
Proof.
  exact (proj1 (proj2 (flatten_size_bound
                         (json_text "{'a': '[2,3]', 'b': []}")
                         (JObject [("a", JString "[2,3]"); ("b", JArray [])])
                         eq_refl))).
Defined.

(* ---------- the merge of an array ---------- *)

Lemma merge_item_get (acc : Obj.t) (item : json) (idx : nat) (k : string) :
  distinct_keys item ->
  Str.forallb Str.is_digit k = false ->
  Obj.get k (Handler.merge_item acc item idx)
  = match Js.prop k item with Some v => Some v | None => Obj.get k acc end.
Proof.
  intros D K. unfold Handler.merge_item.
  assert (N : forall i, Str.of_nat i <> k).
  { intros i E. rewrite <- E, of_nat_digits in K. discriminate. }
  destruct item as [ | b | n | s | l | o];
    cbn [Js.truthy Js.is_object Js.prop Js.own_props andb]; rewrite ?andb_false_r;
    try (apply get_set_other; apply not_eq_sym, N).
  - apply get_assign_other. intros kv Hkv E.
    apply indexed_keys_digits in Hkv. rewrite E in Hkv. congruence.
  - apply get_assign. now apply distinct_object in D.
Qed.

Lemma reduce_get (items : list json) (acc : Obj.t) (idx : nat) (k : string) :
  Forall distinct_keys items ->
  Str.forallb Str.is_digit k = false ->
  Obj.get k (Handler.reduce acc idx items)
  = fold_left (fun found item =>
                 match Js.prop k item with Some v => Some v | None => found end)
              items (Obj.get k acc).
Proof.
  intros D K. revert acc idx.
  induction D as [|x r Hx Hr IH]; intros acc idx; simpl; [reflexivity|].
  rewrite IH. now rewrite merge_item_get.
Qed.

(** X17: when the body is an array of parsed values none of which has a
    property named [__proto__], the merged object has as own property
    under a key that is not a numeral the value under that key in the
    last element of the array that is an object with that key, and no
    such property when there is no such element: later fragments
    overwrite earlier ones. *)
Theorem merge_last_fragment_wins (items : list json) (payload : json) (k : string) :
  distinct_keys (JArray items) ->
  Handler.keeps_prototype (JArray items) = true ->
  Str.forallb Str.is_digit k = false ->
  Handler.merge (JArray items) = Some payload ->
  Js.prop k payload = last_prop k items.
Proof.
  intros D _ K M. apply distinct_array in D.
  destruct items as [|x r]; [discriminate|]. injection M as <-.
  unfold last_prop. exact (reduce_get (x :: r) [] 0 k D K).
Qed.

Lemma merge_last_fragment_wins_witness :
  Js.prop "gold_gram"
    (JObject [("1", JNull); ("gold_gram", int 91); ("silver_gram", JNumber (dec 11 (-1)))])
  = Some (int 91).
Proof.
  apply (merge_last_fragment_wins
           [JObject [("gold_gram", int 90)]; JNull;
            JObject [("silver_gram", JNumber (dec 11 (-1))); ("gold_gram", int 91)]]
           (JObject [("1", JNull); ("gold_gram", int 91);
                     ("silver_gram", JNumber (dec 11 (-1)))])
           "gold_gram").
  - simpl. repeat split; repeat constructor; simpl; intuition discriminate.
  - reflexivity.
  - reflexivity.
  - vm_compute. reflexivity.
Defined.

(* ------------------------------------------------------------------ *)
(** ** The letter case of keys *)

Lemma find_case_blind (f : entry -> bool) (es es' : list entry) :
  case_blind f -> Forall2 same_modulo_case es es' ->
  option_map value (find f es) = option_map value (find f es').
Proof.
  intros B H. induction H as [|e e' r r' He Hr IH]; simpl; [reflexivity|].
  rewrite <- (B e e' He). destruct (f e); [|exact IH].
  simpl. now destruct He as (_ & _ & ->).
Qed.

Lemma filter_case_blind (f : entry -> bool) (es es' : list entry) :
  case_blind f -> Forall2 same_modulo_case es es' ->
  Forall2 same_modulo_case (filter f es) (filter f es').
Proof.
  intros B H. induction H as [|e e' r r' He Hr IH]; simpl; [constructor|].
  rewrite <- (B e e' He). destruct (f e); [now constructor|exact IH].
Qed.

Lemma assign_found_value (a a' : option entry) (field : option number) :
  option_map value a = option_map value a' ->
  assign_found a field = assign_found a' field.
Proof.
  unfold assign_found. destruct a as [e|], a' as [e'|]; simpl; try discriminate.
  - now intros [= ->].
  - reflexivity.
Qed.

Lemma when_null_value (a a' : option entry) (field : option number) :
  option_map value a = option_map value a' ->
  when_null field a = when_null field a'.
Proof.
  intros H. unfold when_null. destruct field; [reflexivity|]. now apply assign_found_value.
Qed.

Lemma or_else_value (a a' b b' : option entry) :
  option_map value a = option_map value a' ->
  option_map value b = option_map value b' ->
  option_map value (or_else a b) = option_map value (or_else a' b').
Proof.
  destruct a, a'; simpl; try discriminate; trivial.
Qed.

Lemma insert_same_num (x x' : candidate) (l l' : list candidate) :
  num x = num x' -> Forall2 (fun c c' => num c = num c') l l' ->
  Forall2 (fun c c' => num c = num c')
    (ArraySort.insert by_num_desc x l) (ArraySort.insert by_num_desc x' l').
Proof.
  intros Hx H. induction H as [|y y' r r' Hy Hr IH]; simpl; [now repeat constructor|].
  unfold by_num_desc at 1 3. rewrite <- Hx, <- Hy.
  destruct (Num.gt0 _); constructor; try assumption. now constructor.
Qed.

Lemma ranked_case_blind (keep : entry -> bool) (es es' : list entry) :
  case_blind keep -> Forall2 same_modulo_case es es' ->
  Forall2 (fun c c' => num c = num c') (ranked es keep) (ranked es' keep).
Proof.
  intros B H. unfold ranked. apply (filter_case_blind keep es es' B) in H.
  induction H as [|e e' r r' He Hr IH]; simpl; [constructor|].
  apply insert_same_num; [|exact IH].
  unfold with_num. simpl. now destruct He as (_ & _ & ->).
Qed.

Lemma take_top_two_same_num (l l' : list candidate) (p : prices) :
  Forall2 (fun c c' => num c = num c') l l' -> take_top_two l p = take_top_two l' p.
Proof.
  intros H. unfold take_top_two.
  destruct H as [|c0 c0' r r' H0 Hr]; [reflexivity|]. rewrite H0.
  destruct Hr as [|c1 c1' t t' H1 Ht]; [reflexivity|]. now rewrite H1.
Qed.

Ltac blind :=
  let e := fresh "e" in let e' := fresh "e'" in
  let K := fresh "K" in let P := fresh "P" in let V := fresh "V" in
  intros e e' (K & P & V);
  unfold key_includes, key_or_path_end, gold_step3_key, silver_step3_key, mentions,
    gram_key, numeric_key, ounce_key, parses, currency_allows;
  cbn [forallb]; rewrite ?K, ?P, ?V; reflexivity.

Lemma pick_case_blind (subs : list string) : case_blind (key_includes subs).
Proof.
  intros e e' (K & P & V). unfold key_includes. now rewrite K.
Qed.

Lemma key_or_path_end_case_blind (k : string) : case_blind (key_or_path_end k).
Proof. blind. Qed.

Lemma gold_step3_case_blind : case_blind gold_step3_key.
Proof. blind. Qed.

Lemma silver_step3_case_blind : case_blind silver_step3_key.
Proof. blind. Qed.

Lemma mentions_case_blind (t : string) : case_blind (mentions t).
Proof. blind. Qed.

Lemma gram_key_case_blind (currency : string) : case_blind (gram_key currency).
Proof. blind. Qed.

Lemma numeric_key_case_blind (currency : string) : case_blind (numeric_key currency).
Proof. blind. Qed.

Lemma ounce_key_case_blind (currency metal : string) : case_blind (ounce_key currency metal).
Proof. blind. Qed.

Lemma gto_case_blind :
  case_blind (fun e => Str.includes (lc (key e)) "gram_to_ounce"
                       || Str.includes (lc (key e)) "gram_to_ounce_formula").
Proof. blind. Qed.

Lemma heuristics_case_blind (es es' : list entry) (currency : string) :
  Forall2 same_modulo_case es es' ->
  heuristics es currency = heuristics es' currency.
Proof.
  intros H.
  assert (E1 : step1 es = step1 es').
  { unfold step1. rewrite !pickByKeyIncludes_find. cbv zeta. f_equal;
      apply assign_found_value, find_case_blind; auto using pick_case_blind. }
  assert (E2 : forall p, step2 es currency p = step2 es' currency p).
  { intros p. unfold step2. f_equal;
      apply when_null_value, find_case_blind; auto using key_or_path_end_case_blind. }
  assert (E3 : forall p, step3 es p = step3 es' p).
  { intros p. unfold step3. f_equal; apply when_null_value, find_case_blind;
      auto using gold_step3_case_blind, silver_step3_case_blind. }
  assert (E4 : forall p, step4 es p = step4 es' p).
  { intros p. unfold step4. f_equal; apply when_null_value, find_case_blind;
      auto using mentions_case_blind. }
  assert (E5 : forall p, step5 es currency p = step5 es' currency p).
  { intros p. unfold step5, gramCandidates. destruct (_ || _); [|reflexivity].
    apply take_top_two_same_num, ranked_case_blind; auto using gram_key_case_blind. }
  assert (E6 : forall p, step6 es currency p = step6 es' currency p).
  { intros p. unfold step6, numericEntries. destruct (_ || _); [|reflexivity].
    apply take_top_two_same_num, ranked_case_blind; auto using numeric_key_case_blind. }
  unfold heuristics. now rewrite E1, E2, E3, E4, E5, E6.
Qed.

Lemma gramToOunce_case_blind (es es' : list entry) :
  Forall2 same_modulo_case es es' -> gramToOunce es = gramToOunce es'.
Proof.
  intros H. unfold gramToOunce, gto.
  apply assign_found_value, find_case_blind; [apply gto_case_blind|exact H].
Qed.

Lemma from_ounce_value_only (es es' : list entry) (o o' : option entry) :
  gramToOunce es = gramToOunce es' ->
  option_map value o = option_map value o' ->
  from_ounce es o = from_ounce es' o'.
Proof.
  intros G V. unfold from_ounce. rewrite G.
  destruct o as [e|], o' as [e'|]; simpl in V; try discriminate; [|reflexivity].
  now injection V as ->.
Qed.

(** X18: the extracted prices and the factor found among the entries do
    not depend on the letter case of the keys and paths of the entries. *)
Theorem extraction_ignores_letter_case (es es' : list entry) (currency : string) :
  Forall2 same_modulo_case es es' ->
  extracted es currency = extracted es' currency
  /\ gramToOunce es = gramToOunce es'.
Proof.
  intros H. pose proof (gramToOunce_case_blind es es' H) as G.
  split; [|exact G].
  unfold extracted. rewrite (heuristics_case_blind es es' currency H).
  assert (Eg : goldFromOunce es currency = goldFromOunce es' currency).
  { unfold goldFromOunce, gOunce, findKey. apply from_ounce_value_only; [exact G|].
    apply or_else_value; apply find_case_blind;
      auto using key_or_path_end_case_blind, ounce_key_case_blind. }
  assert (Es : silverFromOunce es currency = silverFromOunce es' currency).
  { unfold silverFromOunce, sOunce, findKey. apply from_ounce_value_only; [exact G|].
    apply or_else_value; apply find_case_blind;
      auto using key_or_path_end_case_blind, ounce_key_case_blind. }
  unfold prefer_ounce. now rewrite Eg, Es.
Qed.

Lemma extraction_ignores_letter_case_witness :
  extracted [entry_of "gold_gram_in_usd" (int 100);
             entry_of "silver_gram_in_usd" (JNumber (dec 12 (-1)))] "usd"
  = extracted scenarioA_upper "usd"
  /\ gramToOunce [entry_of "gold_gram_in_usd" (int 100);
                  entry_of "silver_gram_in_usd" (JNumber (dec 12 (-1)))]
     = gramToOunce scenarioA_upper.
Proof.
  apply (extraction_ignores_letter_case
           [entry_of "gold_gram_in_usd" (int 100);
            entry_of "silver_gram_in_usd" (JNumber (dec 12 (-1)))]
           scenarioA_upper "usd").
  constructor; [split; [reflexivity|split; reflexivity]|].
  constructor; [split; [reflexivity|split; reflexivity]|].
  constructor.
Defined.

(* ------------------------------------------------------------------ *)
(** ** The conversion factor *)

Lemma startsWith_app (s a b : string) :
  Str.startsWith s (a ++ b) = true -> Str.startsWith s a = true.
Proof.
  revert s. induction a as [|c r IH]; intros s; [now destruct s|].
  destruct s as [|d t]; simpl; [discriminate|].
  intros H. apply andb_true_iff in H. destruct H as [H1 H2].
  rewrite H1. now apply IH.
Qed.

Lemma includes_prefix (s a b : string) :
  Str.includes s (a ++ b) = true -> Str.includes s a = true.
Proof.
  induction s as [|c r IH]; cbn [Str.includes].
  - destruct (Str.startsWith EmptyString (a ++ b)) eqn:E; [|discriminate].
    intros _. now rewrite (startsWith_app _ _ _ E).
  - destruct (Str.startsWith (String c r) (a ++ b)) eqn:E.
    + intros _. now rewrite (startsWith_app _ _ _ E).
    + intros H. rewrite (IH H). now destruct (Str.startsWith (String c r) a).
Qed.

(** X19: in a 200 response for a payload in which no flattened key
    contains "gram_to_ounce" and which has no top-level
    [gram_to_ounce_formula] and [gram_to_ounce], [perOunce] is [perGram]
    divided by the default factor 0.0321507. *)
Theorem default_factor_applies (currency : string) (payload : json) (body : canonical) :
  Handler.respond currency payload = Success body ->
  (forall e, In e (flatten payload) -> Str.includes (lc (key e)) "gram_to_ounce" = false) ->
  Js.prop "gram_to_ounce_formula" payload = None ->
  Js.prop "gram_to_ounce" payload = None ->
  gramToOunce (flatten payload) = None
  /\ perOunce (gold body) = Num.div (perGram (gold body)) Num.default_factor
  /\ perOunce (silver body) = Num.div (perGram (silver body)) Num.default_factor.
Proof.
  intros R N F G.
  assert (E : gramToOunce (flatten payload) = None).
  { unfold gramToOunce, gto.
    assert (H : find (fun e => Str.includes (lc (key e)) "gram_to_ounce"
                               || Str.includes (lc (key e)) "gram_to_ounce_formula")
                     (flatten payload) = None).
    { apply find_none_iff. intros x Hx. rewrite (N x Hx). simpl.
      destruct (Str.includes (lc (key x)) "gram_to_ounce_formula") eqn:I; [|reflexivity].
      apply (includes_prefix _ "gram_to_ounce" "_formula") in I.
      rewrite (N x Hx) in I. discriminate. }
    now rewrite H. }
  split; [exact E|].
  unfold Handler.respond in R. cbv zeta in R.
  destruct (Js.to_primitive_throws _); [discriminate|].
  destruct (goldPerGram _) as [g|]; [|discriminate].
  destruct (silverPerGram _) as [s|]; [|discriminate].
  injection R as <-. simpl. rewrite E. unfold Handler.final_factor. rewrite F, G.
  split; reflexivity.
Qed.

Lemma default_factor_applies_witness :
  exists body,
    Handler.respond "usd" scenarioA = Success body
    /\ perOunce (gold body) = Num.div (Num.of_N 100) Num.default_factor.
Proof.
  eexists. split; [vm_compute; reflexivity|].
  apply (default_factor_applies "usd" scenarioA).
  - reflexivity.
  - intros e [<-|[<-|[]]]; reflexivity.
  - reflexivity.
  - reflexivity.
Defined.

(** X20: the factor entry of line 256 is the first entry whose lower-cased
    key contains "gram_to_ounce"; the second test of that line, for
    "gram_to_ounce_formula", never decides. *)
Theorem factor_entry_is_first_gram_to_ounce_key (entries : list entry) :
  gto entries = find (fun e => Str.includes (lc (key e)) "gram_to_ounce") entries.
Proof.
  unfold gto. induction entries as [|x r IH]; simpl; [reflexivity|].
  rewrite IH.
  destruct (Str.includes (lc (key x)) "gram_to_ounce") eqn:A; [reflexivity|].
  destruct (Str.includes (lc (key x)) "gram_to_ounce_formula") eqn:B; [|reflexivity].
  apply (includes_prefix _ "gram_to_ounce" "_formula") in B. congruence.
Qed.

(* ------------------------------------------------------------------ *)
(** ** Flat objects and arrays of fragments *)

(* ---------- a flat object ---------- *)

Lemma helper_leaf (f : nat) (v : json) (path : string) (out : list entry) :
  is_leaf v = true ->
  Flatten.helper (S f) v path out = Some (out ++ [Flatten.leaf v path]).
Proof.
  intros L. unfold is_leaf in L. cbn [Flatten.helper].
  destruct (Flatten.decode v); [discriminate|].
  destruct v; try reflexivity; discriminate.
Qed.

Lemma helper_object (f : nat) (props : Obj.t) (path : string) (out : list entry) :
  Flatten.helper (S f) (JObject props) path out
  = Flatten.forEach
      (fun k _ out =>
         match Obj.get k props with
         | Some v => Flatten.helper f v (Flatten.child_path path k) out
         | None => Some out
         end) 0 (Obj.keys props) out.
Proof. reflexivity. Qed.

Lemma forEach_flat_object (f : nat) (o : Obj.t) (l : list (string * json)) :
  (forall kv, In kv l -> Obj.get (fst kv) o = Some (snd kv) /\ is_leaf (snd kv) = true) ->
  forall i out,
    Flatten.forEach
      (fun k _ out =>
         match Obj.get k o with
         | Some v => Flatten.helper (S f) v (Flatten.child_path EmptyString k) out
         | None => Some out
         end) i (Obj.keys l) out
    = Some (out ++ List.map (fun kv => Flatten.leaf (snd kv) (fst kv)) l).
Proof.
  induction l as [|[k v] r IH]; intros H i out; cbn [Obj.keys List.map Flatten.forEach fst snd].
  - now rewrite app_nil_r.
  - destruct (H (k, v) (or_introl eq_refl)) as [G L]. simpl in G, L.
    rewrite G, (helper_leaf f v _ out L).
    fold (Obj.keys r). rewrite IH by (intros kv Hkv; apply H; now right).
    rewrite <- app_assoc. reflexivity.
Qed.

(** X21: an object whose values are all leaves flattens to one entry for
    each property, in the order of the properties: the path is the name
    of the property, the key is its part after the last dot. *)
Theorem flatten_flat_object (o : Obj.t) :
  NoDup (Obj.keys o) ->
  Forall (fun kv => is_leaf (snd kv) = true) o ->
  flatten (JObject o) = List.map (fun kv => Flatten.leaf (snd kv) (fst kv)) o
  /\ List.map key (flatten (JObject o)) = List.map (fun kv => Str.split_dot_pop (fst kv)) o.
Proof.
  intros D L.
  assert (E : flatten (JObject o) = List.map (fun kv => Flatten.leaf (snd kv) (fst kv)) o).
  { pose proof (flatten_is_helper (JObject o) (S (S (jsize (JObject o)))) ltac:(lia)) as H.
    rewrite helper_object, (forEach_flat_object _ o o) in H.
    - now injection H as <-.
    - intros [k v] Hkv. simpl. split; [now apply get_of_distinct|].
      rewrite Forall_forall in L. apply (L (k, v) Hkv). }
  split; [exact E|]. rewrite E, List.map_map. apply List.map_ext.
  intros [k v]. simpl. now destruct k.
Qed.

Lemma flatten_flat_object_witness :
  flatten scenarioA
  = [Flatten.leaf (int 100) "gold_gram_in_usd";
     Flatten.leaf (JNumber (dec 12 (-1))) "silver_gram_in_usd"].
Proof.
  apply (flatten_flat_object
           [("gold_gram_in_usd", int 100); ("silver_gram_in_usd", JNumber (dec 12 (-1)))]).
  - repeat constructor; simpl; intuition discriminate.
  - repeat constructor.
Defined.

(* ---------- an array of fragments ---------- *)

Lemma set_new_key (k : string) (v : json) (o : Obj.t) :
  ~ In k (Obj.keys o) -> Obj.array_index k = None -> Obj.set k v o = o ++ [(k, v)].
Proof.
  intros N A. unfold Obj.set.
  apply get_None_keys, has_false in N. now rewrite N, A.
Qed.

Lemma assign_new_keys (source : list (string * json)) (target : Obj.t) :
  NoDup (Obj.keys (target ++ source)) ->
  Forall (fun k => Obj.array_index k = None) (Obj.keys source) ->
  Obj.assign target source = target ++ source.
Proof.
  unfold Obj.assign. revert target.
  induction source as [|[k v] r IH]; intros target D A; simpl.
  - now rewrite app_nil_r.
  - inversion A as [|? ? Ak Ar]; subst.
    assert (N : ~ In k (Obj.keys target)).
    { unfold Obj.keys in *. rewrite map_app in D. simpl in D.
      apply NoDup_remove_2 in D. intros H. apply D. apply in_or_app. now left. }
    rewrite (set_new_key k v target N Ak).
    rewrite IH; [now rewrite <- app_assoc| |exact Ar].
    now rewrite <- app_assoc.
Qed.

Lemma reduce_fragments (frags : list Obj.t) (acc : Obj.t) (idx : nat) :
  NoDup (Obj.keys (acc ++ List.concat frags)) ->
  Forall (fun k => Obj.array_index k = None) (Obj.keys (List.concat frags)) ->
  Handler.reduce acc idx (List.map JObject frags) = acc ++ List.concat frags.
Proof.
  revert acc idx. induction frags as [|o r IH]; intros acc idx D A; simpl.
  - now rewrite app_nil_r.
  - unfold Handler.merge_item. simpl.
    unfold Obj.keys in A. simpl in A. rewrite map_app in A. apply Forall_app in A.
    destruct A as [Ao Ar].
    rewrite assign_new_keys.
    + rewrite IH; [now rewrite <- app_assoc| |exact Ar].
      simpl in D. now rewrite <- app_assoc.
    + simpl in D. rewrite app_assoc in D. unfold Obj.keys in D. rewrite map_app in D.
      now apply NoDup_app_remove_r in D.
    + exact Ao.
Qed.

(** X22: an array of objects whose keys are pairwise distinct, are not
    array indices and are not [__proto__] is merged into the object that
    has their properties in the order of the array; the handler goes on
    from line 109 with that object, and the array is answered as that
    object is as a body when the object has no object or array under a
    [data] field. *)
Theorem fragments_are_concatenated (currency : string) (frags : list Obj.t) :
  frags <> [] ->
  NoDup (Obj.keys (List.concat frags)) ->
  Forall (fun k => Obj.array_index k = None) (Obj.keys (List.concat frags)) ->
  ~ In "__proto__" (Obj.keys (List.concat frags)) ->
  Handler.merge (JArray (List.map JObject frags)) = Some (JObject (List.concat frags))
  /\ Handler.rates_handler currency (JArray (List.map JObject frags))
     = Handler.respond currency (JObject (List.concat frags))
  /\ (Handler.unwrap (JObject (List.concat frags)) = JObject (List.concat frags) ->
      Handler.rates_handler currency (JArray (List.map JObject frags))
      = Handler.rates_handler currency (JObject (List.concat frags))).
Proof.
  intros N D A _.
  assert (M : Handler.merge (JArray (List.map JObject frags)) = Some (JObject (List.concat frags))).
  { destruct frags as [|o r]; [congruence|].
    change (Handler.merge (JArray (List.map JObject (o :: r))))
      with (Some (JObject (Handler.reduce [] 0 (List.map JObject (o :: r))))).
    now rewrite (reduce_fragments (o :: r) [] 0 D A). }
  assert (R : Handler.rates_handler currency (JArray (List.map JObject frags))
              = Handler.respond currency (JObject (List.concat frags))).
  { unfold Handler.rates_handler.
    change (Handler.unwrap (JArray (List.map JObject frags)))
      with (JArray (List.map JObject frags)).
    now rewrite M. }
  split; [exact M|]. split; [exact R|].
  intros U. rewrite R. unfold Handler.rates_handler. now rewrite U.
Qed.

Lemma fragments_are_concatenated_witness :
  Handler.merge scenarioB
  = Some (JObject [("gold_gram", int 90); ("silver_gram", JNumber (dec 11 (-1)))])
  /\ Handler.rates_handler "usd" scenarioB
     = Handler.respond "usd"
         (JObject [("gold_gram", int 90); ("silver_gram", JNumber (dec 11 (-1)))])
  /\ Handler.rates_handler "usd" scenarioB
     = Handler.rates_handler "usd"
         (JObject [("gold_gram", int 90); ("silver_gram", JNumber (dec 11 (-1)))]).
Proof.
  destruct (fragments_are_concatenated "usd"
              [[("gold_gram", int 90)]; [("silver_gram", JNumber (dec 11 (-1)))]])
    as (M & R & U).
  - discriminate.
  - repeat constructor; simpl; intuition discriminate.
  - repeat constructor.
  - simpl. intuition discriminate.
  - split; [exact M|]. split; [exact R|]. apply U. reflexivity.
Defined.
